(** * compress-aerial-images.py : batch conversion of aerial rasters

    A shallow embedding of [src/compress-aerial-images.py] and the
    properties of its batch scheduler, path mapper, conversion unit and
    report.

    The script talks to three outside parties: the GDAL raster library, the
    operating system ([os], [time], [multiprocessing]) and the console.  A
    call to the library or to the system is a constructor of [ext]; what it
    answers is decided by a _host_, about which the theorems assume nothing
    unless they say so.  A line on the console is a [Msg].  A run of a
    Python function is a function from the host's state to an outcome (a
    value or a raised exception), a new host state and the events of the
    run, calls and lines, in the order they happened.  The functions of
    [os.path] are pure and are modelled on strings, after [posixpath].  A
    string stands for the text it encodes in UTF-8; [str.lower] is exact on
    ASCII text and takes the case tables of Unicode as a parameter on other
    text, so that nothing proved here depends on them. *)

From Stdlib Require Import ZArith List String Ascii Bool Lia PrimFloat FloatOps.
From Stdlib Require Import DecimalString.
Import ListNotations.

Local Open Scope list_scope.
Local Open Scope string_scope.

(** ** Python strings and the parts of [str] the script uses

    A Python [str] is modelled as a [string] of 8-bit characters. *)

Module Py.

(** [s.startswith(p)] *)
Fixpoint startswith (p s : string) : bool :=
  match p, s with
  | EmptyString, _ => true
  | String a p', String b s' => Ascii.eqb a b && startswith p' s'
  | String _ _, EmptyString => false
  end.

(** [s.endswith(c)] for a one-character [c] *)
Fixpoint endswith_char (c : ascii) (s : string) : bool :=
  match s with
  | EmptyString => false
  | String a EmptyString => Ascii.eqb a c
  | String _ s' => endswith_char c s'
  end.

(** [needle in s] on strings: substring test *)
Fixpoint str_contains (needle s : string) : bool :=
  startswith needle s ||
  match s with
  | EmptyString => false
  | String _ s' => str_contains needle s'
  end.

(** [x in l] on a list of strings *)
Definition list_contains (x : string) (l : list string) : bool :=
  existsb (String.eqb x) l.

(** [sep.join(l)] *)
Fixpoint str_join (sep : string) (l : list string) : string :=
  match l with
  | [] => ""
  | [x] => x
  | x :: l' => x ++ sep ++ str_join sep l'
  end.

(** [s.split(c)] for a one-character separator: never empty, [''.split('/')]
    is [['']]. *)
Fixpoint split (c : ascii) (s : string) : list string :=
  match s with
  | EmptyString => [""]
  | String a s' =>
      if Ascii.eqb a c then "" :: split c s'
      else match split c s' with
           | [] => [String a ""]
           | w :: ws => String a w :: ws
           end
  end.

(** [c.lower()] on one ASCII character: the letters A to Z move to a to z. *)
Definition lower_char (c : ascii) : ascii :=
  let n := nat_of_ascii c in
  if (65 <=? n)%nat && (n <=? 90)%nat then ascii_of_nat (n + 32) else c.

(** [s.lower()] on a [str] of ASCII characters, which CPython lower-cases
    character by character. *)
Fixpoint lower_ascii (s : string) : string :=
  match s with
  | EmptyString => EmptyString
  | String c s' => String (lower_char c) (lower_ascii s')
  end.

(** [s.isascii()]: a string stands for the text it encodes in UTF-8, so a
    [str] is ASCII when every byte is below 128. *)
Fixpoint isascii (s : string) : bool :=
  match s with
  | EmptyString => true
  | String c s' => (nat_of_ascii c <? 128)%nat && isascii s'
  end.

(** [s.lower()] on a [str] with a character outside ASCII follows the case
    mappings of the Unicode database, special casing included (a final
    sigma, a dotted capital I).  These tables are not part of the script:
    they are a parameter of the model, and nothing is assumed of them. *)
Class UnicodeLower := unicode_lower : string -> string.

(** [s.lower()] *)
Definition lower `{UnicodeLower} (s : string) : string :=
  if isascii s then lower_ascii s else unicode_lower s.

(** [s.rfind(c)] for a one-character [c], counting positions from [i]:
    the index of the last occurrence, [-1] when there is none. *)
Fixpoint rfind_from (c : ascii) (s : string) (i : Z) : Z :=
  match s with
  | EmptyString => (-1)%Z
  | String a s' =>
      let r := rfind_from c s' (i + 1)%Z in
      if (0 <=? r)%Z then r else if Ascii.eqb a c then i else (-1)%Z
  end.

Definition rfind (c : ascii) (s : string) : Z := rfind_from c s 0%Z.

(** [s[:i]] and [s[i:]] for [0 <= i] *)
Definition slice_to (s : string) (i : Z) : string :=
  substring 0 (Z.to_nat i) s.

Definition slice_from (s : string) (i : Z) : string :=
  substring (Z.to_nat i) (String.length s - Z.to_nat i) s.

(** [s[i:i+1]] *)
Definition char_at (s : string) (i : Z) : string :=
  substring (Z.to_nat i) 1 s.

(** [s.rstrip(c)] for a one-character [c] *)
Fixpoint rstrip (c : ascii) (s : string) : string :=
  match s with
  | EmptyString => EmptyString
  | String a s' =>
      match rstrip c s' with
      | EmptyString => if Ascii.eqb a c then EmptyString else String a EmptyString
      | r => String a r
      end
  end.

(** [c * n] for a one-character [c] *)
Fixpoint repeat_char (c : ascii) (n : nat) : string :=
  match n with
  | O => EmptyString
  | S n' => String c (repeat_char c n')
  end.

(** [range(lo, hi)] *)
Definition range (lo hi : Z) : list Z :=
  map (fun k => (lo + Z.of_nat k)%Z) (seq 0 (Z.to_nat (hi - lo))).

(** [str(n)] for an [int] *)
Definition str_of_int (n : Z) : string :=
  NilZero.string_of_int (Z.to_int n).

End Py.

(** ** [os.path] on POSIX ([posixpath.py]) *)

Module os_path.

Import Py.

Definition sep : ascii := "/"%char.

(** [isabs(p)]: [p.startswith('/')] *)
Definition isabs (p : string) : bool := startswith "/" p.

(** [join(a, b)]: an absolute [b] replaces [a]; otherwise [b] is appended,
    with a separator unless [a] is empty or already ends with one. *)
Definition join (a b : string) : string :=
  if startswith "/" b then b
  else if (a =? "") || endswith_char sep a then a ++ b
  else a ++ "/" ++ b.

(** [join(a, *p)] *)
Definition join_all (a : string) (p : list string) : string :=
  fold_left join p a.

(** The loop of [normpath] over the components, [new_comps] kept in reverse:
    empty and ['.'] components are skipped, ['..'] pops the last kept
    component, or is kept when the path is relative and nothing is left to
    pop, or when the last kept component is ['..'] itself. *)
Fixpoint normpath_loop (initial_slashes : nat) (comps rev_new : list string)
  : list string :=
  match comps with
  | [] => rev rev_new
  | comp :: rest =>
      if (comp =? "") || (comp =? ".") then
        normpath_loop initial_slashes rest rev_new
      else if negb (comp =? "..")
              || ((initial_slashes =? 0)%nat && match rev_new with [] => true | _ => false end)
              || match rev_new with last :: _ => last =? ".." | [] => false end
      then normpath_loop initial_slashes rest (comp :: rev_new)
      else match rev_new with
           | _ :: popped => normpath_loop initial_slashes rest popped
           | [] => normpath_loop initial_slashes rest rev_new
           end
  end.

(** [normpath(path)] *)
Definition normpath (path : string) : string :=
  if path =? "" then "."
  else
    let initial_slashes :=
      if startswith "/" path then
        if startswith "//" path && negb (startswith "///" path) then 2%nat
        else 1%nat
      else 0%nat in
    let comps := normpath_loop initial_slashes (split sep path) [] in
    let path' := repeat_char sep initial_slashes ++ str_join "/" comps in
    if path' =? "" then "." else path'.

(** The path that [abspath] normalises: [path] itself when it is absolute,
    [join(os.getcwd(), path)] otherwise. *)
Definition anchored (cwd path : string) : string :=
  if isabs path then path else join cwd path.

(** [abspath(path)], [cwd] being what [os.getcwd()] answers *)
Definition abspath (cwd path : string) : string :=
  normpath (anchored cwd path).

(** The length of [commonprefix([l1, l2])] on two lists of components *)
Fixpoint commonprefix_len (l1 l2 : list string) : nat :=
  match l1, l2 with
  | x :: l1', y :: l2' => if x =? y then S (commonprefix_len l1' l2') else O
  | _, _ => O
  end.

(** [[x for x in p.split(sep) if x]] *)
Definition components (p : string) : list string :=
  filter (fun x => negb (x =? "")) (split sep p).

(** [relpath(path, start)]: [None] stands for the [ValueError] that an empty
    [path] raises. *)
Definition relpath (cwd path start : string) : option string :=
  if path =? "" then None
  else
    let start_list := components (abspath cwd start) in
    let path_list := components (abspath cwd path) in
    let i := commonprefix_len start_list path_list in
    let rel_list := (repeat ".." (List.length start_list - i) ++ skipn i path_list)%list in
    match rel_list with
    | [] => Some "."
    | c :: cs => Some (join_all c cs)
    end.

(** [p[:i]] and [p[i:]] for [i = p.rfind('/') + 1] *)
Fixpoint head_tail (p : string) : string * string :=
  match p with
  | EmptyString => ("", "")
  | String c p' =>
      let (h, t) := head_tail p' in
      if Ascii.eqb c sep then (String c h, t)
      else if h =? "" then ("", String c t)
      else (String c h, t)
  end.

(** [dirname(p)] *)
Definition dirname (p : string) : string :=
  let head := fst (head_tail p) in
  if negb (head =? "") && negb (head =? repeat_char sep (String.length head))
  then rstrip sep head
  else head.

(** [basename(p)] *)
Definition basename (p : string) : string := snd (head_tail p).

(** [splitext(p)] ([genericpath._splitext] with [sep = '/'], no [altsep] and
    [extsep = '.']): the extension starts at the last dot of the last
    component, unless that component has only dots before it. *)
Definition splitext (p : string) : string * string :=
  let sepIndex := rfind sep p in
  let dotIndex := rfind "."%char p in
  if (sepIndex <? dotIndex)%Z
     && existsb (fun k => negb (char_at p k =? "."))
                (range (sepIndex + 1) dotIndex)
  then (slice_to p dotIndex, slice_from p dotIndex)
  else (p, "").

End os_path.

(** ** Values, exceptions and console lines *)

(** Handles of the raster library's objects. *)
Inductive Dataset := DatasetRef (id : Z).
Inductive Band := BandRef (id : Z).
Inductive Driver := DriverRef (id : Z).
Inductive Array := ArrayRef (id : Z).

(** An instance of [Exception]: its class name and [str(e)].  What the
    raster library and the operating system raise are such instances;
    [KeyboardInterrupt] and [SystemExit], which are not, are outside this
    model. *)
Inductive exn := Exception (kind : string) (str : string).

Definition exn_str (e : exn) : string :=
  match e with Exception _ s => s end.

(** The result of evaluating a Python expression or running a function. *)
Inductive Outcome (A : Type) :=
| Ret (a : A)
| Raise (e : exn).
Arguments Ret {A} a.
Arguments Raise {A} e.

(** The lines the script prints, one constructor per [print] statement, with
    the values its f-string interpolates. *)
Inductive Msg :=
| MsgGpuDetected                              (* "Support GPU détecté!" *)
| MsgGpuNotDetected                           (* "Support GPU non détecté dans cette version de GDAL." *)
| MsgGpuCheckError                            (* "Erreur lors de la vérification du support GPU." *)
| MsgCannotOpen (input_file : string)         (* "Impossible d'ouvrir le fichier {input_file}" *)
| MsgGpuAccel                                 (* "Utilisation de l'accélération GPU CUDA" *)
| MsgCpuOnly                                  (* "Utilisation du CPU uniquement" *)
| MsgCannotCreate (output_file : string)      (* "Impossible de créer le fichier {output_file}" *)
| MsgSuccess (output_file : string) (duration : float)
                                              (* "Compression réussie: {output_file} (Durée: {duration:.2f} secondes)" *)
| MsgError (e : string)                       (* "Erreur lors de la compression: {str(e)}" *)
| MsgParallel (pool_size : Z)                 (* "Traitement parallèle avec {pool_size} processus..." *)
| MsgProcessing (input_path : string)         (* "Traitement de {input_path}..." *)
| MsgDone (successful_files total_files : Z)  (* "Compression terminée: {successful_files}/{total_files} fichiers traités avec succès." *)
| MsgTiming (duration mean : float).          (* "Durée totale: {duration:.2f} secondes, moyenne: {...:.2f} secondes/fichier" *)

(** ** Calls to the outside *)

Inductive ext : Type -> Type :=
(* time, multiprocessing, os *)
| time_time : ext float
| multiprocessing_cpu_count : ext Z
| multiprocessing_Pool (processes : Z) : ext unit
| os_path_exists (p : string) : ext bool
| os_makedirs (p : string) (exist_ok : bool) : ext unit
| os_walk (top : string) : ext (list (string * list string * list string))
    (* the triples [(root, dirs, files)] that the generator yields over the run *)
(* osgeo.gdal *)
| gdal_GetDriverByName (name : string) : ext (option Driver)
| gdal_GetCacheMax : ext Z
| gdal_GetDriverCount : ext Z
| gdal_GetDriver (i : Z) : ext (option Driver)
| gdal_SetConfigOption (key value : string) : ext unit
| gdal_Open (path : string) : ext (option Dataset)
| Driver_GetMetadataItem (d : Driver) (key : string) : ext (option string)
| Driver_ShortName (d : Driver) : ext string
| Driver_Create (d : Driver) (path : string) (width height bands data_type : Z)
                (options : list string) : ext (option Dataset)
| Dataset_RasterXSize (ds : Dataset) : ext Z
| Dataset_RasterYSize (ds : Dataset) : ext Z
| Dataset_RasterCount (ds : Dataset) : ext Z
| Dataset_GetRasterBand (ds : Dataset) (i : Z) : ext (option Band)
| Dataset_GetProjection (ds : Dataset) : ext string
| Dataset_GetGeoTransform (ds : Dataset) : ext (list float)
| Dataset_SetProjection (ds : Dataset) (projection : string) : ext Z
| Dataset_SetGeoTransform (ds : Dataset) (geo_transform : list float) : ext Z
| Dataset_BuildOverviews (ds : Dataset) (resampling : string) (overviews : list Z) : ext Z
| Band_DataType (b : Band) : ext Z
| Band_ReadAsArray (b : Band) : ext (option Array)
| Band_WriteArray (b : Band) (data : option Array) : ext Z
| Band_GetNoDataValue (b : Band) : ext (option float)
| Band_SetNoDataValue (b : Band) (value : float) : ext Z
| Band_SetMetadataItem (b : Band) (key value domain : string) : ext Z.

(** What a run leaves behind: the lines printed and the calls made, each with
    what it answered. *)
Inductive Event :=
| EPrint (m : Msg)
| ECall {A : Type} (c : ext A) (r : Outcome A).

(** A host answers every call from its state. *)
Definition Host (S : Type) : Type := forall A : Type, ext A -> S -> Outcome A * S.

(** ** Runs *)

Record Res (S A : Type) := mkRes { out : Outcome A; st : S; evs : list Event }.
Arguments mkRes {S A} out st evs.
Arguments out {S A} r.
Arguments st {S A} r.
Arguments evs {S A} r.

Definition M (S A : Type) : Type := S -> Res S A.

Definition ret {S A} (a : A) : M S A := fun s => mkRes (Ret a) s [].

Definition raise {S A} (e : exn) : M S A := fun s => mkRes (Raise e) s [].

Definition bind {S A B} (m : M S A) (k : A -> M S B) : M S B :=
  fun s =>
    let r := m s in
    match out r with
    | Ret a => let r' := k a (st r) in mkRes (out r') (st r') (evs r ++ evs r')
    | Raise e => mkRes (Raise e) (st r) (evs r)
    end.

(** [print(...)]: writing to the console is taken to succeed. *)
Definition print {S} (m : Msg) : M S unit := fun s => mkRes (Ret tt) s [EPrint m].

(** A call to the outside, answered by the host. *)
Definition call {S A} (host : Host S) (c : ext A) : M S A :=
  fun s => let (r, s') := host A c s in mkRes r s' [ECall c r].

(** [try: body  except Exception as e: handler(e)] *)
Definition try_except {S A} (body : M S A) (handler : exn -> M S A) : M S A :=
  fun s =>
    let r := body s in
    match out r with
    | Ret a => r
    | Raise e => let r' := handler e (st r) in mkRes (out r') (st r') (evs r ++ evs r')
    end.

(** An expression that evaluates without calls. *)
Definition lift {S A} (o : Outcome A) : M S A := fun s => mkRes o s [].

Declare Scope py_scope.
Delimit Scope py_scope with py.
Notation "x <- m ;; k" := (bind m (fun x => k))
  (at level 100, m at next level, right associativity) : py_scope.
Notation "' p <- m ;; k" := (bind m (fun x => match x with p => k end))
  (at level 100, p pattern, m at next level, right associativity) : py_scope.
Notation "m ;; k" := (bind m (fun _ => k))
  (at level 100, right associativity) : py_scope.
Local Open Scope py_scope.

(** [for x in l: body(x)] *)
Fixpoint for_each {S A} (l : list A) (body : A -> M S unit) : M S unit :=
  match l with
  | [] => ret tt
  | x :: l' => body x ;; for_each l' body
  end.

(** A [for] loop that updates local variables [b]. *)
Fixpoint for_fold {S A B} (l : list A) (b : B) (body : B -> A -> M S B) : M S B :=
  match l with
  | [] => ret b
  | x :: l' => b' <- body b x ;; for_fold l' b' body
  end.

(** [[f(x) for x in l]] *)
Fixpoint map_each {S A B} (f : A -> M S B) (l : list A) : M S (list B) :=
  match l with
  | [] => ret []
  | x :: l' => y <- f x ;; ys <- map_each f l' ;; ret (y :: ys)
  end.

(** [o.name] and [o.name(...)] on a value that may be [None]. *)
Definition attr {S A} (o : option A) (name : string) : M S A :=
  match o with
  | Some a => ret a
  | None => raise (Exception "AttributeError"
                     ("'NoneType' object has no attribute '" ++ name ++ "'"))
  end.

(** [v or 0] on a float that may be [None]: [None] and zero are falsy. *)
Definition or_zero (v : option float) : float :=
  match v with
  | Some x => if PrimFloat.eqb x 0 then 0%float else x
  | None => 0%float
  end.

(** [float(n)] for an [int], rounded to nearest. *)
Definition float_of_int (n : Z) : float :=
  SF2Prim (SpecFloat.binary_normalize prec emax n 0 false).

(** [x / n] for a float [x] and an [int] [n]. *)
Definition float_truediv_int (x : float) (n : Z) : Outcome float :=
  let d := float_of_int n in
  if is_infinity d then
    Raise (Exception "OverflowError" "int too large to convert to float")
  else if (n =? 0)%Z then
    Raise (Exception "ZeroDivisionError" "float division by zero")
  else Ret (x / d)%float.

(** ** The script *)

Import Py.

(** A work item: [(input_path, output_path, use_gpu)]. *)
Definition WorkItem : Type := string * string * bool.

(** Line 20: [has_cuda = 'CUDA' in gdal.GetDriverByName('GTiff')
    .GetMetadataItem('DMD_CREATIONOPTIONLIST') or False], evaluated when the
    module is loaded. *)
Definition module_has_cuda {S} (host : Host S) : M S bool :=
  drv <- call host (gdal_GetDriverByName "GTiff") ;;
  d <- attr drv "GetMetadataItem" ;;
  md <- call host (Driver_GetMetadataItem d "DMD_CREATIONOPTIONLIST") ;;
  match md with
  | None => raise (Exception "TypeError" "argument of type 'NoneType' is not iterable")
  | Some l => ret (str_contains "CUDA" l || false)
  end.

(** The creation options of lines 81 to 98. *)
Definition base_options (cpu_count : Z) : list string :=
  [ "COMPRESS=JPEG";
    "JPEG_QUALITY=90";
    "PHOTOMETRIC=YCBCR";
    "TILED=YES";
    "BLOCKXSIZE=512";
    "BLOCKYSIZE=512";
    "NUM_THREADS=" ++ str_of_int cpu_count ].

Definition gpu_options : list string :=
  [ "GPUNODE=AUTO";
    "USE_CUDA=YES";
    "GPU_CACHE_SIZE=40";
    "INTERLEAVE=PIXEL" ].

(** Line 209: [max(1, min(cpu_count - 1, 8))] *)
Definition pool_size (cpu_count : Z) : Z :=
  Z.max 1 (Z.min (cpu_count - 1) 8).

(** Line 193: [ext.lower() in extensions] for [_, ext = os.path.splitext(file)] *)
Definition qualifies `{UnicodeLower} (extensions : list string) (file : string) : bool :=
  let ext := snd (os_path.splitext file) in
  list_contains (lower ext) extensions.

(** Line 226: [duration / max(1, total_files)] *)
Definition mean_duration (duration : float) (total_files : Z) : Outcome float :=
  float_truediv_int duration (Z.max 1 total_files).

Section Script.

Context {S : Type} `{UnicodeLower}.

(** The raster library, the operating system and the clock. *)
Variable host : Host S.

(** The module global [has_cuda] of line 20. *)
Variable has_cuda : bool.

(** The working directory of the process, which [os.path.relpath] reads and
    the script never changes. *)
Variable cwd : string.

(** Lines 22 to 45.  The bare [except:] catches whatever the body raises. *)
Definition check_gpu_support : M S bool :=
  try_except
    (cache_max <- call host gdal_GetCacheMax ;;
     let gpu_count := (cache_max / 1000000)%Z in
     n <- call host gdal_GetDriverCount ;;
     drivers <- map_each (fun i =>
                   drv <- call host (gdal_GetDriver i) ;;
                   d <- attr drv "ShortName" ;;
                   call host (Driver_ShortName d))
                 (range 0 n) ;;
     let cuda_capability := str_contains "CUDA" (str_join " " drivers) || has_cuda in
     if cuda_capability then
       print MsgGpuDetected ;; ret true
     else
       print MsgGpuNotDetected ;; ret false)
    (fun _ => print MsgGpuCheckError ;; ret false).

(** Lines 116 to 125: copy one band's pixels and its no-data value. *)
Definition copy_band (src_ds dst_ds : Dataset) (i : Z) : M S unit :=
  src_band <- call host (Dataset_GetRasterBand src_ds i) ;;
  dst_band <- call host (Dataset_GetRasterBand dst_ds i) ;;
  sb <- attr src_band "ReadAsArray" ;;
  data <- call host (Band_ReadAsArray sb) ;;
  db <- attr dst_band "WriteArray" ;;
  call host (Band_WriteArray db data) ;;
  nodata <- call host (Band_GetNoDataValue sb) ;;
  call host (Band_SetNoDataValue db (or_zero nodata)) ;;
  ret tt.

(** Lines 132 to 135: tag one band's overviews as JPEG at quality 90. *)
Definition tag_band (dst_ds : Dataset) (i : Z) : M S unit :=
  dst_band <- call host (Dataset_GetRasterBand dst_ds i) ;;
  db <- attr dst_band "SetMetadataItem" ;;
  call host (Band_SetMetadataItem db "COMPRESSION" "JPEG" "IMAGE_STRUCTURE") ;;
  call host (Band_SetMetadataItem db "JPEG_QUALITY" "90" "IMAGE_STRUCTURE") ;;
  ret tt.

(** Lines 60 to 144, the body of the [try]. *)
Definition compress_geotiff_body (input_file output_file : string) (use_gpu : bool)
  : M S bool :=
  start_time <- call host time_time ;;
  call host (gdal_SetConfigOption "GDAL_CACHEMAX" "2048") ;;
  src_ds <- call host (gdal_Open input_file) ;;
  match src_ds with
  | None => print (MsgCannotOpen input_file) ;; ret false
  | Some src =>
      width <- call host (Dataset_RasterXSize src) ;;
      height <- call host (Dataset_RasterYSize src) ;;
      bands <- call host (Dataset_RasterCount src) ;;
      band1 <- call host (Dataset_GetRasterBand src 1) ;;
      b1 <- attr band1 "DataType" ;;
      data_type <- call host (Band_DataType b1) ;;
      projection <- call host (Dataset_GetProjection src) ;;
      geo_transform <- call host (Dataset_GetGeoTransform src) ;;
      cpu_count <- call host multiprocessing_cpu_count ;;
      let options := base_options cpu_count in
      options <- (if use_gpu && has_cuda then
                    print MsgGpuAccel ;; ret (options ++ gpu_options)%list
                  else
                    print MsgCpuOnly ;; ret options) ;;
      driver <- call host (gdal_GetDriverByName "GTiff") ;;
      drv <- attr driver "Create" ;;
      dst_ds <- call host (Driver_Create drv output_file width height bands data_type options) ;;
      match dst_ds with
      | None => print (MsgCannotCreate output_file) ;; ret false
      | Some dst =>
          call host (Dataset_SetProjection dst projection) ;;
          call host (Dataset_SetGeoTransform dst geo_transform) ;;
          for_each (range 1 (bands + 1)) (copy_band src dst) ;;
          let overviews := [2; 4; 8; 16]%Z in
          call host (Dataset_BuildOverviews dst "NEAREST" overviews) ;;
          for_each (range 1 (bands + 1)) (tag_band dst) ;;
          end_time <- call host time_time ;;
          let duration := (end_time - start_time)%float in
          print (MsgSuccess output_file duration) ;;
          ret true
      end
  end.

(** Lines 47 to 148. *)
Definition compress_geotiff (input_file output_file : string) (use_gpu : bool)
  : M S bool :=
  try_except
    (compress_geotiff_body input_file output_file use_gpu)
    (fun e => print (MsgError (exn_str e)) ;; ret false).

(** Lines 150 to 161. *)
Definition process_file (args : WorkItem) : M S bool :=
  let '(input_path, output_path, use_gpu) := args in
  compress_geotiff input_path output_path use_gpu.

(** [pool.map(f, items)]: one call of [f] per item, the results in the order
    of the items.  The workers' calls are put one after the other, in the
    order of the items; how they overlap in time is outside this model. *)
Definition pool_map {A B} (f : A -> M S B) (items : list A) : M S (list B) :=
  map_each f items.

(** Lines 192 to 204, the body of the inner loop for one [file] of [root];
    the local variables are [total_files] and [files_to_process]. *)
Definition collect_file (input_dir output_dir : string) (extensions : list string)
    (use_gpu gpu_available : bool) (root : string)
    (vars : Z * list WorkItem) (file : string) : M S (Z * list WorkItem) :=
  let '(total_files, files_to_process) := vars in
  if qualifies extensions file then
    let total_files := (total_files + 1)%Z in
    let input_path := os_path.join root file in
    match os_path.relpath cwd input_path input_dir with
    | None => raise (Exception "ValueError" "no path specified")
    | Some rel_path =>
        let output_path := os_path.join output_dir rel_path in
        call host (os_makedirs (os_path.dirname output_path) true) ;;
        ret (total_files,
             (files_to_process ++ [(input_path, output_path, gpu_available && use_gpu)])%list)
    end
  else ret vars.

(** Lines 184 to 204: walk the input tree and collect the work items. *)
Definition collect_files (input_dir output_dir : string) (extensions : list string)
    (use_gpu gpu_available : bool) : M S (Z * list WorkItem) :=
  walk <- call host (os_walk input_dir) ;;
  for_fold walk (0%Z, [])
    (fun vars '(root, _, files) =>
       for_fold files vars
         (collect_file input_dir output_dir extensions use_gpu gpu_available root)).

(** Lines 217 to 220, the body of the sequential loop for one item;
    [successful_files] is its variable. *)
Definition sequential_step (successful_files : Z) (item : WorkItem) : M S Z :=
  let '(input_path, output_path, use_gpu_flag) := item in
  print (MsgProcessing input_path) ;;
  ok <- compress_geotiff input_path output_path use_gpu_flag ;;
  ret (if ok then (successful_files + 1)%Z else successful_files).

(** Lines 216 to 220: the sequential loop. *)
Definition run_sequential (files_to_process : list WorkItem) : M S Z :=
  for_fold files_to_process 0%Z sequential_step.

(** Lines 208 to 214: the worker pool. *)
Definition run_parallel (files_to_process : list WorkItem) : M S (list bool) :=
  cpu_count <- call host multiprocessing_cpu_count ;;
  let pool_size := pool_size cpu_count in
  print (MsgParallel pool_size) ;;
  call host (multiprocessing_Pool pool_size) ;;
  pool_map process_file files_to_process.

(** Lines 206 to 220: the value of [successful_files] after the dispatch. *)
Definition dispatch (parallel : bool) (total_files : Z)
    (files_to_process : list WorkItem) : M S Z :=
  if parallel && (1 <? total_files)%Z then
    results <- run_parallel files_to_process ;;
    ret (Z.of_nat (List.length (filter (fun r : bool => r) results)))
  else
    run_sequential files_to_process.

(** Lines 222 to 226. *)
Definition report (start_time : float) (successful_files total_files : Z) : M S unit :=
  end_time <- call host time_time ;;
  let duration := (end_time - start_time)%float in
  print (MsgDone successful_files total_files) ;;
  mean <- lift (mean_duration duration total_files) ;;
  print (MsgTiming duration mean).

(** Lines 177 to 181. *)
Definition probe (use_gpu : bool) : M S bool :=
  if use_gpu then check_gpu_support else ret false.

(** Lines 183 to 226: the batch once [gpu_available] is known. *)
Definition after_probe (input_dir output_dir : string) (extensions : list string)
    (use_gpu parallel gpu_available : bool) : M S unit :=
  start_time <- call host time_time ;;
  ' (total_files, files_to_process) <-
      collect_files input_dir output_dir extensions use_gpu gpu_available ;;
  successful_files <- dispatch parallel total_files files_to_process ;;
  report start_time successful_files total_files.

(** The events of the sequential loop over [items] from the state [s]: for
    each item in turn, its progress line and then the events of its
    conversion. *)
Fixpoint sequential_events (items : list WorkItem) (s : S) : list Event :=
  match items with
  | [] => []
  | (input_path, output_path, use_gpu_flag) :: rest =>
      let r := compress_geotiff input_path output_path use_gpu_flag s in
      (EPrint (MsgProcessing input_path) :: evs r ++ sequential_events rest (st r))%list
  end.

(** Lines 163 to 226. *)
Definition batch_compress (input_dir output_dir : string) (extensions : list string)
    (use_gpu parallel : bool) : M S unit :=
  output_exists <- call host (os_path_exists output_dir) ;;
  (if negb output_exists then call host (os_makedirs output_dir false) else ret tt) ;;
  gpu_available <- probe use_gpu ;;
  after_probe input_dir output_dir extensions use_gpu parallel gpu_available.

End Script.

(** The module is loaded, which sets [has_cuda], and then the batch runs;
    the parsing of the command line and the banner of [main] are left out. *)
Definition script {S} `{UnicodeLower} (host : Host S) (cwd : string)
    (input_dir output_dir : string) (extensions : list string)
    (use_gpu parallel : bool) : M S unit :=
  has_cuda <- module_has_cuda host ;;
  batch_compress host has_cuda cwd input_dir output_dir extensions use_gpu parallel.

(** ** What the console shows of a run *)

(** The lines with which a conversion ends: every path through
    [compress_geotiff] prints exactly one of them last. *)
Definition is_verdict (m : Msg) : bool :=
  match m with
  | MsgCannotOpen _ | MsgCannotCreate _ | MsgSuccess _ _ | MsgError _ => true
  | _ => false
  end.

Definition is_success (m : Msg) : bool :=
  match m with MsgSuccess _ _ => true | _ => false end.

(** The only line that carries an elapsed time of one conversion. *)
Definition reports_elapsed (e : Event) : bool :=
  match e with
  | EPrint (MsgSuccess _ _) => true
  | _ => false
  end.

(** The error lines of a failed conversion of [input_file] to [output_file]. *)
Definition error_detail (input_file output_file : string) (m : Msg) : Prop :=
  m = MsgCannotOpen input_file \/ m = MsgCannotCreate output_file \/ exists e, m = MsgError e.

(** The progress lines and the verdict lines of a run: [inl input_path] for
    "Traitement de ...", [inr ok] for the end of a conversion. *)
Definition mark_of (e : Event) : list (string + bool) :=
  match e with
  | EPrint (MsgProcessing p) => [inl p]
  | EPrint m => if is_verdict m then [inr (is_success m)] else []
  | ECall _ _ => []
  end.

Definition marks (es : list Event) : list (string + bool) := flat_map mark_of es.

(** The conversion outcomes a run produced, as the console shows them: one
    per verdict line, in the order they were printed. *)
Definition outcome_of_mark (m : string + bool) : list bool :=
  match m with
  | inr ok => [ok]
  | inl _ => []
  end.

Definition outcomes (es : list Event) : list bool := flat_map outcome_of_mark (marks es).

(** [sum(1 for r in results if r)] *)
Definition count_true (results : list bool) : Z :=
  Z.of_nat (List.length (filter (fun r : bool => r) results)).

(** The marks of a sequential run over [items] with the given results. *)
Definition sequential_marks (items : list WorkItem) (results : list bool)
  : list (string + bool) :=
  flat_map (fun '((input_path, _, _), ok) => [inl input_path; inr ok])
           (combine items results).

(** Some creation option of [options] is an acceleration option. *)
Definition accelerated (options : list string) : bool :=
  existsb (fun g => list_contains g options) gpu_options.

(** The creation options of a [Create] call. *)
Definition create_options (e : Event) : option (list string) :=
  match e with
  | @ECall _ c _ =>
      match c with
      | Driver_Create _ _ _ _ _ _ options => Some options
      | _ => None
      end
  | EPrint _ => None
  end.

(** A call or a line of the capability probe [check_gpu_support]. *)
Definition is_probe_event (e : Event) : bool :=
  match e with
  | EPrint MsgGpuDetected | EPrint MsgGpuNotDetected | EPrint MsgGpuCheckError => true
  | @ECall _ c _ =>
      match c with
      | gdal_GetCacheMax | gdal_GetDriverCount | gdal_GetDriver _ | Driver_ShortName _ => true
      | _ => false
      end
  | _ => false
  end.

(** A call to the raster library that belongs to a conversion, or a line that
    a conversion prints. *)
Definition is_conversion_event (e : Event) : bool :=
  match e with
  | EPrint m =>
      match m with
      | MsgCannotOpen _ | MsgGpuAccel | MsgCpuOnly | MsgCannotCreate _
      | MsgSuccess _ _ | MsgError _ => true
      | _ => false
      end
  | @ECall _ c _ =>
      match c with
      | gdal_SetConfigOption _ _ | gdal_Open _ | gdal_GetDriverByName _
      | Driver_Create _ _ _ _ _ _ _
      | Dataset_RasterXSize _ | Dataset_RasterYSize _ | Dataset_RasterCount _
      | Dataset_GetRasterBand _ _ | Dataset_GetProjection _ | Dataset_GetGeoTransform _
      | Dataset_SetProjection _ _ | Dataset_SetGeoTransform _ _
      | Dataset_BuildOverviews _ _ _
      | Band_DataType _ | Band_ReadAsArray _ | Band_WriteArray _ _
      | Band_GetNoDataValue _ | Band_SetNoDataValue _ _ | Band_SetMetadataItem _ _ _ _ => true
      | _ => false
      end
  end.

(** A worker pool is created. *)
Definition is_pool_event (e : Event) : bool :=
  match e with
  | @ECall _ c _ => match c with multiprocessing_Pool _ => true | _ => false end
  | EPrint (MsgParallel _) => true
  | _ => false
  end.

(** ** Two statements of the specification, to be compared with the code *)

(** A conversion that fails still reports its elapsed time. *)
Definition failure_reports_elapsed {S} (host : Host S) (has_cuda : bool)
    (input_file output_file : string) (use_gpu : bool) (s : S) : Prop :=
  let r := compress_geotiff host has_cuda input_file output_file use_gpu s in
  out r = Ret false -> existsb reports_elapsed (evs r) = true.

(** The [Create] calls of a conversion get the acceleration options if and
    only if the flag of the item and the answer of the probe are both
    true. *)
Definition accelerated_iff_probe {S} (host : Host S) (has_cuda : bool)
    (input_file output_file : string) (use_gpu probe_answer : bool) (s : S) : Prop :=
  Forall (fun e => forall options, create_options e = Some options ->
                     accelerated options = use_gpu && probe_answer)
         (evs (compress_geotiff host has_cuda input_file output_file use_gpu s)).

(** ** Assumptions on a host, where a property needs one *)

(** The worker pool can be set up: [cpu_count()] and [Pool(...)] answer. *)
Definition pool_available {S} (host : Host S) : Prop :=
  (forall s, exists n, fst (host _ multiprocessing_cpu_count s) = Ret n) /\
  (forall n s, fst (host _ (multiprocessing_Pool n) s) = Ret tt).

(** [os.makedirs(p, exist_ok=True)] answers. *)
Definition makedirs_available {S} (host : Host S) : Prop :=
  forall p s, fst (host _ (os_makedirs p true) s) = Ret tt.

(** A name as a directory listing gives it: not empty, not ['.'] or ['..'],
    and without a separator. *)
Definition plain_name (x : string) : bool :=
  negb (x =? "") && negb (x =? ".") && negb (x =? "..")
  && negb (str_contains "/" x).

(** ** A simulated host, for running the script on examples *)

Record SimCfg := {
  sim_cpus : Z;                       (* multiprocessing.cpu_count() *)
  sim_drivers : list string;          (* the ShortName of each registered driver *)
  sim_gtiff_options : string;         (* GTiff's DMD_CREATIONOPTIONLIST *)
  sim_walk : list (string * list string * list string);   (* what os.walk yields *)
  sim_unreadable : list string;       (* gdal.Open answers None *)
  sim_corrupt : list string;          (* gdal.Open raises *)
  sim_readonly : list string;         (* Create answers None *)
  sim_bands : Z                       (* RasterCount of every source *)
}.

(** The state of the simulated host is its clock, which [time.time()] reads
    and moves on by one second. *)
Definition sim_host (cfg : SimCfg) : Host float :=
  fun A (c : ext A) (s : float) =>
    match c in ext T return Outcome T * float with
    | time_time => (Ret s, (s + 1)%float)
    | multiprocessing_cpu_count => (Ret (sim_cpus cfg), s)
    | multiprocessing_Pool _ => (Ret tt, s)
    | os_path_exists _ => (Ret true, s)
    | os_makedirs _ _ => (Ret tt, s)
    | os_walk _ => (Ret (sim_walk cfg), s)
    | gdal_GetDriverByName _ => (Ret (Some (DriverRef 0)), s)
    | gdal_GetCacheMax => (Ret 41943040%Z, s)
    | gdal_GetDriverCount => (Ret (Z.of_nat (List.length (sim_drivers cfg))), s)
    | gdal_GetDriver i =>
        (Ret (if (0 <=? i)%Z && (i <? Z.of_nat (List.length (sim_drivers cfg)))%Z
              then Some (DriverRef i) else None), s)
    | gdal_SetConfigOption _ _ => (Ret tt, s)
    | gdal_Open p =>
        if list_contains p (sim_corrupt cfg) then
          (Raise (Exception "RuntimeError" (p ++ ": not recognized as a supported file format")), s)
        else if list_contains p (sim_unreadable cfg) then (Ret None, s)
        else (Ret (Some (DatasetRef 1)), s)
    | Driver_GetMetadataItem _ _ => (Ret (Some (sim_gtiff_options cfg)), s)
    | Driver_ShortName (DriverRef i) => (Ret (nth (Z.to_nat i) (sim_drivers cfg) ""), s)
    | Driver_Create _ p _ _ _ _ _ =>
        (Ret (if list_contains p (sim_readonly cfg) then None else Some (DatasetRef 2)), s)
    | Dataset_RasterXSize _ => (Ret 1024%Z, s)
    | Dataset_RasterYSize _ => (Ret 768%Z, s)
    | Dataset_RasterCount _ => (Ret (sim_bands cfg), s)
    | Dataset_GetRasterBand (DatasetRef d) i =>
        (Ret (if (1 <=? i)%Z && (i <=? sim_bands cfg)%Z
              then Some (BandRef (d * 100 + i)) else None), s)
    | Dataset_GetProjection _ => (Ret "EPSG:2154", s)
    | Dataset_GetGeoTransform _ => (Ret [0; 1; 0; 0; 0; (-1)]%float, s)
    | Dataset_SetProjection _ _ => (Ret 0%Z, s)
    | Dataset_SetGeoTransform _ _ => (Ret 0%Z, s)
    | Dataset_BuildOverviews _ _ _ => (Ret 0%Z, s)
    | Band_DataType _ => (Ret 1%Z, s)
    | Band_ReadAsArray (BandRef b) => (Ret (Some (ArrayRef b)), s)
    | Band_WriteArray _ _ => (Ret 0%Z, s)
    | Band_GetNoDataValue _ => (Ret None, s)
    | Band_SetNoDataValue _ _ => (Ret 0%Z, s)
    | Band_SetMetadataItem _ _ _ _ => (Ret 0%Z, s)
    end.

(** The tree of the specification's scenario, walked from ["in"]. *)
Definition scenario_walk : list (string * list string * list string) :=
  [ ("in", ["a"; "c"], []);
    ("in/a", ["b"], ["img1.tif"]);
    ("in/a/b", [], ["img2.tiff"]);
    ("in/c", [], ["notes.txt"]) ].

Definition scenario : SimCfg :=
  {| sim_cpus := 4;
     sim_drivers := ["GTiff"; "PNG"; "JPEG"];
     sim_gtiff_options := "<CreationOptionList><Option name='COMPRESS'/></CreationOptionList>";
     sim_walk := scenario_walk;
     sim_unreadable := [];
     sim_corrupt := [];
     sim_readonly := [];
     sim_bands := 3 |}.

(** The same tree with a first image that the library cannot decode. *)
Definition scenario_corrupt : SimCfg :=
  {| sim_cpus := 4;
     sim_drivers := ["GTiff"; "PNG"; "JPEG"];
     sim_gtiff_options := "<CreationOptionList><Option name='COMPRESS'/></CreationOptionList>";
     sim_walk := scenario_walk;
     sim_unreadable := [];
     sim_corrupt := ["in/a/img1.tif"];
     sim_readonly := [];
     sim_bands := 3 |}.

(** A library that registers a driver whose name mentions CUDA, while the
    creation options of GTiff do not. *)
Definition scenario_cuda_driver : SimCfg :=
  {| sim_cpus := 4;
     sim_drivers := ["GTiff"; "CUDA_RAW"];
     sim_gtiff_options := "<CreationOptionList><Option name='COMPRESS'/></CreationOptionList>";
     sim_walk := scenario_walk;
     sim_unreadable := [];
     sim_corrupt := [];
     sim_readonly := [];
     sim_bands := 3 |}.

(** ** A program logic for runs *)

(** [sat m P Q]: every event of every run of [m] satisfies [P], and every
    value that [m] returns satisfies [Q]. *)
Definition sat {S A} (m : M S A) (P : Event -> Prop) (Q : A -> Prop) : Prop :=
  forall s, Forall P (evs (m s)) /\ (forall a, out (m s) = Ret a -> Q a).

(** [always P m]: every event of every run of [m] satisfies [P]. *)
Definition always {S A} (P : Event -> Prop) (m : M S A) : Prop :=
  sat m P (fun _ => True).

(** An event that is neither a progress line nor a verdict line. *)
Definition silent (e : Event) : Prop := mark_of e = [].

(** [ends_in_verdict V m]: a run of [m] that returns [b] has printed one
    verdict line [v], last, with [V b v]; a run that raises has printed
    none. *)
Definition ends_in_verdict {S} (V : bool -> Msg -> Prop) (m : M S bool) : Prop :=
  forall s,
    match out (m s) with
    | Ret b => exists pre v,
        evs (m s) = (pre ++ [EPrint v])%list /\ Forall silent pre /\
        is_verdict v = true /\ is_success v = b /\ V b v
    | Raise _ => Forall silent (evs (m s))
    end.

(** What the last line of a conversion says, by its result. *)
Definition verdict_for (input_file output_file : string) (b : bool) (v : Msg) : Prop :=
  if b then exists duration, v = MsgSuccess output_file duration
  else error_detail input_file output_file v.

(** The creation options a conversion passes to [Create] when its flag is
    [use_gpu] and the module global is [has_cuda]. *)
Definition creation_options (cpu_count : Z) (use_gpu has_cuda : bool) : list string :=
  (base_options cpu_count ++ (if use_gpu && has_cuda then gpu_options else []))%list.

(** An event that is not a [Create] call, or is one whose options are those
    of [creation_options]. *)
Definition creates_with (use_gpu has_cuda : bool) (e : Event) : Prop :=
  forall options, create_options e = Some options ->
    exists cpu_count,
      options = creation_options cpu_count use_gpu has_cuda /\
      accelerated options = use_gpu && has_cuda /\
      In "JPEG_QUALITY=90" options.

(** An event that is not a [Create] call, or is one without any acceleration
    option. *)
Definition creates_on_cpu (e : Event) : Prop :=
  forall options, create_options e = Some options -> accelerated options = false.

(** Whether some [Create] call of a run got an acceleration option. *)
Definition some_accelerated_create (es : list Event) : bool :=
  existsb (fun e => match create_options e with
                    | Some options => accelerated options
                    | None => false
                    end) es.

(** Whether a run made a [Create] call. *)
Definition some_create (es : list Event) : bool :=
  existsb (fun e => match create_options e with Some _ => true | None => false end) es.

(** ** The input tree and its mirror *)

(** A string without a separator, and a component as [split] and
    [normpath] leave it: not empty, without a separator. *)
Definition sep_free (x : string) : Prop := str_contains "/" x = false.

Definition clean (x : string) : Prop := x <> "" /\ sep_free x.

(** A directory of the input tree: the names that lead to it from the input
    root, the names of its sub-directories and the names of its files. *)
Definition Listing : Type := list (list string * list string * list string).

(** What [os.walk(input_dir)] yields for a directory: its path is the input
    root joined with the names that lead to it, one [join] per level. *)
Definition walk_entry (input_dir : string)
    (d : list string * list string * list string) : string * list string * list string :=
  let '(ds, dirs, files) := d in (os_path.join_all input_dir ds, dirs, files).

(** All names of a listing are plain. *)
Definition plain_listing (listing : Listing) : bool :=
  forallb (fun '(ds, _, files) => forallb plain_name ds && forallb plain_name files)
          listing.

(** The work item of the file [f] in the directory reached by [ds]: the
    destination is the output root, then the same directories, then the same
    file name. *)
Definition mirror_item (input_dir output_dir : string) (flag : bool)
    (ds : list string) (f : string) : WorkItem :=
  (os_path.join (os_path.join_all input_dir ds) f,
   os_path.join output_dir (str_join "/" (ds ++ [f])%list),
   flag).

Definition mirrored_items `{UnicodeLower} (input_dir output_dir : string) (extensions : list string)
    (flag : bool) (listing : Listing) : list WorkItem :=
  flat_map (fun '(ds, _, files) =>
              map (mirror_item input_dir output_dir flag ds)
                  (filter (qualifies extensions) files))
           listing.

(** The call that creates the parent directory of an item's destination. *)
Definition makedirs_event (item : WorkItem) : Event :=
  ECall (os_makedirs (os_path.dirname (snd (fst item))) true) (Ret tt).

(** The tree of the scenario, as a listing below ["in"]. *)
Definition scenario_listing : Listing :=
  [ ([], ["a"; "c"], []);
    (["a"], ["b"], ["img1.tif"]);
    (["a"; "b"], [], ["img2.tiff"]);
    (["c"], [], ["notes.txt"]) ].

(** The reading of the specification: the extension of [file] is a member of
    [extensions] up to the case of letters, on either side. *)
Definition qualifies_ignoring_case `{UnicodeLower} (extensions : list string) (file : string) : bool :=
  let ext := snd (os_path.splitext file) in
  existsb (fun entry => lower entry =? lower ext) extensions.

(** ** More of what a run shows *)

(** The number of processes of a [Pool(...)] call. *)
Definition pool_processes (e : Event) : option Z :=
  match e with
  | @ECall _ c _ => match c with multiprocessing_Pool n => Some n | _ => None end
  | EPrint _ => None
  end.

(** The path of a [gdal.Open] call, and the path of a [Create] call. *)
Definition open_path (e : Event) : option string :=
  match e with
  | @ECall _ c _ => match c with gdal_Open p => Some p | _ => None end
  | EPrint _ => None
  end.

Definition create_path (e : Event) : option string :=
  match e with
  | @ECall _ c _ => match c with Driver_Create _ p _ _ _ _ _ => Some p | _ => None end
  | EPrint _ => None
  end.

(** The tally of a line "Compression terminée: k/n ...". *)
Definition done_tally (e : Event) : option (Z * Z) :=
  match e with
  | EPrint (MsgDone k n) => Some (k, n)
  | _ => None
  end.

(** The tallies that a run printed, in order. *)
Definition tallies (es : list Event) : list (Z * Z) :=
  flat_map (fun e => match done_tally e with Some t => [t] | None => [] end) es.

(** A [gdal.Open] call that answered a dataset. *)
Definition opened_dataset (e : Event) : bool :=
  match e with
  | @ECall _ c r =>
      match c in ext T return Outcome T -> bool with
      | gdal_Open _ => fun r => match r with Ret (Some _) => true | _ => false end
      | _ => fun _ => false
      end r
  | EPrint _ => false
  end.

(** ** The events of the steps that succeed *)

(** One band copied (lines 117 to 125): the array that was read is the array
    written, and the no-data value set is the one read, or 0. *)
Definition copy_band_trace (src_ds dst_ds : Dataset) (i : Z) (src_band dst_band : Band)
    (data : option Array) (nodata : option float) (err1 err2 : Z) : list Event :=
  [ ECall (Dataset_GetRasterBand src_ds i) (Ret (Some src_band));
    ECall (Dataset_GetRasterBand dst_ds i) (Ret (Some dst_band));
    ECall (Band_ReadAsArray src_band) (Ret data);
    ECall (Band_WriteArray dst_band data) (Ret err1);
    ECall (Band_GetNoDataValue src_band) (Ret nodata);
    ECall (Band_SetNoDataValue dst_band (or_zero nodata)) (Ret err2) ].

Definition is_copy_band_trace (src_ds dst_ds : Dataset) (i : Z) (es : list Event) : Prop :=
  exists src_band dst_band data nodata err1 err2,
    es = copy_band_trace src_ds dst_ds i src_band dst_band data nodata err1 err2.

(** One band tagged (lines 133 to 135). *)
Definition tag_band_trace (dst_ds : Dataset) (i : Z) (dst_band : Band) (err1 err2 : Z)
  : list Event :=
  [ ECall (Dataset_GetRasterBand dst_ds i) (Ret (Some dst_band));
    ECall (Band_SetMetadataItem dst_band "COMPRESSION" "JPEG" "IMAGE_STRUCTURE") (Ret err1);
    ECall (Band_SetMetadataItem dst_band "JPEG_QUALITY" "90" "IMAGE_STRUCTURE") (Ret err2) ].

Definition is_tag_band_trace (dst_ds : Dataset) (i : Z) (es : list Event) : Prop :=
  exists dst_band err1 err2, es = tag_band_trace dst_ds i dst_band err1 err2.

(** What the source answered about itself (lines 72 to 77). *)
Record SourceInfo := {
  src_width : Z;
  src_height : Z;
  src_bands : Z;
  src_band1 : Band;
  src_data_type : Z;
  src_projection : string;
  src_geo_transform : list float
}.

(** The events of a conversion up to the creation of the destination. *)
Definition conversion_head (has_cuda : bool) (input_file output_file : string)
    (use_gpu : bool) (start_time : float) (src dst : Dataset) (info : SourceInfo)
    (cpu_count : Z) (drv : Driver) (err1 err2 : Z) : list Event :=
  [ ECall time_time (Ret start_time);
    ECall (gdal_SetConfigOption "GDAL_CACHEMAX" "2048") (Ret tt);
    ECall (gdal_Open input_file) (Ret (Some src));
    ECall (Dataset_RasterXSize src) (Ret (src_width info));
    ECall (Dataset_RasterYSize src) (Ret (src_height info));
    ECall (Dataset_RasterCount src) (Ret (src_bands info));
    ECall (Dataset_GetRasterBand src 1) (Ret (Some (src_band1 info)));
    ECall (Band_DataType (src_band1 info)) (Ret (src_data_type info));
    ECall (Dataset_GetProjection src) (Ret (src_projection info));
    ECall (Dataset_GetGeoTransform src) (Ret (src_geo_transform info));
    ECall multiprocessing_cpu_count (Ret cpu_count);
    EPrint (if use_gpu && has_cuda then MsgGpuAccel else MsgCpuOnly);
    ECall (gdal_GetDriverByName "GTiff") (Ret (Some drv));
    ECall (Driver_Create drv output_file (src_width info) (src_height info)
             (src_bands info) (src_data_type info)
             (creation_options cpu_count use_gpu has_cuda))
          (Ret (Some dst));
    ECall (Dataset_SetProjection dst (src_projection info)) (Ret err1);
    ECall (Dataset_SetGeoTransform dst (src_geo_transform info)) (Ret err2) ].

(** The events of a conversion that succeeds. *)
Definition conversion_trace (has_cuda : bool) (input_file output_file : string)
    (use_gpu : bool) (start_time end_time : float) (src dst : Dataset) (info : SourceInfo)
    (cpu_count : Z) (drv : Driver) (err1 err2 err3 : Z)
    (copies tags : list (list Event)) : list Event :=
  (conversion_head has_cuda input_file output_file use_gpu start_time src dst info
     cpu_count drv err1 err2
   ++ List.concat copies
   ++ [ECall (Dataset_BuildOverviews dst "NEAREST" [2; 4; 8; 16]%Z) (Ret err3)]
   ++ List.concat tags
   ++ [ECall time_time (Ret end_time);
       EPrint (MsgSuccess output_file (end_time - start_time)%float)])%list.

(** A call, as opposed to a printed line. *)
Definition is_call_event (e : Event) : bool :=
  match e with
  | ECall _ _ => true
  | EPrint _ => false
  end.

(** [ends_in_line L m]: a run of [m] that returns [a] has made calls and then
    printed one line [v], last, with [L a v]; a run that raises has printed
    nothing. *)
Definition ends_in_line {S A} (L : A -> Msg -> Prop) (m : M S A) : Prop :=
  forall s,
    match out (m s) with
    | Ret a => exists pre v,
        evs (m s) = (pre ++ [EPrint v])%list /\
        Forall (fun e => is_call_event e = true) pre /\ L a v
    | Raise _ => Forall (fun e => is_call_event e = true) (evs (m s))
    end.

(** [guarded before after seen es]: every event of [es] that is an [after]
    comes later than some event that is a [before], or [seen] says that one
    has already happened. *)
Fixpoint guarded (before after : Event -> bool) (seen : bool) (es : list Event) : bool :=
  match es with
  | [] => true
  | e :: es' =>
      (negb (after e) || seen) && guarded before after (seen || before e) es'
  end.

(** A [Create] call. *)
Definition is_create (e : Event) : bool :=
  match create_options e with Some _ => true | None => false end.

(** The host answers everything that the batch asks of the operating
    system, and the walk of [input_dir] yields the directories of
    [listing]. *)
Definition infrastructure_available {S} (host : Host S) (input_dir : string)
    (listing : Listing) : Prop :=
  (forall p s, exists b, fst (host _ (os_path_exists p) s) = Ret b) /\
  (forall p ok s, fst (host _ (os_makedirs p ok) s) = Ret tt) /\
  (forall s, exists t, fst (host _ time_time s) = Ret t) /\
  (forall s, fst (host _ (os_walk input_dir) s) = Ret (map (walk_entry input_dir) listing)) /\
  pool_available host.

(** The qualifying files of a listing. *)
Definition qualifying_files `{UnicodeLower} (extensions : list string) (listing : Listing) : list string :=
  flat_map (fun '(_, _, files) => filter (qualifies extensions) files) listing.

(** An event that opens no path outside [inputs] and creates no path outside
    [outputs]. *)
Definition touches_only (inputs outputs : list string) (e : Event) : Prop :=
  (forall p, open_path e = Some p -> In p inputs) /\
  (forall p, create_path e = Some p -> In p outputs).

Definition item_input (item : WorkItem) : string := fst (fst item).
Definition item_output (item : WorkItem) : string := snd (fst item).

(** A pool of between one and eight processes, if the event creates one. *)
Definition pool_within_bounds (e : Event) : Prop :=
  forall n, pool_processes e = Some n -> (1 <= n <= 8)%Z.

(** A tally line whose count of successes lies between zero and the total. *)
Definition tally_consistent (e : Event) : Prop :=
  forall k n, done_tally e = Some (k, n) -> (0 <= k <= n)%Z.

(** A call that raised, or a [gdal.GetDriver] that answered [None], on
    which [.ShortName] raises. *)
Definition probe_call_failed (e : Event) : bool :=
  match e with
  | @ECall _ c r =>
      match c in ext T return Outcome T -> bool with
      | gdal_GetDriver _ =>
          fun r => match r with Ret (Some _) => false | _ => true end
      | _ => fun r => match r with Ret _ => false | Raise _ => true end
      end r
  | EPrint _ => false
  end.

(** Line 34 for one index: the driver is fetched and its short name read. *)
Definition driver_reads (entry : Z * (Driver * string)) : list Event :=
  let '(i, (d, name)) := entry in
  [ ECall (gdal_GetDriver i) (Ret (Some d)); ECall (Driver_ShortName d) (Ret name) ].

(** The calls of a probe that met no error (lines 31 and 34): the cache
    size, the number of drivers, and the reads of every driver from 0 to
    that number, in order. *)
Definition probe_calls (cache_max n : Z) (drivers : list (Driver * string)) : list Event :=
  (ECall gdal_GetCacheMax (Ret cache_max)
   :: ECall gdal_GetDriverCount (Ret n)
   :: List.concat (map driver_reads (combine (range 0 n) drivers)))%list.

(** What the probe says by its last line [v], after the calls [pre], and
    what it returns with it.  Detected or not detected: every call
    answered, the calls are those of [probe_calls], and the answer is
    whether CUDA occurs in the names read, joined with spaces, or
    [has_cuda] holds.  The error line: the last call raised, or was a
    [GetDriver] that answered [None], and the answer is [False]. *)
Definition probe_verdict (has_cuda : bool) (pre : list Event) (g : bool) (v : Msg)
  : Prop :=
  match v with
  | MsgGpuDetected | MsgGpuNotDetected =>
      exists cache_max n drivers,
        List.length drivers = List.length (range 0 n) /\
        pre = probe_calls cache_max n drivers /\
        g = str_contains "CUDA" (str_join " " (map snd drivers)) || has_cuda /\
        v = (if g then MsgGpuDetected else MsgGpuNotDetected)
  | MsgGpuCheckError =>
      g = false /\
      exists pre' e, pre = (pre' ++ [e])%list /\ probe_call_failed e = true
  | _ => False
  end.

(** [raises_on_failure m]: a run of [m] that raises ends with a call that
    failed. *)
Definition raises_on_failure {S A} (m : M S A) : Prop :=
  forall s x, out (m s) = Raise x ->
    exists pre e, evs (m s) = (pre ++ [e])%list /\ probe_call_failed e = true.

(** The simulated host with a GTiff driver that has no
    [DMD_CREATIONOPTIONLIST] item. *)
Definition sim_host_without_metadata (cfg : SimCfg) : Host float :=
  fun A (c : ext A) (s : float) =>
    match c in ext T return Outcome T * float -> Outcome T * float with
    | Driver_GetMetadataItem _ _ => fun _ => (Ret None, s)
    | _ => fun answer => answer
    end (sim_host cfg A c s).

(** The simulated host with bands whose no-data value is [nodata]. *)
Definition sim_host_with_nodata (nodata : option float) (cfg : SimCfg) : Host float :=
  fun A (c : ext A) (s : float) =>
    match c in ext T return Outcome T * float -> Outcome T * float with
    | Band_GetNoDataValue _ => fun _ => (Ret nodata, s)
    | _ => fun answer => answer
    end (sim_host cfg A c s).

(** The script's name for the exception that line 20 raises, by what
    [GetDriverByName('GTiff')] answered. *)
Definition module_load_error (driver : option Driver) : exn :=
  match driver with
  | Some _ => Exception "TypeError" "argument of type 'NoneType' is not iterable"
  | None => Exception "AttributeError"
              "'NoneType' object has no attribute 'GetMetadataItem'"
  end.

(** [runs m s a s' es]: from the state [s], [m] returns [a], leaves the state
    [s'] and the events [es]. *)
Definition runs {S A} (m : M S A) (s : S) (a : A) (s' : S) (es : list Event) : Prop :=
  m s = mkRes (Ret a) s' es.

(** ** The entry point (lines 228 to 264) *)

(** What [parser.parse_args()] returns. *)
Record Args := {
  args_input_dir : string;
  args_output_dir : string;
  args_extensions : list string;     (* default ['.tif', '.tiff'] *)
  args_gpu : bool;                   (* --gpu *)
  args_no_parallel : bool            (* --no-parallel *)
}.

(** The lines that only [main] prints. *)
Inductive MainMsg :=
| MsgNotADirectory (input_dir : string)    (* "Erreur: {input_dir} n'est pas un répertoire valide." *)
| MsgOutputCreated (output_dir : string)   (* "Répertoire de sortie créé: {output_dir}" *)
| MsgInputBanner (input_dir : string)      (* "Traitement des images du dossier: {input_dir}" *)
| MsgOutputBanner (output_dir : string)    (* "Sauvegarde des images compressées dans: {output_dir}" *)
| MsgExtensionsBanner (joined : string)    (* "Extensions de fichiers traitées: {', '.join(args.extensions)}" *)
| MsgGpuBanner (use_gpu : bool)            (* "Utilisation du GPU: {'Activée' if use_gpu else 'Désactivée'}" *)
| MsgParallelBanner (parallel : bool).     (* "Traitement parallèle: {'Activé' if parallel else 'Désactivé'}" *)

(** What a run of [main] shows: the [os.path.isdir] question, the lines of
    [main], and the events of the code that it calls. *)
Inductive MainEvent :=
| MIsdir (p : string) (r : Outcome bool)
| MPrint (m : MainMsg)
| MScript (e : Event).

Record MainRes (S : Type) := mkMainRes {
  main_out : Outcome unit;
  main_st : S;
  main_evs : list MainEvent
}.
Arguments mkMainRes {S} main_out main_st main_evs.
Arguments main_out {S} m.
Arguments main_st {S} m.
Arguments main_evs {S} m.

(** Lines 257 to 261. *)
Definition banner (input_dir output_dir : string) (extensions : list string)
    (use_gpu parallel : bool) : list MainEvent :=
  [ MPrint (MsgInputBanner input_dir);
    MPrint (MsgOutputBanner output_dir);
    MPrint (MsgExtensionsBanner (str_join ", " extensions));
    MPrint (MsgGpuBanner use_gpu);
    MPrint (MsgParallelBanner parallel) ].

(** Lines 253 to 255. *)
Definition ensure_output_dir {S} (host : Host S) (output_dir : string) : M S bool :=
  output_exists <- call host (os_path_exists output_dir) ;;
  (if negb output_exists then call host (os_makedirs output_dir true) else ret tt) ;;
  ret (negb output_exists).

(** Lines 243 to 264, after the command line is parsed. *)
Definition main {S} `{UnicodeLower} (host : Host S) (isdir : string -> S -> Outcome bool * S)
    (has_cuda : bool) (cwd : string) (args : Args) (s : S) : MainRes S :=
  let input_dir := args_input_dir args in
  let output_dir := args_output_dir args in
  let use_gpu := args_gpu args in
  let parallel := negb (args_no_parallel args) in
  let (valid, s1) := isdir input_dir s in
  match valid with
  | Raise e => mkMainRes (Raise e) s1 [MIsdir input_dir valid]
  | Ret false =>
      mkMainRes (Ret tt) s1 [MIsdir input_dir valid; MPrint (MsgNotADirectory input_dir)]
  | Ret true =>
      let r1 := ensure_output_dir host output_dir s1 in
      match out r1 with
      | Raise e => mkMainRes (Raise e) (st r1) (MIsdir input_dir valid :: map MScript (evs r1))
      | Ret created =>
          let r2 := batch_compress host has_cuda cwd input_dir output_dir
                      (args_extensions args) use_gpu parallel (st r1) in
          mkMainRes (out r2) (st r2)
            (MIsdir input_dir valid :: map MScript (evs r1)
             ++ (if created then [MPrint (MsgOutputCreated output_dir)] else [])
             ++ banner input_dir output_dir (args_extensions args) use_gpu parallel
             ++ map MScript (evs r2))%list
      end
  end.

(** The calls and lines of the script among the events of [main]. *)
Definition script_events (es : list MainEvent) : list Event :=
  flat_map (fun e => match e with MScript e' => [e'] | _ => [] end) es.

(** An [os.path.isdir] that answers from a list of directories. *)
Definition isdir_among {S} (dirs : list string) (p : string) (s : S) : Outcome bool * S :=
  (Ret (list_contains p dirs), s).

(** The simulated host with a library whose [GetCacheMax] raises. *)
Definition sim_host_probe_error (cfg : SimCfg) : Host float :=
  fun A (c : ext A) (s : float) =>
    match c in ext T return Outcome T * float -> Outcome T * float with
    | gdal_GetCacheMax =>
        fun _ => (Raise (Exception "RuntimeError" "GDAL is not initialised"), s)
    | _ => fun answer => answer
    end (sim_host cfg A c s).

(** Why the conversion of [input_file] to [output_file] from the state [s]
    failed, by its last line [v] and the events [pre] before it: the line
    names the input file, and the last call is a [gdal.Open] of it that
    answered [None]; or the line names the output file, and the last call
    is a [Create] of it that answered [None]; or the body of the [try]
    raised an exception, [pre] is what the body did until then, and the
    line carries the text of that exception. *)
Definition failure_cause {S} (host : Host S) (has_cuda : bool)
    (input_file output_file : string) (use_gpu : bool) (s : S)
    (pre : list Event) (v : Msg) : Prop :=
  let body := compress_geotiff_body host has_cuda input_file output_file use_gpu s in
  (v = MsgCannotOpen input_file /\ out body = Ret false /\
   exists pre', pre = (pre' ++ [ECall (gdal_Open input_file) (Ret None)])%list) \/
  (v = MsgCannotCreate output_file /\ out body = Ret false /\
   exists pre' drv width height bands data_type options,
     pre = (pre' ++ [ECall (Driver_Create drv output_file width height bands data_type
                              options) (Ret None)])%list) \/
  (exists x, out body = Raise x /\ pre = evs body /\ v = MsgError (exn_str x)).

(** ** The stages of a batch *)

(** Lines 174 and 175 went through from the state [s]: the output
    directory existed ([output_exists]), or it did not and
    [os.makedirs(output_dir)] returned; [s2] is the state they leave. *)
Definition output_root_ready {S} (host : Host S) (output_dir : string) (s : S)
    (output_exists : bool) (s2 : S) : Prop :=
  exists s1,
    host _ (os_path_exists output_dir) s = (Ret output_exists, s1) /\
    if output_exists then s2 = s1
    else host _ (os_makedirs output_dir false) s1 = (Ret tt, s2).

(** The events of lines 174 and 175 when they go through. *)
Definition root_events (output_dir : string) (output_exists : bool) : list Event :=
  ECall (os_path_exists output_dir) (Ret output_exists)
  :: (if output_exists then [] else [ECall (os_makedirs output_dir false) (Ret tt)]).

(** A directory that holds the one file [IMG.TIF]. *)
Definition scenario_upper_case : SimCfg :=
  {| sim_cpus := 4;
     sim_drivers := ["GTiff"; "PNG"; "JPEG"];
     sim_gtiff_options := "<CreationOptionList><Option name='COMPRESS'/></CreationOptionList>";
     sim_walk := [("in", [], ["IMG.TIF"])];
     sim_unreadable := [];
     sim_corrupt := [];
     sim_readonly := [];
     sim_bands := 3 |}.

(** ** The lowering of the examples *)

(** The examples run on ASCII names, where [lower] does not consult the
    Unicode tables; they are given the tables that change nothing. *)
#[global] Instance no_unicode_tables : UnicodeLower := fun s => s.

(** * Properties *)

(** ** The string and path functions on examples *)

Example join_ex1 : os_path.join "in" "a.tif" = "in/a.tif".
Proof. reflexivity. Qed.
Example join_ex2 : os_path.join "in/" "a.tif" = "in/a.tif".
Proof. reflexivity. Qed.
Example join_ex3 : os_path.join "in" "/a.tif" = "/a.tif".
Proof. reflexivity. Qed.
Example normpath_ex1 : os_path.normpath "/a//b/./c/../d/" = "/a/b/d".
Proof. reflexivity. Qed.
Example normpath_ex2 : os_path.normpath "//a/../.." = "//".
Proof. reflexivity. Qed.
Example normpath_ex3 : os_path.normpath "a/../../b" = "../b".
Proof. reflexivity. Qed.
Example relpath_ex1 : os_path.relpath "/home/u" "in/a/b/img2.tiff" "in" = Some "a/b/img2.tiff".
Proof. reflexivity. Qed.
Example relpath_ex2 : os_path.relpath "/home/u" "/x/y" "/x/z/w" = Some "../../y".
Proof. reflexivity. Qed.
Example relpath_ex3 : os_path.relpath "/home/u" "in" "in" = Some ".".
Proof. reflexivity. Qed.
Example dirname_ex1 : os_path.dirname "out/a/b/img2.tiff" = "out/a/b".
Proof. reflexivity. Qed.
Example dirname_ex2 : os_path.dirname "/img.tif" = "/".
Proof. reflexivity. Qed.
Example dirname_ex3 : os_path.dirname "img.tif" = "".
Proof. reflexivity. Qed.
Example dirname_ex4 : os_path.dirname "a//b" = "a".
Proof. reflexivity. Qed.
Example splitext_ex1 : os_path.splitext "IMG.TIF" = ("IMG", ".TIF").
Proof. reflexivity. Qed.
Example splitext_ex2 : os_path.splitext ".bashrc" = (".bashrc", "").
Proof. reflexivity. Qed.
Example splitext_ex3 : os_path.splitext "a.b/c" = ("a.b/c", "").
Proof. reflexivity. Qed.
Example splitext_ex4 : os_path.splitext "archive.tar.gz" = ("archive.tar", ".gz").
Proof. reflexivity. Qed.
Example splitext_ex5 : os_path.splitext "..x.tif" = ("..x", ".tif").
Proof. reflexivity. Qed.
Example lower_ex : forall tables : Py.UnicodeLower, Py.lower ".TiF" = ".tif".
Proof. reflexivity. Qed.
Example str_of_int_ex : Py.str_of_int 16 = "16" /\ Py.str_of_int 0 = "0" /\ Py.str_of_int (-3) = "-3".
Proof. repeat split; reflexivity. Qed.
Example contains_ex : Py.str_contains "CUDA" "GTiff CUDA_JP2" = true /\ Py.str_contains "CUDA" "GTiff cuda" = false.
Proof. split; reflexivity. Qed.


(** ** The script on the simulated host *)

Example scenario_items :
  out (collect_files (sim_host scenario) "/home/u" "in" "out" [".tif"; ".tiff"] false false 0%float)
  = Ret (2%Z, [ ("in/a/img1.tif", "out/a/img1.tif", false);
                ("in/a/b/img2.tiff", "out/a/b/img2.tiff", false) ]).
Proof. vm_compute. reflexivity. Qed.

Example scenario_marks :
  marks (evs (script (sim_host scenario_corrupt) "/home/u" "in" "out" [".tif"; ".tiff"] false false 0%float))
  = [inl "in/a/img1.tif"; inr false; inl "in/a/b/img2.tiff"; inr true].
Proof. vm_compute. reflexivity. Qed.

(** ** Runs of the combinators *)

Section RunFacts.

Context {S : Type}.

Lemma bind_run_ret {A B} (m : M S A) (k : A -> M S B) s a :
  out (m s) = Ret a ->
  bind m k s = mkRes (out (k a (st (m s)))) (st (k a (st (m s))))
                     (evs (m s) ++ evs (k a (st (m s)))).
Proof. intros H. unfold bind. rewrite H. reflexivity. Qed.

Lemma bind_run_raise {A B} (m : M S A) (k : A -> M S B) s e :
  out (m s) = Raise e ->
  bind m k s = mkRes (Raise e) (st (m s)) (evs (m s)).
Proof. intros H. unfold bind. rewrite H. reflexivity. Qed.

Lemma call_run {A} (host : Host S) (c : ext A) s :
  call host c s = mkRes (fst (host A c s)) (snd (host A c s))
                        [ECall c (fst (host A c s))].
Proof. unfold call. destruct (host A c s). reflexivity. Qed.

(** A [try] statement whose handler returns never raises. *)
Lemma try_except_returns {A} (body : M S A) (handler : exn -> M S A) :
  (forall e s, exists a, out (handler e s) = Ret a) ->
  forall s, exists a, out (try_except body handler s) = Ret a.
Proof.
  intros Hh s. unfold try_except.
  destruct (out (body s)) as [a | e] eqn:E.
  - exists a. exact E.
  - destruct (Hh e (st (body s))) as [a Ha]. exists a. exact Ha.
Qed.

(** *** The rules of the program logic *)

Lemma sat_ret {A} (a : A) (P : Event -> Prop) (Q : A -> Prop) :
  Q a -> sat (ret (S:=S) a) P Q.
Proof.
  intros H s. split; [constructor |].
  intros a' E. injection E as <-. exact H.
Qed.

Lemma sat_raise {A} (e : exn) (P : Event -> Prop) (Q : A -> Prop) :
  sat (raise (S:=S) e) P Q.
Proof. intros s. split; [constructor | discriminate]. Qed.

Lemma sat_lift {A} (o : Outcome A) (P : Event -> Prop) (Q : A -> Prop) :
  (forall a, o = Ret a -> Q a) -> sat (lift (S:=S) o) P Q.
Proof. intros H s. split; [constructor | exact H]. Qed.

Lemma sat_print (m : Msg) (P : Event -> Prop) (Q : unit -> Prop) :
  P (EPrint m) -> Q tt -> sat (print (S:=S) m) P Q.
Proof.
  intros H HQ s. split; [repeat constructor; exact H |].
  intros [] _. exact HQ.
Qed.

Lemma sat_call {A} (host : Host S) (c : ext A) (P : Event -> Prop) :
  (forall r, P (ECall c r)) -> sat (call host c) P (fun _ => True).
Proof.
  intros H s. rewrite call_run. split; [repeat constructor; apply H | trivial].
Qed.

Lemma sat_bind {A B} (m : M S A) (k : A -> M S B) P (Q : A -> Prop) (R : B -> Prop) :
  sat m P Q -> (forall a, Q a -> sat (k a) P R) -> sat (bind m k) P R.
Proof.
  intros Hm Hk s. destruct (Hm s) as [Hev Hq].
  destruct (out (m s)) as [a | e] eqn:E.
  - rewrite (bind_run_ret _ _ _ _ E). cbn.
    destruct (Hk a (Hq a eq_refl) (st (m s))) as [Hev' Hr].
    split; [apply Forall_app; split; assumption | exact Hr].
  - rewrite (bind_run_raise _ _ _ _ E). cbn.
    split; [exact Hev | discriminate].
Qed.

Lemma sat_weaken {A} (m : M S A) P (Q Q' : A -> Prop) :
  sat m P Q -> (forall a, Q a -> Q' a) -> sat m P Q'.
Proof.
  intros H HQ s. destruct (H s) as [H1 H2]. split; [exact H1 |].
  intros a E. apply HQ, H2, E.
Qed.

Lemma sat_try_except {A} (body : M S A) (handler : exn -> M S A) P (Q : A -> Prop) :
  sat body P Q -> (forall e, sat (handler e) P Q) -> sat (try_except body handler) P Q.
Proof.
  intros Hb Hh s. unfold try_except. destruct (Hb s) as [Hev Hq].
  destruct (out (body s)) as [a | e] eqn:E.
  - split; [exact Hev |]. intros a' E'. apply Hq. congruence.
  - cbn. destruct (Hh e (st (body s))) as [Hev' Hq'].
    split; [apply Forall_app; split; assumption | exact Hq'].
Qed.

Lemma sat_attr {A} (o : option A) (name : string) P :
  sat (attr (S:=S) o name) P (fun a => o = Some a).
Proof.
  destruct o as [a |]; cbn.
  - apply sat_ret. reflexivity.
  - apply sat_raise.
Qed.

Lemma sat_for_each {A} (l : list A) (body : A -> M S unit) P :
  (forall x, In x l -> sat (body x) P (fun _ => True)) ->
  sat (for_each l body) P (fun _ => True).
Proof.
  induction l as [| x l IH]; intros H; cbn.
  - apply sat_ret. trivial.
  - eapply sat_bind.
    + apply H. left. reflexivity.
    + intros _ _. apply IH. intros y Hy. apply H. right. exact Hy.
Qed.

(** A loop keeps an invariant [I] of its variables. *)
Lemma sat_for_fold {A B} (l : list A) (b : B) (body : B -> A -> M S B) P (I : B -> Prop) :
  I b ->
  (forall b x, In x l -> I b -> sat (body b x) P I) ->
  sat (for_fold l b body) P I.
Proof.
  revert b. induction l as [| x l IH]; intros b Hb H; cbn.
  - apply sat_ret. exact Hb.
  - eapply sat_bind.
    + apply H; [left; reflexivity | exact Hb].
    + intros b' Hb'. apply IH; [exact Hb' |].
      intros b0 y Hy. apply H. right. exact Hy.
Qed.

Lemma sat_map_each {A B} (f : A -> M S B) (l : list A) P (Q : B -> Prop) :
  (forall x, In x l -> sat (f x) P Q) ->
  sat (map_each f l) P (fun ys => List.length ys = List.length l /\ Forall Q ys).
Proof.
  induction l as [| x l IH]; intros H; cbn.
  - apply sat_ret. split; [reflexivity | constructor].
  - eapply sat_bind; [apply H; left; reflexivity |].
    intros y Hy. eapply sat_bind.
    + apply IH. intros z Hz. apply H. right. exact Hz.
    + intros ys [Hlen Hall]. apply sat_ret. cbn.
      split; [congruence | constructor; assumption].
Qed.

End RunFacts.

(** ** Events of the conversion unit *)

Section Always.

Context {S : Type}.
Variable P : Event -> Prop.

Lemma always_ret {A} (a : A) : always P (ret (S:=S) a).
Proof. apply sat_ret. trivial. Qed.

Lemma always_raise {A} (e : exn) : always P (raise (S:=S) (A:=A) e).
Proof. apply sat_raise. Qed.

Lemma always_lift {A} (o : Outcome A) : always P (lift (S:=S) o).
Proof. apply sat_lift. trivial. Qed.

Lemma always_print (m : Msg) : P (EPrint m) -> always P (print (S:=S) m).
Proof. intros H. apply sat_print; trivial. Qed.

Lemma always_call {A} (host : Host S) (c : ext A) :
  (forall r, P (ECall c r)) -> always P (call host c).
Proof. apply sat_call. Qed.

Lemma always_attr {A} (o : option A) name : always P (attr (S:=S) o name).
Proof. eapply sat_weaken; [apply sat_attr | trivial]. Qed.

Lemma always_bind {A B} (m : M S A) (k : A -> M S B) :
  always P m -> (forall a, always P (k a)) -> always P (bind m k).
Proof. intros Hm Hk. eapply sat_bind; [exact Hm |]. intros a _. apply Hk. Qed.

Lemma always_try_except {A} (body : M S A) (handler : exn -> M S A) :
  always P body -> (forall e, always P (handler e)) -> always P (try_except body handler).
Proof. intros Hb Hh. apply sat_try_except; assumption. Qed.

Lemma always_for_each {A} (l : list A) (body : A -> M S unit) :
  (forall x, always P (body x)) -> always P (for_each l body).
Proof. intros H. apply sat_for_each. intros x _. apply H. Qed.

Lemma always_for_fold {A B} (l : list A) (b : B) (body : B -> A -> M S B) :
  (forall b x, always P (body b x)) -> always P (for_fold l b body).
Proof.
  intros H. apply sat_for_fold; [trivial |]. intros b0 x _ _. apply H.
Qed.

Lemma always_map_each {A B} (f : A -> M S B) (l : list A) :
  (forall x, always P (f x)) -> always P (map_each f l).
Proof.
  intros H. eapply sat_weaken; [apply sat_map_each with (Q := fun _ => True) | trivial].
  intros x _. apply H.
Qed.

Lemma always_events {A} (m : M S A) s : always P m -> Forall P (evs (m s)).
Proof. intros H. apply (H s). Qed.

End Always.

(** One step of a proof that a run keeps to [P]: the rule of the head
    construct, a case split on the scrutinee of a [match] or [if]. *)
Ltac always_step :=
  first
    [ apply always_ret
    | apply always_raise
    | apply always_lift
    | apply always_attr
    | apply always_call; intros; try reflexivity; try discriminate
    | apply always_print; intros; try reflexivity; try discriminate
    | apply always_bind; [| intros]
    | apply always_try_except; [| intros]
    | apply always_for_each; intros
    | apply always_for_fold; intros
    | apply always_map_each; intros
    | match goal with
      | |- always _ (match ?x with _ => _ end) => destruct x
      end ].

Ltac always_tac := repeat always_step.

(** The same for the whole script, its functions unfolded. *)
Ltac script_always :=
  unfold batch_compress, after_probe, probe, collect_files, collect_file,
    dispatch, run_parallel, run_sequential, sequential_step, pool_map,
    process_file, report, compress_geotiff, compress_geotiff_body,
    copy_band, tag_band, check_gpu_support;
  always_tac.

Section Conversion.

Context {S : Type}.
Variable host : Host S.
Variable has_cuda : bool.

Lemma copy_band_silent src dst i : always silent (copy_band host src dst i).
Proof. unfold copy_band. always_tac. Qed.

Lemma tag_band_silent dst i : always silent (tag_band host dst i).
Proof. unfold tag_band. always_tac. Qed.

Lemma ends_in_verdict_bind {A} V (m : M S A) (k : A -> M S bool) :
  always silent m -> (forall a, ends_in_verdict V (k a)) ->
  ends_in_verdict V (bind m k).
Proof.
  intros Hm Hk s. pose proof (always_events _ m s Hm) as Hev.
  destruct (out (m s)) as [a | e] eqn:E.
  - rewrite (bind_run_ret _ _ _ _ E). cbn.
    specialize (Hk a (st (m s))).
    destruct (out (k a (st (m s)))) as [b | e'].
    + destruct Hk as (pre & v & Hevs & Hpre & Hv).
      exists (evs (m s) ++ pre)%list, v. rewrite Hevs, app_assoc.
      split; [reflexivity |]. split; [apply Forall_app; split; assumption | exact Hv].
    + apply Forall_app. split; assumption.
  - rewrite (bind_run_raise _ _ _ _ E). cbn. exact Hev.
Qed.

Lemma ends_in_verdict_print (V : bool -> Msg -> Prop) (v : Msg) (b : bool) :
  is_verdict v = true -> is_success v = b -> V b v ->
  ends_in_verdict (S:=S) V (print v ;; ret b)%py.
Proof.
  intros H1 H2 H3 s. cbn. exists [], v. repeat split; try assumption. constructor.
Qed.

Lemma compress_geotiff_body_verdict input_file output_file use_gpu :
  ends_in_verdict (verdict_for input_file output_file)
    (compress_geotiff_body host has_cuda input_file output_file use_gpu).
Proof.
  unfold compress_geotiff_body.
  repeat first
    [ apply ends_in_verdict_bind;
      [ always_tac; first [apply copy_band_silent | apply tag_band_silent] | intros ]
    | match goal with
      | |- ends_in_verdict _ (match ?x with _ => _ end) => destruct x
      end ].
  - apply ends_in_verdict_print; try reflexivity. eexists. reflexivity.
  - apply ends_in_verdict_print; try reflexivity. right. left. reflexivity.
  - apply ends_in_verdict_print; try reflexivity. left. reflexivity.
Qed.

(** Every run of [compress_geotiff] returns, and its events are silent ones
    followed by one verdict line that agrees with the value returned. *)
Lemma compress_geotiff_run input_file output_file use_gpu s :
  let r := compress_geotiff host has_cuda input_file output_file use_gpu s in
  exists b pre v,
    out r = Ret b /\ evs r = (pre ++ [EPrint v])%list /\ Forall silent pre /\
    is_verdict v = true /\ is_success v = b /\
    verdict_for input_file output_file b v.
Proof.
  cbn. unfold compress_geotiff, try_except.
  pose proof (compress_geotiff_body_verdict input_file output_file use_gpu s) as H.
  destruct (out (compress_geotiff_body host has_cuda input_file output_file use_gpu s))
    as [b | e] eqn:E.
  - destruct H as (pre & v & H). exists b, pre, v. split; [exact E | exact H].
  - cbn. eexists false, _, (MsgError (exn_str e)).
    repeat split; try reflexivity; try assumption.
    right. right. eexists. reflexivity.
Qed.

Lemma compress_geotiff_returns input_file output_file use_gpu s :
  exists b, out (compress_geotiff host has_cuda input_file output_file use_gpu s) = Ret b.
Proof.
  destruct (compress_geotiff_run input_file output_file use_gpu s) as (b & _ & _ & H & _).
  exists b. exact H.
Qed.

Lemma process_file_returns item s :
  exists b, out (process_file host has_cuda item s) = Ret b.
Proof. destruct item as [[i o] g]. apply compress_geotiff_returns. Qed.

End Conversion.

(** ** Marks and outcomes of runs *)

Lemma marks_app es1 es2 : marks (es1 ++ es2) = (marks es1 ++ marks es2)%list.
Proof. apply flat_map_app. Qed.

Lemma marks_silent es : Forall silent es -> marks es = [].
Proof.
  induction 1 as [| e es He _ IH]; [reflexivity |].
  unfold marks in *. cbn [flat_map]. unfold silent in He. rewrite He, IH. reflexivity.
Qed.

Lemma mark_of_verdict v : is_verdict v = true -> mark_of (EPrint v) = [inr (is_success v)].
Proof. destruct v; cbn; intros H; try discriminate H; reflexivity. Qed.

Lemma silent_no_elapsed e : silent e -> reports_elapsed e = false.
Proof.
  destruct e as [m | A c r]; [| reflexivity].
  destruct m; cbn; intros H; try reflexivity; discriminate H.
Qed.

Lemma outcomes_app es1 es2 : outcomes (es1 ++ es2) = (outcomes es1 ++ outcomes es2)%list.
Proof. unfold outcomes. rewrite marks_app. apply flat_map_app. Qed.

Lemma outcomes_sequential_marks items results :
  List.length results = List.length items ->
  flat_map outcome_of_mark (sequential_marks items results) = results.
Proof.
  revert results. induction items as [| [[i o] g] items IH]; intros [| b results] H;
    try discriminate H; [reflexivity |].
  cbn. f_equal. apply IH. injection H as H. exact H.
Qed.

Lemma outcomes_inr results : flat_map outcome_of_mark (map inr results) = results.
Proof. induction results as [| b l IH]; [reflexivity | cbn; f_equal; exact IH]. Qed.

Lemma count_true_cons b l :
  count_true (b :: l) = ((if b then 1 else 0) + count_true l)%Z.
Proof. unfold count_true. destruct b; cbn [filter List.length]; lia. Qed.

Section Scheduler.

Context {S : Type}.
Variable host : Host S.
Variable has_cuda : bool.

(** The marks of one conversion are its outcome. *)
Lemma compress_geotiff_marks input_file output_file use_gpu s :
  exists b,
    out (compress_geotiff host has_cuda input_file output_file use_gpu s) = Ret b /\
    marks (evs (compress_geotiff host has_cuda input_file output_file use_gpu s)) = [inr b].
Proof.
  destruct (compress_geotiff_run host has_cuda input_file output_file use_gpu s)
    as (b & pre & v & Hout & Hevs & Hpre & Hv & Hb & _).
  exists b. split; [exact Hout |].
  rewrite Hevs, marks_app, (marks_silent _ Hpre).
  unfold marks. cbn [flat_map app].
  rewrite (mark_of_verdict _ Hv), Hb. reflexivity.
Qed.

Lemma sequential_step_run k i o g s :
  exists b,
    out (compress_geotiff host has_cuda i o g s) = Ret b /\
    marks (evs (compress_geotiff host has_cuda i o g s)) = [inr b] /\
    sequential_step host has_cuda k (i, o, g) s
    = mkRes (Ret (if b then (k + 1)%Z else k))
            (st (compress_geotiff host has_cuda i o g s))
            (EPrint (MsgProcessing i) :: evs (compress_geotiff host has_cuda i o g s)).
Proof.
  destruct (compress_geotiff_marks i o g s) as (b & Hout & Hmarks).
  exists b. split; [exact Hout |]. split; [exact Hmarks |].
  unfold sequential_step.
  rewrite (bind_run_ret (print (MsgProcessing i)) _ s tt eq_refl). cbn [print st evs out].
  rewrite (bind_run_ret _ _ s b Hout). cbn [ret st evs out].
  rewrite app_nil_r. reflexivity.
Qed.

(** The sequential loop from a count [k]: it returns, each item leaves its
    progress line and then its outcome, and the count grows by the number of
    successes. *)
Lemma run_sequential_from items : forall k s,
  let r := for_fold items k (sequential_step host has_cuda) s in
  exists results,
    List.length results = List.length items /\
    out r = Ret (k + count_true results)%Z /\
    marks (evs r) = sequential_marks items results /\
    evs r = sequential_events host has_cuda items s.
Proof.
  induction items as [| [[i o] g] items IH]; intros k s; cbn zeta.
  - exists []. cbn. repeat split. f_equal. unfold count_true. cbn. lia.
  - destruct (sequential_step_run k i o g s) as (b & Hout & Hmarks & Hstep).
    cbn [for_fold].
    rewrite (bind_run_ret _ _ s (if b then (k + 1)%Z else k))
      by (rewrite Hstep; reflexivity).
    rewrite Hstep. cbn [out st evs].
    specialize (IH (if b then (k + 1)%Z else k)
                   (st (compress_geotiff host has_cuda i o g s))).
    cbn zeta in IH. destruct IH as (results & Hlen & Hr & Hm & He).
    exists (b :: results). repeat split.
    + cbn. congruence.
    + rewrite Hr, count_true_cons. f_equal. destruct b; lia.
    + change (EPrint (MsgProcessing i) :: ?l) with ([EPrint (MsgProcessing i)] ++ l)%list.
      rewrite !marks_app, Hmarks, Hm. reflexivity.
    + cbn [sequential_events app]. rewrite He. reflexivity.
Qed.

Lemma run_sequential_spec items s :
  let r := run_sequential host has_cuda items s in
  exists results,
    List.length results = List.length items /\
    out r = Ret (count_true results) /\
    marks (evs r) = sequential_marks items results /\
    evs r = sequential_events host has_cuda items s.
Proof. apply (run_sequential_from items 0%Z s). Qed.

(** [pool.map(process_file, items)] returns one result per item, and each
    result is the outcome its conversion left on the console. *)
Lemma pool_map_spec items : forall s,
  let r := pool_map (process_file host has_cuda) items s in
  exists results,
    List.length results = List.length items /\
    out r = Ret results /\
    marks (evs r) = map inr results.
Proof.
  unfold pool_map. induction items as [| [[i o] g] items IH]; intros s; cbn zeta.
  - exists []. repeat split.
  - destruct (compress_geotiff_marks i o g s) as (b & Hout & Hmarks).
    cbn [map_each].
    rewrite (bind_run_ret _ _ s b Hout). cbn [out st evs].
    specialize (IH (st (compress_geotiff host has_cuda i o g s))).
    cbn zeta in IH. destruct IH as (results & Hlen & Hr & Hm).
    cbn [process_file].
    rewrite (bind_run_ret _ _ _ results Hr). cbn [ret out st evs].
    exists (b :: results). repeat split.
    + cbn. congruence.
    + rewrite app_nil_r, marks_app, Hmarks, Hm. reflexivity.
Qed.

End Scheduler.

(** ** The conversion unit never raises (C2) *)

(** C2.  For every input file, output path and acceleration flag, and
    whatever the raster library answers or raises, [compress_geotiff] returns
    a status.  An exception raised while opening, creating, copying or
    building overviews ends the [try] body, is printed, and becomes the
    status [False]; so neither the sequential loop nor [pool.map] over
    [process_file] is ever left by an exception of a conversion. *)
Theorem compress_geotiff_never_raises {S} (host : Host S) (has_cuda : bool)
    (input_file output_file : string) (use_gpu : bool) (s : S) :
  let r := compress_geotiff host has_cuda input_file output_file use_gpu s in
  let body := compress_geotiff_body host has_cuda input_file output_file use_gpu s in
  (exists b, out r = Ret b) /\
  (forall e, out body = Raise e ->
     out r = Ret false /\ st r = st body /\
     evs r = (evs body ++ [EPrint (MsgError (exn_str e))])%list) /\
  (forall items s', exists k, out (run_sequential host has_cuda items s') = Ret k) /\
  (forall items s', exists results,
     out (pool_map (process_file host has_cuda) items s') = Ret results).
Proof.
  cbn zeta. split; [| split; [| split]].
  - apply compress_geotiff_returns.
  - intros e He. unfold compress_geotiff, try_except. rewrite He.
    repeat split; reflexivity.
  - intros items s'.
    destruct (run_sequential_spec host has_cuda items s') as (results & _ & H & _).
    eexists. exact H.
  - intros items s'.
    destruct (pool_map_spec host has_cuda items s') as (results & _ & H & _).
    eexists. exact H.
Qed.

(** ** The worker pool (C4) *)

Lemma pool_size_clamp n : pool_size n = Z.min (Z.max 1 (n - 1)) 8.
Proof. unfold pool_size. lia. Qed.

Lemma run_parallel_events {S} (host : Host S) has_cuda items s n :
  fst (host _ multiprocessing_cpu_count s) = Ret n ->
  exists r rest,
    evs (run_parallel host has_cuda items s)
    = ECall multiprocessing_cpu_count (Ret n)
      :: EPrint (MsgParallel (pool_size n))
      :: ECall (multiprocessing_Pool (pool_size n)) r :: rest.
Proof.
  intros Hn. unfold run_parallel.
  rewrite (bind_run_ret (call host multiprocessing_cpu_count) _ s n)
    by (rewrite call_run; exact Hn).
  rewrite call_run, Hn. cbn [out st evs app].
  set (s1 := snd (host Z multiprocessing_cpu_count s)).
  rewrite (bind_run_ret (print (MsgParallel (pool_size n))) _ s1 tt eq_refl).
  cbn [print out st evs app].
  destruct (fst (host _ (multiprocessing_Pool (pool_size n)) s1)) as [[] | e] eqn:E.
  - rewrite (bind_run_ret (call host (multiprocessing_Pool (pool_size n))) _ s1 tt)
      by (rewrite call_run; exact E).
    rewrite call_run, E. cbn [out st evs app]. eexists _, _. reflexivity.
  - rewrite (bind_run_raise (call host (multiprocessing_Pool (pool_size n))) _ s1 e)
      by (rewrite call_run; exact E).
    rewrite call_run, E. cbn [out st evs app]. eexists _, _. reflexivity.
Qed.

(** C4.  With [n >= 1] logical CPUs, a parallel dispatch of more than one
    work item announces and creates a pool of [min(max(1, n - 1), 8)]
    processes; for 1, 4 and 16 CPUs that is 1, 3 and 8, and 8 from 9 CPUs
    on. *)
Theorem pool_width {S} (host : Host S) (has_cuda : bool) (total_files : Z)
    (items : list WorkItem) (s : S) (n : Z) :
  (1 <= n)%Z ->
  (1 < total_files)%Z ->
  fst (host _ multiprocessing_cpu_count s) = Ret n ->
  let width := Z.min (Z.max 1 (n - 1)) 8 in
  pool_size n = width /\
  (exists r rest,
     evs (dispatch host has_cuda true total_files items s)
     = ECall multiprocessing_cpu_count (Ret n)
       :: EPrint (MsgParallel width)
       :: ECall (multiprocessing_Pool width) r :: rest) /\
  pool_size 1 = 1%Z /\ pool_size 4 = 3%Z /\ pool_size 16 = 8%Z /\
  ((9 <= n)%Z -> width = 8%Z).
Proof.
  intros Hn Ht Hcpu. cbn zeta. rewrite <- pool_size_clamp.
  split; [reflexivity |]. split.
  - unfold dispatch. replace (1 <? total_files)%Z with true by (symmetry; apply Z.ltb_lt; exact Ht).
    cbn [andb].
    destruct (run_parallel_events host has_cuda items s n Hcpu) as (r & rest & Hev).
    destruct (out (run_parallel host has_cuda items s)) as [results | e] eqn:E.
    + rewrite (bind_run_ret _ _ s results E). cbn [ret out st evs].
      rewrite app_nil_r, Hev. eexists _, _. reflexivity.
    + rewrite (bind_run_raise _ _ s e E). cbn [out st evs].
      rewrite Hev. eexists _, _. reflexivity.
  - repeat split; try reflexivity. unfold pool_size. lia.
Qed.

(** The theorem at the simulated host with four CPUs: a pool of three. *)
Lemma pool_width_witness :
  let items := [("in/a/img1.tif", "out/a/img1.tif", false);
                ("in/a/b/img2.tiff", "out/a/b/img2.tiff", false)] in
  (1 <= 4)%Z /\ (1 < 2)%Z /\
  fst (sim_host scenario _ multiprocessing_cpu_count 0%float) = Ret 4%Z /\
  pool_size 4 = 3%Z /\
  exists r rest,
    evs (dispatch (sim_host scenario) false true 2 items 0%float)
    = ECall multiprocessing_cpu_count (Ret 4%Z)
      :: EPrint (MsgParallel 3)
      :: ECall (multiprocessing_Pool 3) r :: rest.
Proof.
  cbn zeta.
  pose proof (pool_width (sim_host scenario) false 2
                [("in/a/img1.tif", "out/a/img1.tif", false);
                 ("in/a/b/img2.tiff", "out/a/b/img2.tiff", false)]
                0%float 4 ltac:(lia) ltac:(lia) eq_refl) as H.
  cbn zeta in H. destruct H as (H1 & H2 & _).
  split; [lia |]. split; [lia |]. split; [reflexivity |].
  split; [exact H1 | exact H2].
Defined.

(** ** One outcome per work item (C1) *)

Lemma run_parallel_spec {S} (host : Host S) has_cuda items s :
  pool_available host ->
  let r := run_parallel host has_cuda items s in
  exists results,
    List.length results = List.length items /\
    out r = Ret results /\
    outcomes (evs r) = results.
Proof.
  intros [Hcpu Hpool]. cbn zeta. unfold run_parallel.
  destruct (Hcpu s) as [n Hn].
  rewrite (bind_run_ret (call host multiprocessing_cpu_count) _ s n)
    by (rewrite call_run; exact Hn).
  rewrite call_run, Hn. cbn [out st evs].
  set (s1 := snd (host Z multiprocessing_cpu_count s)).
  rewrite (bind_run_ret (print (MsgParallel (pool_size n))) _ s1 tt eq_refl).
  cbn [print out st evs].
  rewrite (bind_run_ret (call host (multiprocessing_Pool (pool_size n))) _ s1 tt)
    by (rewrite call_run; apply Hpool).
  rewrite call_run, Hpool. cbn [out st evs].
  set (s2 := snd (host unit (multiprocessing_Pool (pool_size n)) s1)).
  destruct (pool_map_spec host has_cuda items s2) as (results & Hlen & Hout & Hmarks).
  exists results. split; [exact Hlen |]. split; [exact Hout |].
  rewrite !outcomes_app. unfold outcomes at 1 2 3. cbn [marks flat_map mark_of is_verdict app].
  unfold outcomes. rewrite Hmarks. apply outcomes_inr.
Qed.

(** C1.  Where the worker pool can be set up, every dispatch returns, and the
    number of conversion outcomes it produced is the number of work items,
    however many conversions failed: [pool.map] returns one boolean per item,
    the sequential loop goes through every item once, in order, and
    [successful_files] counts the outcomes that are successes. *)
Theorem one_outcome_per_work_item {S} (host : Host S) (has_cuda parallel : bool)
    (total_files : Z) (items : list WorkItem) (s : S) :
  pool_available host ->
  let r := dispatch host has_cuda parallel total_files items s in
  exists results,
    List.length results = List.length items /\
    outcomes (evs r) = results /\
    out r = Ret (count_true results) /\
    (parallel && (1 <? total_files)%Z = true ->
       out (run_parallel host has_cuda items s) = Ret results) /\
    (parallel && (1 <? total_files)%Z = false ->
       marks (evs r) = sequential_marks items results).
Proof.
  intros Hpool. cbn zeta. unfold dispatch.
  destruct (parallel && (1 <? total_files)%Z) eqn:E.
  - destruct (run_parallel_spec host has_cuda items s Hpool) as (results & Hlen & Hout & Hoc).
    exists results. rewrite (bind_run_ret _ _ s results Hout). cbn [ret out st evs].
    rewrite app_nil_r.
    split; [exact Hlen |]. split; [exact Hoc |]. split; [reflexivity |].
    split; [intros _; exact Hout | discriminate].
  - destruct (run_sequential_spec host has_cuda items s) as (results & Hlen & Hout & Hm & _).
    exists results.
    split; [exact Hlen |]. split.
    { unfold outcomes. rewrite Hm. apply outcomes_sequential_marks. exact Hlen. }
    split; [exact Hout |].
    split; [discriminate | intros _; exact Hm].
Qed.

Lemma sim_pool_available cfg : pool_available (sim_host cfg).
Proof. split; intros; [exists (sim_cpus cfg) |]; reflexivity. Qed.

(** The theorem on the tree whose first image is corrupt, in parallel. *)
Lemma one_outcome_per_work_item_witness :
  let items := [("in/a/img1.tif", "out/a/img1.tif", false);
                ("in/a/b/img2.tiff", "out/a/b/img2.tiff", false)] in
  let r := dispatch (sim_host scenario_corrupt) false true 2 items 0%float in
  pool_available (sim_host scenario_corrupt) /\
  exists results,
    List.length results = List.length items /\
    outcomes (evs r) = results /\
    out r = Ret (count_true results).
Proof.
  cbn zeta. split; [apply sim_pool_available |].
  destruct (one_outcome_per_work_item (sim_host scenario_corrupt) false true 2
              [("in/a/img1.tif", "out/a/img1.tif", false);
               ("in/a/b/img2.tiff", "out/a/b/img2.tiff", false)]
              0%float (sim_pool_available scenario_corrupt))
    as (results & H1 & H2 & H3 & _).
  exists results. split; [exact H1 |]. split; [exact H2 | exact H3].
Defined.

Example corrupt_batch_outcomes :
  outcomes (evs (script (sim_host scenario_corrupt) "/home/u" "in" "out"
                        [".tif"; ".tiff"] false true 0%float))
  = [false; true].
Proof. vm_compute. reflexivity. Qed.

(** ** Sequential dispatch (C9) *)

Lemma compress_geotiff_no_pool {S} (host : Host S) has_cuda i o g :
  always (fun e => is_pool_event e = false) (compress_geotiff host has_cuda i o g).
Proof. script_always. Qed.

Lemma run_sequential_no_pool {S} (host : Host S) has_cuda items :
  always (fun e => is_pool_event e = false) (run_sequential host has_cuda items).
Proof. script_always. Qed.

(** C9.  When [parallel] is false, or the batch has at most one work item,
    the dispatch is the sequential loop: no pool is announced or created,
    the items are taken in the order of the list, and for each item the
    progress line is printed first and the events of its conversion follow
    it. *)
Theorem sequential_dispatch {S} (host : Host S) (has_cuda parallel : bool)
    (total_files : Z) (items : list WorkItem) (s : S) :
  total_files = Z.of_nat (List.length items) ->
  parallel = false \/ (List.length items <= 1)%nat ->
  let r := dispatch host has_cuda parallel total_files items s in
  r = run_sequential host has_cuda items s /\
  evs r = sequential_events host has_cuda items s /\
  Forall (fun e => is_pool_event e = false) (evs r) /\
  exists results,
    List.length results = List.length items /\
    marks (evs r) = sequential_marks items results /\
    out r = Ret (count_true results).
Proof.
  intros Ht Hc. cbn zeta.
  assert (E : parallel && (1 <? total_files)%Z = false).
  { destruct Hc as [-> | Hc]; [reflexivity |].
    apply andb_false_iff. right. apply Z.ltb_ge. lia. }
  unfold dispatch. rewrite E.
  destruct (run_sequential_spec host has_cuda items s) as (results & Hlen & Hout & Hm & He).
  split; [reflexivity |]. split; [exact He |]. split.
  - apply (always_events _ _ s (run_sequential_no_pool host has_cuda items)).
  - exists results. split; [exact Hlen |]. split; [exact Hm | exact Hout].
Qed.

(** The theorem on the tree whose first image is corrupt, [parallel] off. *)
Lemma sequential_dispatch_witness :
  let items := [("in/a/img1.tif", "out/a/img1.tif", false);
                ("in/a/b/img2.tiff", "out/a/b/img2.tiff", false)] in
  let r := dispatch (sim_host scenario_corrupt) false false 2 items 0%float in
  2%Z = Z.of_nat (List.length items) /\
  (false = false \/ (List.length items <= 1)%nat) /\
  r = run_sequential (sim_host scenario_corrupt) false items 0%float /\
  evs r = sequential_events (sim_host scenario_corrupt) false items 0%float /\
  Forall (fun e => is_pool_event e = false) (evs r).
Proof.
  cbn zeta.
  destruct (sequential_dispatch (sim_host scenario_corrupt) false false 2
              [("in/a/img1.tif", "out/a/img1.tif", false);
               ("in/a/b/img2.tiff", "out/a/b/img2.tiff", false)]
              0%float eq_refl (or_introl eq_refl))
    as (H1 & H2 & H3 & _).
  split; [reflexivity |]. split; [left; reflexivity |].
  split; [exact H1 |]. split; [exact H2 | exact H3].
Defined.

Example sequential_single_item :
  marks (evs (dispatch (sim_host scenario) false true 1
                       [("in/a/img1.tif", "out/a/img1.tif", false)] 0%float))
  = [inl "in/a/img1.tif"; inr true].
Proof. vm_compute. reflexivity. Qed.

(** ** What a failed conversion reports (C7) *)

(** A conversion that fails, on the simulated host: the library cannot
    decode the image, the conversion returns [False], and no line of it
    reports an elapsed time. *)
Lemma failed_conversion_no_elapsed :
  ~ failure_reports_elapsed (sim_host scenario_corrupt) false
      "in/a/img1.tif" "out/a/img1.tif" false 0%float.
Proof.
  unfold failure_reports_elapsed. cbn zeta. intros H.
  assert (E : out (compress_geotiff (sim_host scenario_corrupt) false
                     "in/a/img1.tif" "out/a/img1.tif" false 0%float) = Ret false)
    by (vm_compute; reflexivity).
  specialize (H E). vm_compute in H. discriminate H.
Qed.

Example failed_conversion_events :
  evs (compress_geotiff (sim_host scenario_corrupt) false
         "in/a/img1.tif" "out/a/img1.tif" false 0%float)
  = [ECall time_time (Ret 0%float);
     ECall (gdal_SetConfigOption "GDAL_CACHEMAX" "2048") (Ret tt);
     ECall (gdal_Open "in/a/img1.tif")
       (Raise (Exception "RuntimeError"
                 "in/a/img1.tif: not recognized as a supported file format"));
     EPrint (MsgError "in/a/img1.tif: not recognized as a supported file format")].
Proof. vm_compute. reflexivity. Qed.

(** ** The work items and their acceleration flag (C10) *)

Lemma always_weaken {S A} (P P' : Event -> Prop) (m : M S A) :
  (forall e, P e -> P' e) -> always P m -> always P' m.
Proof.
  intros H Hm s. split; [| trivial].
  eapply Forall_impl; [exact H | apply (Hm s)].
Qed.

(** What [collect_files] returns: the count is the length of the list, and
    every item carries the flag [gpu_available and use_gpu]. *)
Lemma collect_files_post {S} {tables : UnicodeLower} (host : Host S)
    cwd input_dir output_dir extensions
    use_gpu gpu_available (P : Event -> Prop) :
  (forall top r, P (ECall (os_walk top) r)) ->
  (forall p ok r, P (ECall (os_makedirs p ok) r)) ->
  sat (collect_files host cwd input_dir output_dir extensions use_gpu gpu_available) P
      (fun vars => fst vars = Z.of_nat (List.length (snd vars)) /\
                   Forall (fun item : WorkItem => snd item = gpu_available && use_gpu)
                          (snd vars)).
Proof.
  intros Hwalk Hmk. unfold collect_files.
  eapply sat_bind; [apply sat_call; apply Hwalk |]. intros walk _.
  apply sat_for_fold; [split; [reflexivity | constructor] |].
  intros vars [[root dirs] files] _ Hvars.
  apply sat_for_fold; [exact Hvars |].
  clear vars Hvars. intros [total items] file _ [Htotal Hflags].
  unfold collect_file. destruct (qualifies extensions file).
  - destruct (os_path.relpath cwd (os_path.join root file) input_dir) as [rel |].
    + eapply sat_bind; [apply sat_call; apply Hmk |]. intros _ _.
      apply sat_ret. cbn [fst snd] in *. split.
      * rewrite length_app. cbn. lia.
      * apply Forall_app. split; [exact Hflags |]. repeat constructor.
    + apply sat_raise.
  - apply sat_ret. split; assumption.
Qed.

Lemma check_gpu_support_returns {S} (host : Host S) has_cuda s :
  exists g, out (check_gpu_support host has_cuda s) = Ret g.
Proof.
  unfold check_gpu_support. apply try_except_returns.
  intros e s'. exists false. reflexivity.
Qed.

Lemma batch_without_gpu_no_probe {S} {tables : UnicodeLower} (host : Host S)
    has_cuda cwd input_dir output_dir
    extensions parallel :
  always (fun e => is_probe_event e = false)
    (batch_compress host has_cuda cwd input_dir output_dir extensions false parallel).
Proof. script_always. Qed.

(** ** Acceleration options (C3) *)

Lemma accelerated_creation_options n use_gpu has_cuda :
  accelerated (creation_options n use_gpu has_cuda) = use_gpu && has_cuda.
Proof. unfold creation_options. destruct (use_gpu && has_cuda); reflexivity. Qed.

Lemma quality_in_creation_options n use_gpu has_cuda :
  In "JPEG_QUALITY=90" (creation_options n use_gpu has_cuda).
Proof. unfold creation_options. apply in_or_app. left. right. left. reflexivity. Qed.

(** The steps of [compress_geotiff_body] up to the choice of the options. *)
Ltac conversion_prefix :=
  repeat match goal with
    | |- always _ (bind (call _ _) _) => apply always_bind; [solve [always_tac] | intros]
    | |- always _ (bind (attr _ _) _) => apply always_bind; [solve [always_tac] | intros]
    | |- always _ (match ?x with Some _ => _ | None => _ end) =>
        destruct x; [| solve [always_tac]]
    end.

Lemma compress_geotiff_creates {S} (host : Host S) has_cuda input_file output_file use_gpu :
  always (creates_with use_gpu has_cuda)
    (compress_geotiff host has_cuda input_file output_file use_gpu).
Proof.
  unfold compress_geotiff.
  apply always_try_except; [| intros; always_tac].
  unfold compress_geotiff_body. conversion_prefix.
  match goal with
  | |- always _ (bind (if _ then _ else _) _) =>
      match goal with
      | |- context [base_options ?n] =>
          apply sat_bind with (Q := fun o => o = creation_options n use_gpu has_cuda)
      end
  end.
  - unfold creation_options. destruct (use_gpu && has_cuda).
    + apply sat_bind with (Q := fun _ => True); [apply sat_print; [intros o H; discriminate H | exact I] |].
      intros _ _. apply sat_ret. reflexivity.
    + apply sat_bind with (Q := fun _ => True); [apply sat_print; [intros o H; discriminate H | exact I] |].
      intros _ _. apply sat_ret. rewrite app_nil_r. reflexivity.
  - intros options ->.
    match goal with |- sat ?m ?P _ => change (always P m) end.
    conversion_prefix.
    apply always_bind.
    + apply always_call. intros r o H. cbn in H. injection H as <-.
      eexists. split; [reflexivity |].
      split; [apply accelerated_creation_options | apply quality_in_creation_options].
    + intros dst. unfold copy_band, tag_band. always_tac.
Qed.

Lemma creates_with_on_cpu use_gpu has_cuda e :
  use_gpu && has_cuda = false -> creates_with use_gpu has_cuda e -> creates_on_cpu e.
Proof.
  intros Hc H o Ho. destruct (H o Ho) as (n & _ & Hacc & _). congruence.
Qed.

Lemma no_accelerated_create es :
  Forall creates_on_cpu es -> some_accelerated_create es = false.
Proof.
  unfold some_accelerated_create.
  induction 1 as [| e es He _ IH]; [reflexivity |].
  cbn [existsb]. rewrite IH, orb_false_r.
  destruct (create_options e) as [o |] eqn:E; [apply (He o E) | reflexivity].
Qed.

Lemma some_accelerated_create_uniform (b : bool) es :
  Forall (fun e => forall options, create_options e = Some options ->
                     accelerated options = b) es ->
  some_create es = true -> some_accelerated_create es = b.
Proof.
  destruct b.
  - unfold some_create, some_accelerated_create.
    induction 1 as [| e es He _ IH]; [discriminate |].
    cbn [existsb]. destruct (create_options e) as [o |].
    + intros _. rewrite (He o eq_refl). reflexivity.
    + cbn [orb]. exact IH.
  - intros H _. apply no_accelerated_create. exact H.
Qed.

(** A library that registers a driver named after CUDA, while GTiff's
    creation options do not mention it: [has_cuda] is [False], the probe
    answers [True], the work items carry the flag [True], and yet the
    conversion of such an item passes no acceleration option to [Create]. *)
Lemma probe_true_without_acceleration :
  let host := sim_host scenario_cuda_driver in
  out (module_has_cuda host 0%float) = Ret false /\
  out (probe host false true 0%float) = Ret true /\
  out (collect_files host "/home/u" "in" "out" [".tif"; ".tiff"] true true 0%float)
  = Ret (2%Z, [("in/a/img1.tif", "out/a/img1.tif", true);
               ("in/a/b/img2.tiff", "out/a/b/img2.tiff", true)]) /\
  ~ accelerated_iff_probe host false "in/a/img1.tif" "out/a/img1.tif" true true 0%float.
Proof.
  cbn zeta. split; [vm_compute; reflexivity |]. split; [vm_compute; reflexivity |].
  split; [vm_compute; reflexivity |].
  unfold accelerated_iff_probe. intros H.
  apply (some_accelerated_create_uniform (true && true)) in H;
    [| vm_compute; reflexivity].
  vm_compute in H. discriminate H.
Qed.

(** ** The mean duration (C8) *)

(** C8.  The report divides the duration of the batch by
    [max(1, total_files)], which is never zero: the division never raises
    [ZeroDivisionError], an empty batch reports the duration divided by one,
    and when the count converts to a float the report prints the tally and
    then the duration with that mean. *)
Theorem mean_duration_guard {S} (host : Host S) (start_time : float)
    (successful_files total_files : Z) (s : S) (end_time : float) :
  fst (host _ time_time s) = Ret end_time ->
  let duration := (end_time - start_time)%float in
  let r := report host start_time successful_files total_files s in
  mean_duration duration total_files
  = float_truediv_int duration (Z.max 1 total_files) /\
  Z.max 1 total_files <> 0%Z /\
  (forall msg, mean_duration duration total_files
               <> Raise (Exception "ZeroDivisionError" msg)) /\
  (forall kind msg, out r = Raise (Exception kind msg) -> kind <> "ZeroDivisionError") /\
  (is_infinity (float_of_int (Z.max 1 total_files)) = false ->
     out r = Ret tt /\
     evs r = [ECall time_time (Ret end_time);
              EPrint (MsgDone successful_files total_files);
              EPrint (MsgTiming duration
                        (duration / float_of_int (Z.max 1 total_files))%float)]) /\
  mean_duration duration 0 = Ret (duration / 1)%float.
Proof.
  intros Ht. cbn zeta.
  assert (Hnz : (Z.max 1 total_files =? 0)%Z = false) by (apply Z.eqb_neq; lia).
  assert (Hmean : forall msg, mean_duration (end_time - start_time)%float total_files
                              <> Raise (Exception "ZeroDivisionError" msg)).
  { intros msg. unfold mean_duration, float_truediv_int. rewrite Hnz.
    destruct (is_infinity _); discriminate. }
  assert (Hrun : report host start_time successful_files total_files s
                 = match mean_duration (end_time - start_time)%float total_files with
                   | Ret mean =>
                       mkRes (Ret tt) (snd (host _ time_time s))
                         [ECall time_time (Ret end_time);
                          EPrint (MsgDone successful_files total_files);
                          EPrint (MsgTiming (end_time - start_time)%float mean)]
                   | Raise e =>
                       mkRes (Raise e) (snd (host _ time_time s))
                         [ECall time_time (Ret end_time);
                          EPrint (MsgDone successful_files total_files)]
                   end).
  { unfold report.
    rewrite (bind_run_ret (call host time_time) _ s end_time)
      by (rewrite call_run; exact Ht).
    rewrite call_run, Ht. cbn [out st evs].
    unfold bind, print, lift. cbn [out st evs].
    destruct (mean_duration _ _); reflexivity. }
  split; [reflexivity |]. split; [lia |]. split; [exact Hmean |]. split; [| split].
  - intros kind msg. rewrite Hrun.
    destruct (mean_duration _ _) as [m | e] eqn:E; cbn [out]; [discriminate |].
    intros H. injection H as ->. intros ->. apply (Hmean msg). reflexivity.
  - intros Hfin. rewrite Hrun. unfold mean_duration, float_truediv_int.
    rewrite Hfin, Hnz. split; reflexivity.
  - reflexivity.
Qed.

(** The theorem on an empty batch: no file, and a mean that is the duration
    itself. *)
Lemma mean_duration_guard_witness :
  let r := report (sim_host scenario) 0%float 0 0 3%float in
  fst (sim_host scenario _ time_time 3%float) = Ret 3%float /\
  out r = Ret tt /\
  evs r = [ECall time_time (Ret 3%float); EPrint (MsgDone 0 0); EPrint (MsgTiming 3 3)].
Proof.
  cbn zeta. split; [reflexivity |].
  destruct (mean_duration_guard (sim_host scenario) 0%float 0 0 3%float 3%float eq_refl)
    as (_ & _ & _ & _ & H & _).
  destruct (H eq_refl) as [H1 H2].
  split; [exact H1 |]. rewrite H2. vm_compute. reflexivity.
Defined.

(** ** Strings and paths *)

Module PathFacts.

Import Py os_path.

Lemma append_assoc (a b c : string) : (a ++ b) ++ c = a ++ (b ++ c).
Proof. induction a as [| x a IH]; cbn; [reflexivity | rewrite IH; reflexivity]. Qed.

Lemma append_empty_r (a : string) : a ++ "" = a.
Proof. induction a as [| x a IH]; cbn; [reflexivity | rewrite IH; reflexivity]. Qed.

Lemma split_not_nil c s : split c s <> [].
Proof.
  destruct s as [| a s]; cbn; [discriminate |].
  destruct (Ascii.eqb a c); [discriminate |].
  destruct (split c s); discriminate.
Qed.

(** Splitting at a separator that is written out splits the list. *)
Lemma split_app_sep c a b :
  split c (a ++ String c b) = (split c a ++ split c b)%list.
Proof.
  induction a as [| x a IH]; cbn.
  - rewrite Ascii.eqb_refl. reflexivity.
  - destruct (Ascii.eqb x c); [rewrite IH; reflexivity |].
    rewrite IH. destruct (split c a) as [| w ws] eqn:E; [| reflexivity].
    exfalso. exact (split_not_nil c a E).
Qed.

(** A string without a slash is one component. *)
Lemma split_sep_free s : str_contains "/" s = false -> split sep s = [s].
Proof.
  induction s as [| a s IH]; [reflexivity |].
  cbn [str_contains startswith split]. intros H. apply orb_false_iff in H as [H1 H2].
  rewrite andb_true_r in H1. rewrite (IH H2). unfold sep.
  rewrite Ascii.eqb_sym, H1. reflexivity.
Qed.

Lemma components_empty : components "" = [].
Proof. reflexivity. Qed.

Lemma components_app_sep a b :
  components (a ++ String sep b) = (components a ++ components b)%list.
Proof. unfold components. rewrite split_app_sep. apply filter_app. Qed.

Lemma plain_name_spec x :
  plain_name x = true ->
  x <> "" /\ x <> "." /\ x <> ".." /\ str_contains "/" x = false.
Proof.
  unfold plain_name. intros H.
  apply andb_true_iff in H as [H H4]. apply andb_true_iff in H as [H H3].
  apply andb_true_iff in H as [H1 H2].
  apply negb_true_iff in H1, H2, H3, H4.
  apply String.eqb_neq in H1, H2, H3. repeat split; assumption.
Qed.

Lemma components_plain x : plain_name x = true -> components x = [x].
Proof.
  intros H. apply plain_name_spec in H as (H1 & _ & _ & H4).
  unfold components. rewrite (split_sep_free _ H4). cbn.
  apply String.eqb_neq in H1. rewrite H1. reflexivity.
Qed.

Lemma plain_not_abs x : plain_name x = true -> startswith "/" x = false.
Proof.
  intros H. apply plain_name_spec in H as (_ & _ & _ & H4).
  destruct x as [| a x]; [reflexivity |].
  cbn [str_contains] in H4. apply orb_false_iff in H4 as [H4 _]. exact H4.
Qed.

(** A string that ends with the separator is a string followed by it. *)
Lemma endswith_char_inv c a :
  endswith_char c a = true -> exists a0, a = a0 ++ String c "".
Proof.
  induction a as [| x a IH]; [discriminate |].
  cbn. destruct a as [| y a'].
  - intros H. apply Ascii.eqb_eq in H. subst x. exists "". reflexivity.
  - intros H. destruct (IH H) as [a0 E]. exists (String x a0). cbn. rewrite <- E. reflexivity.
Qed.

(** The components of a joined path, when the second part is relative. *)
Lemma components_join a b :
  startswith "/" b = false ->
  components (join a b) = (components a ++ components b)%list.
Proof.
  intros Hb. unfold join. rewrite Hb.
  destruct (String.eqb_spec a "") as [-> | Ha]; cbn [orb].
  - reflexivity.
  - destruct (endswith_char sep a) eqn:E.
    + destruct (endswith_char_inv _ _ E) as [a0 ->].
      rewrite append_assoc. cbn [append].
      rewrite !components_app_sep, components_empty, app_nil_r. reflexivity.
    + apply components_app_sep.
Qed.

Lemma startswith_app a x : a <> "" -> startswith "/" (a ++ x) = startswith "/" a.
Proof. destruct a as [| c a]; [congruence |]. reflexivity. Qed.

Lemma isabs_join a b :
  a <> "" -> startswith "/" b = false -> isabs (join a b) = isabs a.
Proof.
  intros Ha Hb. unfold isabs, join. rewrite Hb.
  destruct ((a =? "") || endswith_char sep a); apply startswith_app; exact Ha.
Qed.

Lemma join_empty_l b : startswith "/" b = false -> join "" b = b.
Proof. intros Hb. unfold join. rewrite Hb. reflexivity. Qed.

Lemma anchored_isabs cwd p : isabs cwd = true -> isabs (anchored cwd p) = true.
Proof.
  intros Hc. unfold anchored. destruct (isabs p) eqn:E; [exact E |].
  unfold isabs in *. unfold join. rewrite E.
  assert (cwd <> "") by (destruct cwd; [discriminate | congruence]).
  destruct ((cwd =? "") || endswith_char sep cwd); rewrite startswith_app; assumption.
Qed.

Lemma components_anchored_join cwd a b :
  startswith "/" b = false ->
  components (anchored cwd (join a b))
  = (components (anchored cwd a) ++ components b)%list.
Proof.
  intros Hb. unfold anchored.
  destruct (String.eqb_spec a "") as [-> | Ha].
  - rewrite (join_empty_l _ Hb). unfold isabs at 1. rewrite Hb. cbn [isabs startswith].
    rewrite !components_join by (exact Hb || reflexivity).
    rewrite components_empty, app_nil_r. reflexivity.
  - rewrite (isabs_join _ _ Ha Hb). destruct (isabs a) eqn:E.
    + apply components_join. exact Hb.
    + assert (Hj : startswith "/" (join a b) = false)
        by (change (isabs (join a b) = false); rewrite (isabs_join _ _ Ha Hb); exact E).
      rewrite (components_join cwd _ Hj), (components_join a _ Hb).
      rewrite (components_join cwd a E). apply app_assoc.
Qed.

Lemma components_anchored_join_all cwd ds : forall a,
  forallb plain_name ds = true ->
  components (anchored cwd (join_all a ds)) = (components (anchored cwd a) ++ ds)%list.
Proof.
  induction ds as [| d ds IH]; intros a H; cbn.
  - rewrite app_nil_r. reflexivity.
  - cbn in H. apply andb_true_iff in H as [Hd Hds].
    unfold join_all in IH. rewrite (IH _ Hds).
    rewrite (components_anchored_join _ _ _ (plain_not_abs _ Hd)).
    rewrite (components_plain _ Hd), <- app_assoc. reflexivity.
Qed.

(** *** [normpath] *)

Lemma split_sep_free_all s : Forall sep_free (split sep s).
Proof.
  induction s as [| a s IH]; [repeat constructor |].
  cbn [split]. destruct (Ascii.eqb a sep) eqn:E.
  - constructor; [reflexivity | exact IH].
  - destruct (split sep s) as [| w ws]; [repeat constructor |].
    + unfold sep_free. cbn [str_contains startswith].
      unfold sep in E. rewrite Ascii.eqb_sym, E. reflexivity.
    + inversion IH as [| ? ? Hw Hws]; subst. constructor; [| exact Hws].
      unfold sep_free in *. cbn [str_contains startswith].
      unfold sep in E. rewrite Ascii.eqb_sym, E, Hw. reflexivity.
Qed.

Lemma components_clean s : Forall clean (components s).
Proof.
  unfold components. pose proof (split_sep_free_all s) as H.
  induction H as [| x l Hx _ IH]; [constructor |].
  cbn [filter]. destruct (String.eqb_spec x ""); cbn [negb]; [exact IH |].
  constructor; [split; assumption | exact IH].
Qed.

Lemma plain_clean x : plain_name x = true -> clean x.
Proof. intros H. apply plain_name_spec in H as (H1 & _ & _ & H4). split; assumption. Qed.

(** The loop of [normpath] does not see empty components. *)
Lemma normpath_loop_components k xs : forall acc,
  normpath_loop k xs acc
  = normpath_loop k (filter (fun x => negb (x =? "")) xs) acc.
Proof.
  induction xs as [| x xs IH]; intros acc; [reflexivity |].
  cbn [filter]. destruct (String.eqb_spec x "") as [-> | Hx]; cbn [negb].
  - cbn [normpath_loop]. apply IH.
  - cbn [normpath_loop].
    destruct ((x =? "") || (x =? ".")); [apply IH |].
    destruct (negb (x =? "..") || _ || _); [apply IH |].
    destruct acc; apply IH.
Qed.

(** Nor whether the path starts with one slash or with two. *)
Lemma normpath_loop_slashes k xs : forall acc,
  k <> 0%nat -> normpath_loop k xs acc = normpath_loop 1 xs acc.
Proof.
  intros acc Hk. destruct k as [| k]; [congruence |]. clear Hk. revert acc.
  induction xs as [| x xs IH]; intros acc; [reflexivity |].
  cbn [normpath_loop Nat.eqb andb].
  destruct ((x =? "") || (x =? ".")); [apply IH |].
  destruct (negb (x =? "..") || false || _); [apply IH |].
  destruct acc; apply IH.
Qed.

Lemma normpath_loop_app k xs ys : forall acc,
  normpath_loop k (xs ++ ys)%list acc
  = normpath_loop k ys (rev (normpath_loop k xs acc)).
Proof.
  induction xs as [| x xs IH]; intros acc.
  - cbn [app normpath_loop]. rewrite rev_involutive. reflexivity.
  - cbn [app normpath_loop].
    destruct ((x =? "") || (x =? ".")); [apply IH |].
    destruct (negb (x =? "..") || _ || _); [apply IH |].
    destruct acc; apply IH.
Qed.

(** Plain names are kept as they are. *)
Lemma normpath_loop_plain k ys : forall acc,
  forallb plain_name ys = true ->
  normpath_loop k ys acc = (rev acc ++ ys)%list.
Proof.
  induction ys as [| y ys IH]; intros acc H.
  - cbn. rewrite app_nil_r. reflexivity.
  - cbn [forallb] in H. apply andb_true_iff in H as [Hy Hys].
    apply plain_name_spec in Hy as (H1 & H2 & H3 & _).
    apply String.eqb_neq in H1, H2, H3.
    cbn [normpath_loop]. rewrite H1, H2, H3. cbn [orb negb].
    rewrite (IH _ Hys). cbn [rev]. rewrite <- app_assoc. reflexivity.
Qed.

Lemma normpath_loop_clean k xs : forall acc,
  Forall clean acc -> Forall sep_free xs -> Forall clean (normpath_loop k xs acc).
Proof.
  induction xs as [| x xs IH]; intros acc Hacc Hxs.
  - cbn. apply Forall_rev. exact Hacc.
  - inversion Hxs as [| ? ? Hx Hxs']; subst. cbn [normpath_loop].
    destruct (String.eqb_spec x "") as [-> | Hne]; cbn [orb]; [apply IH; assumption |].
    destruct (x =? "."); [apply IH; assumption |].
    destruct (negb (x =? "..") || _ || _).
    + apply IH; [| assumption]. constructor; [split; assumption | exact Hacc].
    + destruct acc as [| y acc]; apply IH; try assumption.
      inversion Hacc; assumption.
Qed.

Lemma components_repeat_sep k s : components (repeat_char sep k ++ s) = components s.
Proof.
  induction k as [| k IH]; [reflexivity |].
  cbn [repeat_char append].
  change (String sep (repeat_char sep k ++ s)) with ("" ++ String sep (repeat_char sep k ++ s)).
  rewrite components_app_sep, IH. reflexivity.
Qed.

Lemma components_clean_name x : clean x -> components x = [x].
Proof.
  intros [H1 H2]. unfold components. rewrite (split_sep_free _ H2). cbn [filter].
  apply String.eqb_neq in H1. rewrite H1. reflexivity.
Qed.

Lemma components_str_join cs : Forall clean cs -> components (str_join "/" cs) = cs.
Proof.
  induction 1 as [| x l Hx Hl IH]; [reflexivity |].
  destruct l as [| y l].
  - apply components_clean_name. exact Hx.
  - change (str_join "/" (x :: y :: l)) with (x ++ String sep (str_join "/" (y :: l))).
    rewrite components_app_sep, IH, (components_clean_name _ Hx). reflexivity.
Qed.

(** The components of a normalised absolute path: the loop of [normpath]
    over the components of the path. *)
Lemma components_normpath q :
  isabs q = true ->
  components (normpath q) = normpath_loop 1 (components q) [].
Proof.
  intros Habs. unfold normpath.
  assert (Hq : (q =? "") = false) by (destruct q; [discriminate | reflexivity]).
  rewrite Hq. unfold isabs in Habs. rewrite Habs.
  set (k := if startswith "//" q && negb (startswith "///" q) then 2%nat else 1%nat).
  assert (Hk : k <> 0%nat) by (unfold k; destruct (_ && _); discriminate).
  assert (Hne : (repeat_char sep k ++ str_join "/" (normpath_loop k (split sep q) []) =? "")
                = false).
  { destruct k; [congruence | reflexivity]. }
  rewrite Hne, components_repeat_sep, components_str_join.
  - rewrite (normpath_loop_slashes _ _ _ Hk). apply normpath_loop_components.
  - apply normpath_loop_clean; [constructor | apply split_sep_free_all].
Qed.

Lemma components_abspath cwd p :
  isabs cwd = true ->
  components (abspath cwd p) = normpath_loop 1 (components (anchored cwd p)) [].
Proof. intros H. unfold abspath. apply components_normpath, anchored_isabs, H. Qed.

(** *** [relpath] below its start *)

Lemma commonprefix_len_app l r : commonprefix_len l (l ++ r)%list = List.length l.
Proof.
  induction l as [| x l IH]; [destruct r; reflexivity |].
  cbn. rewrite String.eqb_refl, IH. reflexivity.
Qed.

Lemma skipn_length_app {A} (l r : list A) : skipn (List.length l) (l ++ r)%list = r.
Proof. induction l as [| x l IH]; [reflexivity | exact IH]. Qed.

Lemma sep_free_not_endswith x : sep_free x -> endswith_char sep x = false.
Proof.
  unfold sep_free. induction x as [| a x IH]; [reflexivity |].
  cbn [str_contains startswith endswith_char]. intros H.
  apply orb_false_iff in H as [H1 H2]. rewrite andb_true_r in H1.
  destruct x as [| b x].
  - unfold sep. rewrite Ascii.eqb_sym. exact H1.
  - apply IH. exact H2.
Qed.

Lemma endswith_char_app c x d :
  d <> "" -> endswith_char c (x ++ d) = endswith_char c d.
Proof.
  intros Hd. induction x as [| a x IH]; [reflexivity |].
  cbn [append endswith_char]. destruct (x ++ d) eqn:E.
  - destruct x; [cbn in E; congruence | discriminate E].
  - exact IH.
Qed.

Lemma append_nonempty_r a b : b <> "" -> a ++ b <> "".
Proof. destruct a; cbn; [trivial | discriminate]. Qed.

Lemma join_relative a b :
  a <> "" -> endswith_char sep a = false -> startswith "/" b = false ->
  join a b = a ++ "/" ++ b.
Proof.
  intros Ha He Hb. unfold join. rewrite Hb, He.
  apply String.eqb_neq in Ha. rewrite Ha. reflexivity.
Qed.

(** Joining plain names one after the other is joining them with slashes. *)
Lemma join_all_plain cs : forall c,
  c <> "" -> endswith_char sep c = false -> forallb plain_name cs = true ->
  join_all c cs = str_join "/" (c :: cs).
Proof.
  induction cs as [| d cs IH]; intros c Hc He H; [reflexivity |].
  cbn [forallb] in H. apply andb_true_iff in H as [Hd Hcs].
  pose proof (plain_name_spec _ Hd) as (Hd1 & _ & _ & Hd4).
  unfold join_all. cbn [fold_left].
  rewrite (join_relative _ _ Hc He (plain_not_abs _ Hd)).
  change (fold_left join cs (c ++ "/" ++ d)) with (join_all (c ++ "/" ++ d) cs).
  rewrite IH; [| apply append_nonempty_r; discriminate | | exact Hcs].
  - destruct cs as [| e cs]; [reflexivity |].
    cbn [str_join]. rewrite !append_assoc. reflexivity.
  - rewrite endswith_char_app by discriminate.
    change ("/" ++ d) with (String sep "" ++ d).
    rewrite endswith_char_app by exact Hd1.
    apply sep_free_not_endswith. exact Hd4.
Qed.

Lemma join_nonempty a b : b <> "" -> join a b <> "".
Proof.
  intros Hb. unfold join. destruct (startswith "/" b); [exact Hb |].
  destruct ((a =? "") || endswith_char sep a).
  - apply append_nonempty_r. exact Hb.
  - apply append_nonempty_r. discriminate.
Qed.

Lemma join_all_snoc a ds f : join_all a (ds ++ [f])%list = join (join_all a ds) f.
Proof. unfold join_all. rewrite fold_left_app. reflexivity. Qed.

(** A path made of plain names below [start], relative to [start], is
    these names joined with slashes. *)
Lemma relpath_below cwd start ds f :
  isabs cwd = true ->
  forallb plain_name ds = true -> plain_name f = true ->
  relpath cwd (join (join_all start ds) f) start = Some (str_join "/" (ds ++ [f])%list).
Proof.
  intros Hcwd Hds Hf.
  assert (Hall : forallb plain_name (ds ++ [f])%list = true).
  { rewrite forallb_app, Hds. cbn. rewrite Hf. reflexivity. }
  pose proof (plain_name_spec _ Hf) as (Hf1 & _).
  unfold relpath.
  assert (Hne : (join (join_all start ds) f =? "") = false)
    by (apply String.eqb_neq, join_nonempty, Hf1).
  rewrite Hne, <- join_all_snoc.
  rewrite !(components_abspath _ _ Hcwd).
  rewrite (components_anchored_join_all _ _ _ Hall).
  rewrite normpath_loop_app, (normpath_loop_plain _ _ _ Hall), rev_involutive.
  rewrite commonprefix_len_app, Nat.sub_diag, skipn_length_app. cbn [repeat app].
  destruct (ds ++ [f])%list as [| c cs] eqn:E.
  - destruct ds; discriminate E.
  - cbn [forallb] in Hall. apply andb_true_iff in Hall as [Hc Hcs].
    pose proof (plain_name_spec _ Hc) as (Hc1 & _ & _ & Hc4).
    rewrite join_all_plain; try assumption; [reflexivity |].
    apply sep_free_not_endswith. exact Hc4.
Qed.

(** *** The last component *)

Lemma head_tail_sep_free f : sep_free f -> head_tail f = ("", f).
Proof.
  unfold sep_free. induction f as [| c f IH]; [reflexivity |].
  cbn [str_contains startswith head_tail]. intros H.
  apply orb_false_iff in H as [H1 H2]. rewrite andb_true_r in H1.
  rewrite (IH H2). unfold sep. rewrite Ascii.eqb_sym, H1. reflexivity.
Qed.

Lemma head_tail_app_sep p f :
  sep_free f -> head_tail (p ++ String sep f) = (p ++ String sep "", f).
Proof.
  intros Hf. induction p as [| c p IH].
  - cbn [append head_tail]. rewrite (head_tail_sep_free _ Hf), Ascii.eqb_refl. reflexivity.
  - cbn [append head_tail]. rewrite IH.
    destruct (Ascii.eqb c sep); [reflexivity |].
    destruct (p ++ String sep "") eqn:E; [| reflexivity].
    destruct p; discriminate E.
Qed.

Lemma str_join_snoc ds f :
  ds <> [] -> str_join "/" (ds ++ [f])%list = str_join "/" ds ++ String sep f.
Proof.
  induction ds as [| d ds IH]; [congruence |]. intros _.
  destruct ds as [| e ds]; [reflexivity |].
  change (str_join "/" ((d :: e :: ds) ++ [f])%list)
    with (d ++ "/" ++ str_join "/" ((e :: ds) ++ [f])%list).
  rewrite IH by discriminate.
  change (str_join "/" (d :: e :: ds)) with (d ++ "/" ++ str_join "/" (e :: ds)).
  rewrite !append_assoc. reflexivity.
Qed.

Lemma str_join_plain_relative cs :
  cs <> [] -> forallb plain_name cs = true -> startswith "/" (str_join "/" cs) = false.
Proof.
  destruct cs as [| c cs]; [congruence |]. intros _ H.
  cbn [forallb] in H. apply andb_true_iff in H as [Hc _].
  pose proof (plain_name_spec _ Hc) as (Hc1 & _).
  destruct cs as [| d cs]; cbn [str_join].
  - apply plain_not_abs. exact Hc.
  - rewrite startswith_app by exact Hc1. apply plain_not_abs. exact Hc.
Qed.

(** The file name is the last component of the destination. *)
Lemma basename_join_below o ds f :
  forallb plain_name ds = true -> plain_name f = true ->
  basename (join o (str_join "/" (ds ++ [f])%list)) = f.
Proof.
  intros Hds Hf. pose proof (plain_name_spec _ Hf) as (_ & _ & _ & Hf4).
  assert (Hall : forallb plain_name (ds ++ [f])%list = true).
  { rewrite forallb_app, Hds. cbn. rewrite Hf. reflexivity. }
  assert (Hrel : startswith "/" (str_join "/" (ds ++ [f])%list) = false).
  { apply str_join_plain_relative; [destruct ds; discriminate | exact Hall]. }
  unfold basename, join. rewrite Hrel.
  destruct ds as [| d ds].
  - cbn [app str_join].
    destruct (String.eqb_spec o "") as [-> | Ho]; cbn [orb].
    + cbn [append]. rewrite (head_tail_sep_free _ Hf4). reflexivity.
    + destruct (endswith_char sep o) eqn:E.
      * destruct (endswith_char_inv _ _ E) as [o0 ->].
        rewrite append_assoc. cbn [append]. rewrite (head_tail_app_sep _ _ Hf4). reflexivity.
      * change ("/" ++ f) with (String sep f).
        rewrite (head_tail_app_sep _ _ Hf4). reflexivity.
  - rewrite str_join_snoc by discriminate.
    destruct ((o =? "") || endswith_char sep o).
    + rewrite <- append_assoc, (head_tail_app_sep _ _ Hf4). reflexivity.
    + rewrite <- !append_assoc, (head_tail_app_sep _ _ Hf4). reflexivity.
Qed.

End PathFacts.

(** ** The path mapper (C5) *)

Section PathMapper.

Import PathFacts.

Context {S : Type} {tables : UnicodeLower}.
Variable host : Host S.
Variable cwd input_dir output_dir : string.
Variable extensions : list string.
Variable use_gpu gpu_available : bool.

Hypothesis cwd_absolute : os_path.isabs cwd = true.
Hypothesis makedirs_answers : makedirs_available host.

Let flag := gpu_available && use_gpu.

Lemma for_fold_cons_run {A B} (x : A) (l : list A) (b b' : B) (body : B -> A -> M S B)
    s s1 e1 :
  body b x s = mkRes (Ret b') s1 e1 ->
  for_fold (x :: l) b body s
  = mkRes (out (for_fold l b' body s1)) (st (for_fold l b' body s1))
          (e1 ++ evs (for_fold l b' body s1)).
Proof.
  intros H. cbn [for_fold].
  rewrite (bind_run_ret _ _ s b') by (rewrite H; reflexivity).
  rewrite H. reflexivity.
Qed.

(** One file of the directory reached by [ds]. *)
Lemma collect_file_run ds f total acc s :
  forallb plain_name ds = true -> plain_name f = true ->
  collect_file host cwd input_dir output_dir extensions use_gpu gpu_available
    (os_path.join_all input_dir ds) (total, acc) f s
  = if qualifies extensions f then
      let item := mirror_item input_dir output_dir flag ds f in
      mkRes (Ret ((total + 1)%Z, (acc ++ [item])%list))
            (snd (host _ (os_makedirs (os_path.dirname (snd (fst item))) true) s))
            [makedirs_event item]
    else mkRes (Ret (total, acc)) s [].
Proof.
  intros Hds Hf. unfold collect_file.
  destruct (qualifies extensions f); [| reflexivity].
  rewrite (relpath_below _ _ _ _ cwd_absolute Hds Hf). cbn zeta.
  set (p := os_path.dirname (os_path.join output_dir (str_join "/" (ds ++ [f])%list))).
  rewrite (bind_run_ret (call host (os_makedirs p true)) _ s tt)
    by (rewrite call_run; apply makedirs_answers).
  rewrite call_run, makedirs_answers. reflexivity.
Qed.

(** The files of one directory. *)
Lemma collect_directory_run ds files : forall total acc s,
  forallb plain_name ds = true -> forallb plain_name files = true ->
  let new := map (mirror_item input_dir output_dir flag ds)
                 (filter (qualifies extensions) files) in
  exists s',
    for_fold files (total, acc)
      (collect_file host cwd input_dir output_dir extensions use_gpu gpu_available
         (os_path.join_all input_dir ds)) s
    = mkRes (Ret ((total + Z.of_nat (List.length new))%Z, (acc ++ new)%list)) s'
            (map makedirs_event new).
Proof.
  induction files as [| f files IH]; intros total acc s Hds Hfs; cbn zeta.
  - exists s. cbn. rewrite Z.add_0_r, app_nil_r. reflexivity.
  - cbn [forallb] in Hfs. apply andb_true_iff in Hfs as [Hf Hfs].
    pose proof (collect_file_run ds f total acc s Hds Hf) as Hstep.
    cbn [filter]. destruct (qualifies extensions f).
    + cbn zeta in Hstep. rewrite (for_fold_cons_run _ _ _ _ _ _ _ _ Hstep).
      destruct (IH (total + 1)%Z (acc ++ [mirror_item input_dir output_dir flag ds f])%list
                  (snd (host _ (os_makedirs
                                  (os_path.dirname
                                     (snd (fst (mirror_item input_dir output_dir flag ds f))))
                                  true) s))
                  Hds Hfs) as [s' ->].
      exists s'. cbn [out st evs map List.length app].
      rewrite <- app_assoc, Nat2Z.inj_succ, <- Z.add_1_l, Z.add_assoc. reflexivity.
    + rewrite (for_fold_cons_run _ _ _ _ _ _ _ _ Hstep).
      destruct (IH total acc s Hds Hfs) as [s' ->]. exists s'. reflexivity.
Qed.

(** The directories that the walk yields. *)
Lemma collect_walk_run (listing : Listing) : forall total acc s,
  plain_listing listing = true ->
  let new := mirrored_items input_dir output_dir extensions flag listing in
  exists s',
    for_fold (map (walk_entry input_dir) listing) (total, acc)
      (fun vars '(root, _, files) =>
         for_fold files vars
           (collect_file host cwd input_dir output_dir extensions use_gpu gpu_available root)) s
    = mkRes (Ret ((total + Z.of_nat (List.length new))%Z, (acc ++ new)%list)) s'
            (map makedirs_event new).
Proof.
  induction listing as [| [[ds dirs] files] listing IH]; intros total acc s Hp; cbn zeta.
  - exists s. cbn. rewrite Z.add_0_r, app_nil_r. reflexivity.
  - cbn [plain_listing forallb] in Hp. apply andb_true_iff in Hp as [Hd Hl].
    apply andb_true_iff in Hd as [Hds Hfs].
    destruct (collect_directory_run ds files total acc s Hds Hfs) as [s1 Hdir].
    cbn zeta in Hdir. cbn [map walk_entry].
    rewrite (for_fold_cons_run
               (os_path.join_all input_dir ds, dirs, files)
               (map (walk_entry input_dir) listing) (total, acc) _
               (fun vars '(root, _, files) =>
                  for_fold files vars
                    (collect_file host cwd input_dir output_dir extensions use_gpu
                       gpu_available root))
               s s1 _ Hdir).
    set (new := map (mirror_item input_dir output_dir flag ds)
                    (filter (qualifies extensions) files)) in *.
    destruct (IH (total + Z.of_nat (List.length new))%Z (acc ++ new)%list s1 Hl) as [s' ->].
    exists s'.
    cbn [out st evs]. unfold mirrored_items. cbn [flat_map]. fold new.
    rewrite length_app, Nat2Z.inj_add, Z.add_assoc, <- app_assoc, map_app. reflexivity.
Qed.

Lemma collect_files_run (listing : Listing) s :
  fst (host _ (os_walk input_dir) s) = Ret (map (walk_entry input_dir) listing) ->
  plain_listing listing = true ->
  let items := mirrored_items input_dir output_dir extensions flag listing in
  let r := collect_files host cwd input_dir output_dir extensions use_gpu gpu_available s in
  out r = Ret (Z.of_nat (List.length items), items) /\
  evs r = ECall (os_walk input_dir) (Ret (map (walk_entry input_dir) listing))
          :: map makedirs_event items.
Proof.
  intros Hwalk Hp. cbn zeta. unfold collect_files.
  rewrite (bind_run_ret (call host (os_walk input_dir)) _ s _)
    by (rewrite call_run; exact Hwalk).
  rewrite call_run, Hwalk. cbn [out st evs].
  destruct (collect_walk_run listing 0%Z [] (snd (host _ (os_walk input_dir) s)) Hp)
    as [s' ->].
  cbn [out evs app]. split; reflexivity.
Qed.

End PathMapper.

Lemma collect_files_no_conversion {S} {tables : UnicodeLower} (host : Host S)
    cwd input_dir output_dir
    extensions use_gpu gpu_available :
  always (fun e => is_conversion_event e = false)
    (collect_files host cwd input_dir output_dir extensions use_gpu gpu_available).
Proof. script_always. Qed.

Lemma plain_listing_entry (listing : Listing) ds dirs files :
  plain_listing listing = true -> In (ds, dirs, files) listing ->
  forallb plain_name ds = true /\ forallb plain_name files = true.
Proof.
  unfold plain_listing. intros H Hin. rewrite forallb_forall in H.
  specialize (H _ Hin). cbn in H. apply andb_true_iff in H. exact H.
Qed.

(** C5.  Let the walk of the input root yield directories whose names, like
    those of their files, are plain, let the working directory be an
    absolute path and let [os.makedirs] answer.  Then the enumeration returns
    one work item per qualifying file and no other; the destination of the
    file [f] in the directory reached by the names [ds] is the output root
    joined with [relpath(source, input root)], which is [ds] and then [f]
    joined with slashes, so that the directories are mirrored and the file
    name is kept; and the parent directory of every destination is created
    by a call of the enumeration, which makes no call of a conversion and
    whose events all come before those of the dispatch. *)
Theorem destination_mirrors_source {S} {tables : UnicodeLower} (host : Host S)
    (cwd input_dir output_dir : string) (extensions : list string)
    (use_gpu gpu_available : bool) (listing : Listing) (s : S) :
  os_path.isabs cwd = true ->
  makedirs_available host ->
  fst (host _ (os_walk input_dir) s) = Ret (map (walk_entry input_dir) listing) ->
  plain_listing listing = true ->
  let flag := gpu_available && use_gpu in
  let r := collect_files host cwd input_dir output_dir extensions use_gpu gpu_available s in
  let items := mirrored_items input_dir output_dir extensions flag listing in
  out r = Ret (Z.of_nat (List.length items), items) /\
  evs r = ECall (os_walk input_dir) (Ret (map (walk_entry input_dir) listing))
          :: map makedirs_event items /\
  Forall (fun e => is_conversion_event e = false) (evs r) /\
  (forall ds dirs files f,
     In (ds, dirs, files) listing -> In f files -> qualifies extensions f = true ->
     let input_path := os_path.join (os_path.join_all input_dir ds) f in
     let output_path := os_path.join output_dir (Py.str_join "/" (ds ++ [f])%list) in
     os_path.relpath cwd input_path input_dir = Some (Py.str_join "/" (ds ++ [f])%list) /\
     In (input_path, output_path, flag) items /\
     os_path.basename output_path = f /\
     In (ECall (os_makedirs (os_path.dirname output_path) true) (Ret tt)) (evs r)) /\
  (forall has_cuda parallel s0 t0,
     host _ time_time s0 = (Ret t0, s) ->
     exists rest,
       evs (after_probe host has_cuda cwd input_dir output_dir extensions
              use_gpu parallel gpu_available s0)
       = (ECall time_time (Ret t0) :: evs r ++ rest)%list).
Proof.
  intros Hcwd Hmk Hwalk Hplain. cbn zeta.
  destruct (collect_files_run host cwd input_dir output_dir extensions use_gpu
              gpu_available Hcwd Hmk listing s Hwalk Hplain) as [Hout Hevs].
  split; [exact Hout |]. split; [exact Hevs |]. split; [| split].
  - apply (always_events _ _ s
             (collect_files_no_conversion host cwd input_dir output_dir extensions
                use_gpu gpu_available)).
  - intros ds dirs files f Hin Hf Hq.
    destruct (plain_listing_entry _ _ _ _ Hplain Hin) as [Hds Hfs].
    assert (Hpf : plain_name f = true) by (rewrite forallb_forall in Hfs; apply Hfs, Hf).
    assert (Hitem : In (mirror_item input_dir output_dir (gpu_available && use_gpu) ds f)
                       (mirrored_items input_dir output_dir extensions
                          (gpu_available && use_gpu) listing)).
    { unfold mirrored_items. apply in_flat_map. exists (ds, dirs, files).
      split; [exact Hin |]. apply in_map, filter_In. split; assumption. }
    split; [apply PathFacts.relpath_below; assumption |].
    split; [exact Hitem |].
    split; [apply PathFacts.basename_join_below; assumption |].
    rewrite Hevs. right.
    apply (in_map makedirs_event) in Hitem. exact Hitem.
  - intros has_cuda parallel s0 t0 Ht. unfold after_probe.
    rewrite (bind_run_ret (call host time_time) _ s0 t0)
      by (rewrite call_run, Ht; reflexivity).
    rewrite call_run, Ht. cbn [fst snd out st evs app].
    rewrite (bind_run_ret _ _ s _ Hout). cbn [out st evs].
    eexists. reflexivity.
Qed.

Lemma sim_makedirs_available cfg : makedirs_available (sim_host cfg).
Proof. intros p s. reflexivity. Qed.

(** The theorem on the scenario of the specification. *)
Lemma destination_mirrors_source_witness :
  let r := collect_files (sim_host scenario) "/home/u" "in" "out" [".tif"; ".tiff"]
             false false 0%float in
  os_path.isabs "/home/u" = true /\
  makedirs_available (sim_host scenario) /\
  fst (sim_host scenario _ (os_walk "in") 0%float)
  = Ret (map (walk_entry "in") scenario_listing) /\
  plain_listing scenario_listing = true /\
  out r = Ret (2%Z, [("in/a/img1.tif", "out/a/img1.tif", false);
                     ("in/a/b/img2.tiff", "out/a/b/img2.tiff", false)]) /\
  evs r = [ECall (os_walk "in") (Ret scenario_walk);
           ECall (os_makedirs "out/a" true) (Ret tt);
           ECall (os_makedirs "out/a/b" true) (Ret tt)].
Proof.
  cbn zeta.
  destruct (destination_mirrors_source (sim_host scenario) "/home/u" "in" "out"
              [".tif"; ".tiff"] false false scenario_listing 0%float
              eq_refl (sim_makedirs_available scenario) eq_refl eq_refl)
    as (H1 & H2 & _).
  split; [reflexivity |]. split; [apply sim_makedirs_available |].
  split; [reflexivity |]. split; [reflexivity |].
  split; [rewrite H1 | rewrite H2]; vm_compute; reflexivity.
Defined.

(** ** The extension filter (C6) *)

(** On ASCII text [lower] is the lowering of the letters A to Z, whatever
    the Unicode tables are. *)
Lemma lower_of_ascii {tables : UnicodeLower} s :
  isascii s = true -> lower s = lower_ascii s.
Proof. intros H. unfold lower. rewrite H. reflexivity. Qed.

(** What the code tests: the lower-cased extension is an entry of the list,
    as the entry is written. *)
Lemma qualifies_iff {tables : UnicodeLower} extensions file :
  qualifies extensions file = true
  <-> In (lower (snd (os_path.splitext file))) extensions.
Proof.
  unfold qualifies, list_contains. rewrite existsb_exists. split.
  - intros (e & Hin & He). apply String.eqb_eq in He. subst e. exact Hin.
  - intros H. eexists. split; [exact H | apply String.eqb_refl].
Qed.

(** On a list whose entries are in lower case, the code and the
    specification agree. *)
Lemma qualifies_lower_case_entries {tables : UnicodeLower} extensions file :
  Forall (fun entry => lower entry = entry) extensions ->
  qualifies extensions file = qualifies_ignoring_case extensions file.
Proof.
  intros H. unfold qualifies, qualifies_ignoring_case, list_contains. cbn zeta.
  induction H as [| e l He _ IH]; [reflexivity |].
  cbn [existsb]. rewrite IH, He, String.eqb_sym. reflexivity.
Qed.

(** C6, on the input where the code departs from it.  With the extension
    list [['.TIF']], the file [IMG.TIF] has the extension [.TIF], which is
    a member of the list as it is written and up to the case of letters,
    and yet it does not qualify: line 193 lower-cases the extension of the
    file and compares it with the entries as they are written.  The batch
    over a directory that holds this one file enumerates no work item,
    converts nothing and prints the tally 0/0, while with the entry in
    lower case the file is taken. *)
Theorem upper_case_entry_not_matched :
  (forall tables : UnicodeLower,
     os_path.splitext "IMG.TIF" = ("IMG", ".TIF") /\
     In (snd (os_path.splitext "IMG.TIF")) [".TIF"] /\
     @lower tables ".TIF" = ".tif" /\
     @qualifies tables [".TIF"] "IMG.TIF" = false /\
     @qualifies_ignoring_case tables [".TIF"] "IMG.TIF" = true /\
     @qualifies tables [".tif"] "IMG.TIF" = true) /\
  (let r := batch_compress (sim_host scenario_upper_case) false "/home/u" "in" "out"
              [".TIF"] false false 0%float in
   out r = Ret tt /\
   outcomes (evs r) = [] /\
   existsb is_conversion_event (evs r) = false /\
   tallies (evs r) = [(0, 0)%Z]) /\
  (let r := batch_compress (sim_host scenario_upper_case) false "/home/u" "in" "out"
              [".tif"] false false 0%float in
   out r = Ret tt /\
   outcomes (evs r) = [true] /\
   tallies (evs r) = [(1, 1)%Z]).
Proof.
  split; [| split].
  - intros tables. unfold qualifies, qualifies_ignoring_case, lower.
    repeat split; try reflexivity. left. reflexivity.
  - vm_compute. repeat split.
  - vm_compute. repeat split.
Qed.

Example scenario_extensions :
  map (qualifies [".tif"; ".tiff"]) ["img1.tif"; "img2.tiff"; "notes.txt"; "IMG.TIF"; "a.Tiff"; "tif"]
  = [true; true; false; true; true; false].
Proof. reflexivity. Qed.

Example accelerated_create :
  let r := compress_geotiff (sim_host scenario) true "in/a/img1.tif" "out/a/img1.tif"
             true 0%float in
  out r = Ret true /\ some_accelerated_create (evs r) = true.
Proof. vm_compute. split; reflexivity. Qed.

(** * Further properties of the script *)

(** ** Runs that return *)

Section Inversion.

Context {S : Type}.

Lemma bind_inv_ret {A B} (m : M S A) (k : A -> M S B) s b :
  out (bind m k s) = Ret b ->
  exists a,
    out (m s) = Ret a /\
    out (k a (st (m s))) = Ret b /\
    evs (bind m k s) = (evs (m s) ++ evs (k a (st (m s))))%list /\
    st (bind m k s) = st (k a (st (m s))).
Proof.
  unfold bind. destruct (out (m s)) as [a | e]; [| discriminate].
  cbn [out st evs]. intros H. exists a. repeat split. exact H.
Qed.

Lemma call_inv_ret {A} (host : Host S) (c : ext A) s a :
  out (call host c s) = Ret a ->
  fst (host A c s) = Ret a /\
  evs (call host c s) = [ECall c (Ret a)] /\
  st (call host c s) = snd (host A c s).
Proof.
  rewrite call_run. cbn [out st evs]. intros H. rewrite H. repeat split.
Qed.

Lemma attr_inv_ret {A} (o : option A) name s a :
  out (attr (S:=S) o name s) = Ret a ->
  o = Some a /\ evs (attr (S:=S) o name s) = [] /\ st (attr (S:=S) o name s) = s.
Proof.
  destruct o as [x |]; cbn; [| discriminate].
  intros H. injection H as ->. repeat split.
Qed.

(** A loop that returns went through every element; its events are those of
    the iterations, one after the other. *)
Lemma for_each_inv_ret {A} (body : A -> M S unit) (Q : A -> list Event -> Prop) l :
  (forall x s, In x l -> out (body x s) = Ret tt -> Q x (evs (body x s))) ->
  forall s, out (for_each l body s) = Ret tt ->
  exists ess, evs (for_each l body s) = List.concat ess /\ Forall2 Q l ess.
Proof.
  induction l as [| x l IH]; intros HQ s H.
  - exists []. split; [reflexivity | constructor].
  - cbn [for_each] in *. apply bind_inv_ret in H as ([] & Hx & Hl & He & _).
    destruct (IH (fun y s' Hy => HQ y s' (or_intror Hy)) _ Hl) as (ess & Hess & HF).
    exists (evs (body x s) :: ess). split.
    + rewrite He, Hess. reflexivity.
    + constructor; [apply HQ; [left; reflexivity | exact Hx] | exact HF].
Qed.

End Inversion.

(** One step back along a run that returned: the run of a [bind] is split,
    the event of a call is written out. *)
Ltac invert_step :=
  match goal with
  | H : out (bind ?m ?k ?s) = Ret _ |- _ =>
      let a := fresh "a" in
      let Hm := fresh "Hm" in
      let Hk := fresh "Hk" in
      let He := fresh "He" in
      apply bind_inv_ret in H as (a & Hm & Hk & He & _);
      rewrite He; clear He; cbv beta in Hk, Hm |- *
  | H : out (call ?host ?c ?s) = Ret _ |- _ =>
      let Hc := fresh "Hc" in
      apply call_inv_ret in H as (_ & Hc & _); rewrite Hc; clear Hc
  | H : out (attr ?o ?name ?s) = Ret _ |- _ =>
      let Ho := fresh "Ho" in
      let He := fresh "He" in
      let Hs := fresh "Hs" in
      apply attr_inv_ret in H as (Ho & He & Hs); rewrite ?He, ?Hs in *; clear He Hs;
      subst
  end.

(** ** A conversion that succeeds (lines 59 to 144) *)

Section Success.

Context {S : Type}.
Variable host : Host S.
Variable has_cuda : bool.

Lemma copy_band_returns src dst i s :
  out (copy_band host src dst i s) = Ret tt ->
  is_copy_band_trace src dst i (evs (copy_band host src dst i s)).
Proof.
  intros H. unfold copy_band in *. repeat invert_step.
  repeat eexists.
Qed.

Lemma tag_band_returns dst i s :
  out (tag_band host dst i s) = Ret tt ->
  is_tag_band_trace dst i (evs (tag_band host dst i s)).
Proof.
  intros H. unfold tag_band in *. repeat invert_step.
  repeat eexists.
Qed.

Lemma options_choice_run (c : bool) (options : list string) (s : S) :
  (if c then (print MsgGpuAccel ;; ret (options ++ gpu_options)%list)%py
   else (print MsgCpuOnly ;; ret options)%py) s
  = mkRes (Ret (options ++ (if c then gpu_options else []))%list) s
          [EPrint (if c then MsgGpuAccel else MsgCpuOnly)].
Proof. destruct c; cbn; [| rewrite app_nil_r]; reflexivity. Qed.

Lemma compress_geotiff_true_inv input_file output_file use_gpu s :
  out (compress_geotiff host has_cuda input_file output_file use_gpu s) = Ret true ->
  out (compress_geotiff_body host has_cuda input_file output_file use_gpu s) = Ret true /\
  evs (compress_geotiff host has_cuda input_file output_file use_gpu s)
  = evs (compress_geotiff_body host has_cuda input_file output_file use_gpu s).
Proof.
  unfold compress_geotiff, try_except.
  destruct (out (compress_geotiff_body host has_cuda input_file output_file use_gpu s))
    as [b | e] eqn:E.
  - rewrite E. intros H. split; [exact H | reflexivity].
  - cbn. discriminate.
Qed.

End Success.

(** X1.  A conversion that returns [True] has done all of this, in this
    order and nothing else: read the clock, set the cache, opened the input,
    read the size, the band count, the type of band 1, the projection and
    the geotransform, printed which encoder it uses, created the output with
    the size, band count and type of the source and the creation options,
    copied the projection and the geotransform as read, copied every band
    from 1 to the band count, built the overviews 2, 4, 8 and 16 with
    nearest-neighbour resampling, tagged every band, read the clock again and
    printed the success line with the difference of the two clock
    readings. *)
Theorem successful_conversion_trace {S} (host : Host S) (has_cuda : bool)
    (input_file output_file : string) (use_gpu : bool) (s : S) :
  out (compress_geotiff host has_cuda input_file output_file use_gpu s) = Ret true ->
  exists start_time end_time src dst info cpu_count drv err1 err2 err3 copies tags,
    evs (compress_geotiff host has_cuda input_file output_file use_gpu s)
    = conversion_trace has_cuda input_file output_file use_gpu start_time end_time
        src dst info cpu_count drv err1 err2 err3 copies tags /\
    Forall2 (is_copy_band_trace src dst) (range 1 (src_bands info + 1)) copies /\
    Forall2 (is_tag_band_trace dst) (range 1 (src_bands info + 1)) tags.
Proof.
  intros H. apply compress_geotiff_true_inv in H as [H ->].
  unfold compress_geotiff_body in *.
  do 3 invert_step. destruct a1 as [src |]; [| cbn in Hk; discriminate Hk].
  repeat invert_step.
  match goal with
  | H : out (match ?x with _ => _ end _) = Ret true |- _ =>
      destruct x as [dst |]; [| cbn in H; discriminate H]
  end.
  repeat invert_step.
  rewrite options_choice_run in *. cbn [out evs print ret] in *.
  match goal with H : Ret _ = Ret ?o |- context [Driver_Create _ _ _ _ _ _ ?o] =>
    injection H as H; subst o end.
  destruct a0.
  repeat match goal with
  | H : out (for_each _ (copy_band host src dst) _) = Ret ?u |- _ =>
      destruct u;
      apply (for_each_inv_ret _ (is_copy_band_trace src dst)) in H as (copies & -> & Hcopies);
      [| intros; apply copy_band_returns; assumption]
  | H : out (for_each _ (tag_band host dst) _) = Ret ?u |- _ =>
      destruct u;
      apply (for_each_inv_ret _ (is_tag_band_trace dst)) in H as (tags & -> & Htags);
      [| intros; apply tag_band_returns; assumption]
  end.
  eexists _, _, src, dst, (Build_SourceInfo _ _ _ _ _ _ _), _, _, _, _, _, copies, tags.
  split; [| split; [exact Hcopies | exact Htags]].
  unfold conversion_trace, conversion_head, creation_options.
  cbn [app src_width src_height src_bands src_band1 src_data_type src_projection
       src_geo_transform].
  reflexivity.
Qed.

(** The theorem on the simulated host. *)
Lemma successful_conversion_trace_witness :
  let r := compress_geotiff (sim_host scenario) false
             "in/a/img1.tif" "out/a/img1.tif" false 0%float in
  out r = Ret true /\
  exists start_time end_time src dst info cpu_count drv err1 err2 err3 copies tags,
    evs r = conversion_trace false "in/a/img1.tif" "out/a/img1.tif" false
              start_time end_time src dst info cpu_count drv err1 err2 err3 copies tags /\
    Forall2 (is_copy_band_trace src dst) (range 1 (src_bands info + 1)) copies /\
    Forall2 (is_tag_band_trace dst) (range 1 (src_bands info + 1)) tags.
Proof.
  cbn zeta.
  assert (H : out (compress_geotiff (sim_host scenario) false
                     "in/a/img1.tif" "out/a/img1.tif" false 0%float) = Ret true)
    by (vm_compute; reflexivity).
  split; [exact H |].
  exact (successful_conversion_trace (sim_host scenario) false
           "in/a/img1.tif" "out/a/img1.tif" false 0%float H).
Defined.

(** X2.  A band copy that returns has read the array of band [i] of the
    source and written that same array to band [i] of the destination, then
    read the no-data value of the source band and set a no-data value on the
    destination band: 0 when the source has none ([None]) or has zero
    (which Python takes as false, minus zero included), and the value read
    otherwise, a NaN included. *)
Theorem band_copied_as_read {S} (host : Host S) (src dst : Dataset) (i : Z) (s : S) :
  out (copy_band host src dst i s) = Ret tt ->
  exists src_band dst_band data nodata value err1 err2,
    evs (copy_band host src dst i s)
    = [ ECall (Dataset_GetRasterBand src i) (Ret (Some src_band));
        ECall (Dataset_GetRasterBand dst i) (Ret (Some dst_band));
        ECall (Band_ReadAsArray src_band) (Ret data);
        ECall (Band_WriteArray dst_band data) (Ret err1);
        ECall (Band_GetNoDataValue src_band) (Ret nodata);
        ECall (Band_SetNoDataValue dst_band value) (Ret err2) ] /\
    match nodata with
    | None => value = 0%float
    | Some x => (PrimFloat.eqb x 0 = true -> value = 0%float) /\
                (PrimFloat.eqb x 0 = false -> value = x)
    end.
Proof.
  intros H. destruct (copy_band_returns host src dst i s H)
    as (sb & db & data & nodata & e1 & e2 & He).
  exists sb, db, data, nodata, (or_zero nodata), e1, e2. split; [exact He |].
  destruct nodata as [x |]; cbn [or_zero]; [| reflexivity].
  destruct (PrimFloat.eqb x 0); split; intros E; try reflexivity; discriminate E.
Qed.

(** The theorem on a simulated host whose bands have the no-data value
    255: it is the value set on the destination. *)
Lemma band_copied_as_read_witness :
  let host := sim_host_with_nodata (Some 255%float) scenario in
  let r := copy_band host (DatasetRef 1) (DatasetRef 2) 2 0%float in
  out r = Ret tt /\
  (exists src_band dst_band data nodata value err1 err2,
     evs r
     = [ ECall (Dataset_GetRasterBand (DatasetRef 1) 2) (Ret (Some src_band));
         ECall (Dataset_GetRasterBand (DatasetRef 2) 2) (Ret (Some dst_band));
         ECall (Band_ReadAsArray src_band) (Ret data);
         ECall (Band_WriteArray dst_band data) (Ret err1);
         ECall (Band_GetNoDataValue src_band) (Ret nodata);
         ECall (Band_SetNoDataValue dst_band value) (Ret err2) ] /\
     match nodata with
     | None => value = 0%float
     | Some x => (PrimFloat.eqb x 0 = true -> value = 0%float) /\
                 (PrimFloat.eqb x 0 = false -> value = x)
     end) /\
  evs r
  = [ ECall (Dataset_GetRasterBand (DatasetRef 1) 2) (Ret (Some (BandRef 102)));
      ECall (Dataset_GetRasterBand (DatasetRef 2) 2) (Ret (Some (BandRef 202)));
      ECall (Band_ReadAsArray (BandRef 102)) (Ret (Some (ArrayRef 102)));
      ECall (Band_WriteArray (BandRef 202) (Some (ArrayRef 102))) (Ret 0%Z);
      ECall (Band_GetNoDataValue (BandRef 102)) (Ret (Some 255%float));
      ECall (Band_SetNoDataValue (BandRef 202) 255%float) (Ret 0%Z) ].
Proof.
  cbn zeta.
  assert (H : out (copy_band (sim_host_with_nodata (Some 255%float) scenario)
                     (DatasetRef 1) (DatasetRef 2) 2 0%float)
              = Ret tt) by (vm_compute; reflexivity).
  split; [exact H |]. split; [| vm_compute; reflexivity].
  exact (band_copied_as_read (sim_host_with_nodata (Some 255%float) scenario)
           (DatasetRef 1) (DatasetRef 2) 2 0%float H).
Defined.

(** Bands without a no-data value get 0. *)
Example band_without_nodata :
  exists src_band dst_band err,
    skipn 4 (evs (copy_band (sim_host scenario) (DatasetRef 1) (DatasetRef 2) 2 0%float))
    = [ ECall (Band_GetNoDataValue src_band) (Ret None);
        ECall (Band_SetNoDataValue dst_band 0%float) (Ret err) ].
Proof. vm_compute. repeat eexists. Qed.

(** [or_zero] on the values that Python takes as false, and on others. *)
Example or_zero_values :
  or_zero None = 0%float /\ or_zero (Some 0%float) = 0%float /\
  or_zero (Some (-0)%float) = 0%float /\ or_zero (Some 255%float) = 255%float /\
  or_zero (Some (-9999)%float) = (-9999)%float.
Proof. vm_compute. repeat split. Qed.

(** ** What a conversion never does *)

Lemma guarded_seen before after es : guarded before after true es = true.
Proof.
  induction es as [| e es IH]; [reflexivity |].
  cbn [guarded orb]. rewrite orb_true_r, IH. reflexivity.
Qed.

Lemma guarded_app before after es1 : forall seen es2,
  guarded before after seen (es1 ++ es2)%list
  = guarded before after seen es1
    && guarded before after (seen || existsb before es1) es2.
Proof.
  induction es1 as [| e es1 IH]; intros seen es2.
  - cbn. rewrite orb_false_r. reflexivity.
  - cbn [app guarded existsb]. rewrite IH, andb_assoc, orb_assoc. reflexivity.
Qed.

Lemma guarded_quiet before after es seen :
  Forall (fun e => after e = false) es -> guarded before after seen es = true.
Proof.
  intros H. revert seen. induction H as [| e es He _ IH]; intros seen; [reflexivity |].
  cbn [guarded]. rewrite He, IH. reflexivity.
Qed.

(** What [guarded] says of a split of the events. *)
Lemma guarded_split before after pre : forall seen e post,
  guarded before after seen (pre ++ e :: post)%list = true ->
  after e = true -> seen || existsb before pre = true.
Proof.
  induction pre as [| x pre IH]; intros seen e post H He.
  - cbn [app guarded] in H. rewrite He in H. cbn [negb orb] in H.
    apply andb_true_iff in H as [H _]. rewrite H. reflexivity.
  - cbn [app guarded] in H. apply andb_true_iff in H as [_ H].
    cbn [existsb]. rewrite orb_assoc. apply (IH _ _ _ H He).
Qed.

Section Guard.

Context {S : Type}.
Variable host : Host S.
Variable has_cuda : bool.

Let keeps_guard {A} (m : M S A) : Prop :=
  forall seen s, guarded opened_dataset is_create seen (evs (m s)) = true.

Lemma keeps_guard_quiet {A} (m : M S A) :
  always (fun e => is_create e = false) m -> keeps_guard m.
Proof. intros H seen s. apply guarded_quiet, (always_events _ _ s H). Qed.

Lemma keeps_guard_bind {A B} (m : M S A) (k : A -> M S B) :
  always (fun e => is_create e = false) m -> (forall a, keeps_guard (k a)) ->
  keeps_guard (bind m k).
Proof.
  intros Hm Hk seen s. pose proof (keeps_guard_quiet m Hm seen s) as Hq.
  destruct (out (m s)) as [a | e] eqn:E.
  - rewrite (bind_run_ret _ _ _ _ E). cbn [evs].
    rewrite guarded_app, Hq. apply Hk.
  - rewrite (bind_run_raise _ _ _ _ E). exact Hq.
Qed.

(** From the [Open] on: a dataset was opened, or nothing is created. *)
Lemma keeps_guard_open {B} (p : string) (k : option Dataset -> M S B) :
  always (fun e => is_create e = false) (k None) ->
  keeps_guard (bind (call host (gdal_Open p)) k).
Proof.
  intros Hnone seen s.
  destruct (fst (host _ (gdal_Open p) s)) as [[src |] | e] eqn:E.
  - rewrite (bind_run_ret _ _ s (Some src)) by (rewrite call_run; exact E).
    rewrite call_run, E. cbn [out st evs app guarded opened_dataset is_create create_options].
    rewrite orb_true_r. apply guarded_seen.
  - rewrite (bind_run_ret _ _ s None) by (rewrite call_run; exact E).
    rewrite call_run, E. cbn [out st evs app guarded opened_dataset is_create create_options].
    rewrite orb_false_r. apply guarded_quiet, (always_events _ _ _ Hnone).
  - rewrite (bind_run_raise _ _ s e) by (rewrite call_run; exact E).
    rewrite call_run, E. reflexivity.
Qed.

Lemma compress_geotiff_guarded input_file output_file use_gpu :
  keeps_guard (compress_geotiff host has_cuda input_file output_file use_gpu).
Proof.
  intros seen s. unfold compress_geotiff, try_except.
  assert (Hbody : keeps_guard
                    (compress_geotiff_body host has_cuda input_file output_file use_gpu)).
  { unfold compress_geotiff_body.
    do 2 (apply keeps_guard_bind; [always_tac | intros]).
    apply keeps_guard_open. always_tac. }
  destruct (out (compress_geotiff_body host has_cuda input_file output_file use_gpu s)).
  - apply Hbody.
  - cbn [evs]. rewrite guarded_app, Hbody. reflexivity.
Qed.

End Guard.

(** X3.  Whatever the library answers, a conversion calls [Create] only
    after [gdal.Open] has answered a dataset: when the source cannot be
    opened, no output file is created or touched. *)
Theorem create_only_after_open {S} (host : Host S) (has_cuda : bool)
    (input_file output_file : string) (use_gpu : bool) (s : S)
    (pre : list Event) (e : Event) (post : list Event) :
  evs (compress_geotiff host has_cuda input_file output_file use_gpu s)
  = (pre ++ e :: post)%list ->
  is_create e = true ->
  exists e0, In e0 pre /\ opened_dataset e0 = true.
Proof.
  intros He Hc.
  pose proof (compress_geotiff_guarded host has_cuda input_file output_file use_gpu
                false s) as H.
  rewrite He in H. apply (guarded_split _ _ _ _ _ _ H) in Hc.
  cbn [orb] in Hc. apply existsb_exists in Hc. exact Hc.
Qed.

Lemma create_only_after_open_witness :
  let es := evs (compress_geotiff (sim_host scenario) false
                   "in/a/img1.tif" "out/a/img1.tif" false 0%float) in
  es = (firstn 13 es ++ nth 13 es (EPrint MsgCpuOnly) :: skipn 14 es)%list /\
  is_create (nth 13 es (EPrint MsgCpuOnly)) = true /\
  exists e0, In e0 (firstn 13 es) /\ opened_dataset e0 = true.
Proof.
  cbn zeta.
  assert (H1 : evs (compress_geotiff (sim_host scenario) false
                      "in/a/img1.tif" "out/a/img1.tif" false 0%float)
               = (firstn 13 (evs (compress_geotiff (sim_host scenario) false
                                    "in/a/img1.tif" "out/a/img1.tif" false 0%float))
                  ++ nth 13 (evs (compress_geotiff (sim_host scenario) false
                                    "in/a/img1.tif" "out/a/img1.tif" false 0%float))
                         (EPrint MsgCpuOnly)
                  :: skipn 14 (evs (compress_geotiff (sim_host scenario) false
                                      "in/a/img1.tif" "out/a/img1.tif" false 0%float)))%list)
    by (vm_compute; reflexivity).
  assert (H2 : is_create (nth 13 (evs (compress_geotiff (sim_host scenario) false
                                         "in/a/img1.tif" "out/a/img1.tif" false 0%float))
                              (EPrint MsgCpuOnly)) = true)
    by (vm_compute; reflexivity).
  split; [exact H1 |]. split; [exact H2 |].
  exact (create_only_after_open _ _ _ _ _ _ _ _ _ H1 H2).
Defined.

(** A conversion that cannot open its source creates nothing. *)
Example unreadable_source_creates_nothing :
  let cfg := {| sim_cpus := 4; sim_drivers := ["GTiff"]; sim_gtiff_options := "";
                sim_walk := []; sim_unreadable := ["in/x.tif"]; sim_corrupt := [];
                sim_readonly := []; sim_bands := 3 |} in
  let r := compress_geotiff (sim_host cfg) false "in/x.tif" "out/x.tif" false 0%float in
  out r = Ret false /\ some_create (evs r) = false /\
  evs r = [ECall time_time (Ret 0%float);
           ECall (gdal_SetConfigOption "GDAL_CACHEMAX" "2048") (Ret tt);
           ECall (gdal_Open "in/x.tif") (Ret None);
           EPrint (MsgCannotOpen "in/x.tif")].
Proof. vm_compute. repeat split; reflexivity. Qed.

(** ** Which files a dispatch touches *)


Ltac touches_goal :=
  split; intros ? Hp; cbn in Hp; try discriminate Hp;
  injection Hp as <-; left; reflexivity.

Lemma compress_geotiff_touches_only {S} (host : Host S) has_cuda i o g :
  always (touches_only [i] [o]) (compress_geotiff host has_cuda i o g).
Proof. script_always; touches_goal. Qed.

Lemma touches_only_item items i o g e :
  In (i, o, g) items -> touches_only [i] [o] e ->
  touches_only (map item_input items) (map item_output items) e.
Proof.
  intros Hin [H1 H2]. split; intros p Hp.
  - destruct (H1 p Hp) as [<- | []]. apply (in_map item_input _ _ Hin).
  - destruct (H2 p Hp) as [<- | []]. apply (in_map item_output _ _ Hin).
Qed.

(** X4.  Whatever the library answers, a dispatch opens no file other than
    the input paths of its work items and creates no file other than their
    output paths, sequentially or through the pool. *)
Theorem dispatch_touches_only_items {S} (host : Host S) (has_cuda parallel : bool)
    (total_files : Z) (items : list WorkItem) (s : S) :
  Forall (touches_only (map item_input items) (map item_output items))
    (evs (dispatch host has_cuda parallel total_files items s)).
Proof.
  apply always_events.
  assert (Hconv : forall i o g, In (i, o, g) items ->
            always (touches_only (map item_input items) (map item_output items))
              (compress_geotiff host has_cuda i o g)).
  { intros i o g Hin. eapply always_weaken; [| apply compress_geotiff_touches_only].
    intros e. apply touches_only_item with (g := g). exact Hin. }
  assert (Hq : forall e, open_path e = None -> create_path e = None ->
                 touches_only (map item_input items) (map item_output items) e).
  { intros e H1 H2. split; intros p Hp; congruence. }
  unfold dispatch. destruct (parallel && (1 <? total_files)%Z).
  - apply always_bind; [| intros; always_tac].
    unfold run_parallel.
    apply always_bind; [apply always_call; intros; apply Hq; reflexivity | intros].
    apply always_bind; [apply always_print; apply Hq; reflexivity | intros].
    apply always_bind; [apply always_call; intros; apply Hq; reflexivity | intros].
    unfold pool_map.
    eapply sat_weaken; [apply sat_map_each with (Q := fun _ => True) | trivial].
    intros [[i o] g] Hin. apply Hconv with (g := g). exact Hin.
  - unfold run_sequential. apply sat_for_fold; [trivial |].
    intros k [[i o] g] Hin _. unfold sequential_step.
    apply always_bind; [apply always_print; apply Hq; reflexivity |]. intros _.
    apply always_bind; [apply Hconv with (g := g); exact Hin | intros; always_tac].
Qed.

(** ** The pool and the tally of any batch *)

(** X5.  In every run of [batch_compress], whatever [cpu_count()] answers
    (zero or a negative number included), a pool is created with at least
    one and at most eight processes. *)
Theorem pool_always_within_bounds {S} {tables : UnicodeLower} (host : Host S)
    (has_cuda : bool) (cwd : string)
    (input_dir output_dir : string) (extensions : list string)
    (use_gpu parallel : bool) (s : S) :
  Forall pool_within_bounds
    (evs (batch_compress host has_cuda cwd input_dir output_dir extensions
            use_gpu parallel s)).
Proof.
  apply always_events. script_always.
  intros n Hn. cbn in Hn. injection Hn as <-. unfold pool_size. lia.
Qed.

Example pool_for_zero_cpus :
  pool_size 0 = 1%Z /\ pool_size (-3) = 1%Z /\ pool_size 2 = 1%Z /\ pool_size 64 = 8%Z.
Proof. repeat split; reflexivity. Qed.

Lemma sat_intro {S A} (m : M S A) (P : Event -> Prop) (Q : A -> Prop) :
  always P m -> (forall s a, out (m s) = Ret a -> Q a) -> sat m P Q.
Proof. intros Hp Hq s. split; [apply (Hp s) | apply Hq]. Qed.

Lemma count_true_bounds results :
  (0 <= count_true results <= Z.of_nat (List.length results))%Z.
Proof.
  unfold count_true. pose proof (filter_length_le (fun r : bool => r) results). lia.
Qed.

Lemma run_parallel_length {S} (host : Host S) has_cuda items s results :
  out (run_parallel host has_cuda items s) = Ret results ->
  List.length results = List.length items.
Proof.
  unfold run_parallel. intros H.
  apply bind_inv_ret in H as (n & _ & H & _).
  apply bind_inv_ret in H as ([] & _ & H & _).
  apply bind_inv_ret in H as ([] & _ & H & _).
  match type of H with
  | out (pool_map _ _ ?s') = _ =>
      destruct (pool_map_spec host has_cuda items s') as (rs & Hlen & Hout & _)
  end.
  congruence.
Qed.

Lemma dispatch_count {S} (host : Host S) has_cuda parallel total_files items s k :
  out (dispatch host has_cuda parallel total_files items s) = Ret k ->
  (0 <= k <= Z.of_nat (List.length items))%Z.
Proof.
  unfold dispatch. destruct (parallel && (1 <? total_files)%Z).
  - intros H. apply bind_inv_ret in H as (results & Hr & H & _).
    cbn in H. injection H as <-.
    rewrite <- (run_parallel_length _ _ _ _ _ Hr). apply count_true_bounds.
  - intros H.
    destruct (run_sequential_spec host has_cuda items s) as (results & Hlen & Hout & _).
    rewrite Hout in H. injection H as <-. rewrite <- Hlen. apply count_true_bounds.
Qed.

(** X6.  Every tally line "k/n" that a run of [batch_compress] prints has
    [0 <= k <= n], whatever the library and the system answer: the number of
    successes never exceeds the number of files counted. *)
Theorem tally_always_consistent {S} {tables : UnicodeLower} (host : Host S)
    (has_cuda : bool) (cwd : string)
    (input_dir output_dir : string) (extensions : list string)
    (use_gpu parallel : bool) (s : S) :
  Forall tally_consistent
    (evs (batch_compress host has_cuda cwd input_dir output_dir extensions
            use_gpu parallel s)).
Proof.
  apply always_events. unfold batch_compress.
  apply always_bind; [always_tac | intros output_exists].
  apply always_bind; [always_tac | intros _].
  apply always_bind; [script_always | intros gpu_available].
  unfold after_probe. apply always_bind; [always_tac | intros start_time].
  eapply sat_bind.
  { apply collect_files_post; intros; intros k n H; discriminate H. }
  intros [total files] [Htotal _]. cbn [fst snd] in Htotal.
  eapply sat_bind.
  { apply sat_intro with (Q := fun k => (0 <= k <= total)%Z).
    - script_always.
    - intros s' k Hk. rewrite Htotal. apply (dispatch_count _ _ _ _ _ _ _ Hk). }
  intros k Hk. unfold report.
  apply always_bind; [always_tac | intros end_time].
  apply always_bind; [| intros; always_tac].
  apply always_print. intros k' n' H. cbn in H. injection H as <- <-. exact Hk.
Qed.

(** ** The capability probe (lines 22 to 45) *)

(** The calls of a probe that met no error all answered. *)
Lemma probe_calls_answered cache_max n drivers :
  Forall (fun e => probe_call_failed e = false) (probe_calls cache_max n drivers).
Proof.
  unfold probe_calls. repeat (apply Forall_cons; [reflexivity |]).
  generalize (range 0 n). intros l. revert drivers.
  induction l as [| i l IH]; intros [| [d name] drivers]; cbn [combine map List.concat];
    try apply Forall_nil.
  cbn [driver_reads app]. repeat (apply Forall_cons; [reflexivity |]). apply IH.
Qed.

Section Probe.

Context {S : Type}.
Variable host : Host S.
Variable has_cuda : bool.

Lemma ends_in_line_bind {A B} (L : B -> Msg -> Prop) (m : M S A) (k : A -> M S B) :
  always (fun e => is_call_event e = true) m -> (forall a, ends_in_line L (k a)) ->
  ends_in_line L (bind m k).
Proof.
  intros Hm Hk s. pose proof (always_events _ m s Hm) as Hev.
  destruct (out (m s)) as [a | e] eqn:E.
  - rewrite (bind_run_ret _ _ _ _ E). cbn [out evs].
    specialize (Hk a (st (m s))).
    destruct (out (k a (st (m s)))) as [b | e'].
    + destruct Hk as (pre & v & Hevs & Hpre & Hv).
      exists (evs (m s) ++ pre)%list, v. rewrite Hevs, app_assoc.
      split; [reflexivity |]. split; [apply Forall_app; split; assumption | exact Hv].
    + apply Forall_app. split; assumption.
  - rewrite (bind_run_raise _ _ _ _ E). cbn [out evs]. exact Hev.
Qed.

Lemma ends_in_line_print {A} (L : A -> Msg -> Prop) (v : Msg) (a : A) :
  L a v -> ends_in_line (S:=S) L (print v ;; ret a)%py.
Proof. intros H s. cbn. exists [], v. repeat split; [constructor | exact H]. Qed.

(** The reads of the list comprehension of line 34, when it returns. *)
Lemma driver_reads_run l : forall s names,
  out (map_each (fun i => drv <- call host (gdal_GetDriver i) ;;
                          d <- attr drv "ShortName" ;;
                          call host (Driver_ShortName d))%py l s) = Ret names ->
  exists drivers,
    List.length drivers = List.length l /\
    map snd drivers = names /\
    evs (map_each (fun i => drv <- call host (gdal_GetDriver i) ;;
                            d <- attr drv "ShortName" ;;
                            call host (Driver_ShortName d))%py l s)
    = List.concat (map driver_reads (combine l drivers)).
Proof.
  induction l as [| i l IH]; intros s names H.
  - cbn in H. injection H as <-. exists []. repeat split.
  - cbn [map_each] in *. invert_step. invert_step.
    cbn [ret out evs] in Hk0. injection Hk0 as <-.
    destruct (IH _ _ Hm0) as (drivers & Hlen & Hnames & Hevs).
    rewrite Hevs. cbn [ret evs]. rewrite app_nil_r.
    repeat invert_step.
    match goal with
    | |- context [ECall (Driver_ShortName ?d) (Ret ?name)] =>
        exists ((d, name) :: drivers)
    end.
    cbn [List.length map snd combine List.concat driver_reads].
    rewrite Hlen. repeat split.
Qed.

Lemma raises_on_failure_bind {A B} (m : M S A) (k : A -> M S B) :
  raises_on_failure m -> (forall a, raises_on_failure (k a)) ->
  raises_on_failure (bind m k).
Proof.
  intros Hm Hk s x H. destruct (out (m s)) as [a | x'] eqn:E.
  - rewrite (bind_run_ret _ _ _ _ E) in *. cbn [out evs] in *.
    destruct (Hk a _ _ H) as (pre & e & He & Hf).
    exists (evs (m s) ++ pre)%list, e. rewrite He, app_assoc. split; [reflexivity | exact Hf].
  - rewrite (bind_run_raise _ _ _ _ E) in *. cbn [out evs] in *.
    apply (Hm s x'). exact E.
Qed.

Lemma raises_on_failure_call {A} (c : ext A) : raises_on_failure (call host c).
Proof.
  intros s x. rewrite call_run. cbn [out evs]. intros H.
  exists [], (ECall c (fst (host A c s))). split; [reflexivity |].
  rewrite H. destruct c; reflexivity.
Qed.

Lemma raises_on_failure_quiet {A} (m : M S A) :
  (forall s, exists a, out (m s) = Ret a) -> raises_on_failure m.
Proof. intros H s x E. destruct (H s) as [a Ha]. congruence. Qed.

Lemma raises_on_failure_driver i :
  raises_on_failure (drv <- call host (gdal_GetDriver i) ;;
                     d <- attr drv "ShortName" ;;
                     call host (Driver_ShortName d))%py.
Proof.
  intros s x. unfold bind. rewrite !call_run. cbn [out st evs].
  destruct (host _ (gdal_GetDriver i) s) as [[[d |] | x'] s1];
    cbn [fst snd out st evs attr ret raise app].
  - rewrite call_run. cbn [out st evs]. intros H.
    exists [ECall (gdal_GetDriver i) (Ret (Some d))],
           (ECall (Driver_ShortName d) (fst (host _ (Driver_ShortName d) s1))).
    split; [reflexivity |]. rewrite H. reflexivity.
  - intros _. exists [], (ECall (gdal_GetDriver i) (Ret None)). split; reflexivity.
  - intros _. exists [], (ECall (gdal_GetDriver i) (Raise x')). split; reflexivity.
Qed.

Lemma raises_on_failure_map_each {A B} (f : A -> M S B) l :
  (forall a, raises_on_failure (f a)) -> raises_on_failure (map_each f l).
Proof.
  intros Hf. induction l as [| a l IH].
  - apply raises_on_failure_quiet. intros s. eexists. reflexivity.
  - cbn [map_each]. apply raises_on_failure_bind; [apply Hf |]. intros b.
    apply raises_on_failure_bind; [exact IH |]. intros bs.
    apply raises_on_failure_quiet. intros s. eexists. reflexivity.
Qed.

(** The body of the [try] of [check_gpu_support]. *)
Lemma check_gpu_support_body_run s :
  let body := (cache_max <- call host gdal_GetCacheMax ;;
               n <- call host gdal_GetDriverCount ;;
               drivers <- map_each (fun i =>
                             drv <- call host (gdal_GetDriver i) ;;
                             d <- attr drv "ShortName" ;;
                             call host (Driver_ShortName d))
                           (range 0 n) ;;
               if str_contains "CUDA" (str_join " " drivers) || has_cuda then
                 print MsgGpuDetected ;; ret true
               else
                 print MsgGpuNotDetected ;; ret false)%py in
  match out (body s) with
  | Ret g =>
      exists pre v,
        evs (body s) = (pre ++ [EPrint v])%list /\
        (v = MsgGpuDetected \/ v = MsgGpuNotDetected) /\
        probe_verdict has_cuda pre g v
  | Raise _ =>
      exists pre e, evs (body s) = (pre ++ [e])%list /\ probe_call_failed e = true
  end.
Proof.
  cbn zeta.
  match goal with |- match out (?b s) with _ => _ end => set (body := b) end.
  destruct (out (body s)) as [g | x] eqn:H.
  - unfold body in *. do 3 invert_step.
    destruct (driver_reads_run _ _ _ Hm1) as (drivers & Hlen & Hnames & Hevs).
    rewrite Hevs.
    repeat match goal with
           | Hc : out (call _ _ _) = Ret _ |- _ => invert_step
           end.
    exists (probe_calls a a0 drivers),
           (if g then MsgGpuDetected else MsgGpuNotDetected).
    assert (Hg : g = str_contains "CUDA" (str_join " " (map snd drivers)) || has_cuda).
    { rewrite Hnames. destruct (str_contains "CUDA" (str_join " " a1) || has_cuda);
        cbn in Hk; injection Hk as <-; reflexivity. }
    split; [| split].
    + unfold probe_calls. rewrite Hnames in Hg. rewrite <- Hg.
      destruct g; cbn [bind print ret out st evs app]; rewrite <- ?app_assoc; reflexivity.
    + destruct g; [left | right]; reflexivity.
    + assert (Hv : exists cache_max n ds,
                List.length ds = List.length (range 0 n) /\
                probe_calls a a0 drivers = probe_calls cache_max n ds /\
                g = str_contains "CUDA" (str_join " " (map snd ds)) || has_cuda /\
                (if g then MsgGpuDetected else MsgGpuNotDetected)
                = (if g then MsgGpuDetected else MsgGpuNotDetected))
        by (exists a, a0, drivers; repeat split; assumption).
      destruct g; exact Hv.
  - assert (Hr : raises_on_failure body).
    { unfold body.
      apply raises_on_failure_bind; [apply raises_on_failure_call |]. intros cache_max.
      apply raises_on_failure_bind; [apply raises_on_failure_call |]. intros n.
      apply raises_on_failure_bind.
      - apply raises_on_failure_map_each. apply raises_on_failure_driver.
      - intros names. apply raises_on_failure_quiet. intros s'.
        destruct (_ || _); eexists; reflexivity. }
    exact (Hr s x H).
Qed.

End Probe.

(** X7.  The probe never raises.  It makes calls and then prints exactly
    one line, its last event, and what it returns goes with that line.
    When every call answers, the calls are the cache size, the number [n]
    of drivers and, for each index from 0 to [n], the driver and its short
    name; the probe then returns [True] with "détecté" if CUDA occurs in
    these names joined with spaces or [has_cuda] holds, and [False] with
    "non détecté" if not.  It prints the error line, and returns [False],
    exactly when its last call raised or was a [GetDriver] that answered
    [None]. *)
Theorem probe_report {S} (host : Host S) (has_cuda : bool) (s : S) :
  let r := check_gpu_support host has_cuda s in
  exists g pre v,
    out r = Ret g /\
    evs r = (pre ++ [EPrint v])%list /\
    Forall (fun e => is_call_event e = true) pre /\
    probe_verdict has_cuda pre g v /\
    (v = MsgGpuCheckError <->
     exists pre' e, pre = (pre' ++ [e])%list /\ probe_call_failed e = true).
Proof.
  cbn zeta. unfold check_gpu_support, try_except.
  match goal with
  | |- context [out (?b s)] => set (body := b)
  end.
  assert (Hline : ends_in_line (fun (_ : bool) (_ : Msg) => True) body).
  { unfold body.
    repeat (apply ends_in_line_bind; [always_tac | intros]).
    destruct (_ || _); apply ends_in_line_print; exact I. }
  specialize (Hline s).
  pose proof (check_gpu_support_body_run host has_cuda s) as Hrun.
  cbn zeta in Hrun. fold body in Hrun.
  destruct (out (body s)) as [g | x] eqn:E.
  - destruct Hline as (pre & v & Hevs & Hpre & _).
    destruct Hrun as (pre' & v' & Hevs' & Hv' & Hverdict).
    rewrite Hevs in Hevs'.
    apply app_inj_tail in Hevs' as [<- Hv]. injection Hv as <-.
    exists g, pre, v. split; [exact E |]. split; [exact Hevs |].
    split; [exact Hpre |]. split; [exact Hverdict |]. split.
    + intros ->. destruct Hv' as [Hv' | Hv']; discriminate Hv'.
    + intros (pre' & e & -> & Hf). exfalso.
      assert (Hall : Forall (fun e => probe_call_failed e = false) (pre' ++ [e])%list).
      { destruct Hv' as [-> | ->]; cbn [probe_verdict] in Hverdict;
          destruct Hverdict as (m & n & ds & Hlen & -> & _);
          apply probe_calls_answered. }
      apply Forall_app in Hall as [_ Hall]. inversion Hall as [| ? ? He _]; subst.
      congruence.
  - destruct Hrun as (pre' & e & Hevs & Hf).
    exists false, (evs (body s)), MsgGpuCheckError.
    cbn [bind print ret out st evs]. rewrite app_nil_r.
    split; [reflexivity |]. split; [reflexivity |]. split; [exact Hline |].
    assert (Hlast : exists pre'0 e0, evs (body s) = (pre'0 ++ [e0])%list
                                    /\ probe_call_failed e0 = true)
      by (exists pre', e; split; assumption).
    split; [split; [reflexivity | exact Hlast] |].
    split; [intros _; exact Hlast | reflexivity].
Qed.

Example probe_follows_has_cuda :
  let cfg := {| sim_cpus := 4; sim_drivers := ["GTiff"]; sim_gtiff_options := "";
                sim_walk := []; sim_unreadable := []; sim_corrupt := [];
                sim_readonly := []; sim_bands := 3 |} in
  out (check_gpu_support (sim_host cfg) true 0%float) = Ret true /\
  out (check_gpu_support (sim_host cfg) false 0%float) = Ret false.
Proof. vm_compute. split; reflexivity. Qed.

(** ** Loading the module (line 20) *)

(** X8.  When the GTiff driver is missing, or has no
    [DMD_CREATIONOPTIONLIST] item, the assignment of [has_cuda] raises
    ([AttributeError], respectively [TypeError]) while the module is loaded:
    the script ends there, after at most these two calls, and no part of the
    batch runs. *)
Theorem module_load_failure {S} {tables : UnicodeLower} (host : Host S) (cwd : string)
    (input_dir output_dir : string) (extensions : list string)
    (use_gpu parallel : bool) (s : S) (driver : option Driver) :
  fst (host _ (gdal_GetDriverByName "GTiff") s) = Ret driver ->
  (forall drv, driver = Some drv ->
     fst (host _ (Driver_GetMetadataItem drv "DMD_CREATIONOPTIONLIST")
            (snd (host _ (gdal_GetDriverByName "GTiff") s))) = Ret None) ->
  let r := script host cwd input_dir output_dir extensions use_gpu parallel s in
  out r = Raise (module_load_error driver) /\
  evs r = ECall (gdal_GetDriverByName "GTiff") (Ret driver)
          :: match driver with
             | Some drv =>
                 [ECall (Driver_GetMetadataItem drv "DMD_CREATIONOPTIONLIST") (Ret None)]
             | None => []
             end.
Proof.
  intros Hd Hmd. cbn zeta. unfold script.
  assert (H : module_has_cuda host s
              = mkRes (Raise (module_load_error driver))
                  (match driver with
                   | Some drv =>
                       snd (host _ (Driver_GetMetadataItem drv "DMD_CREATIONOPTIONLIST")
                              (snd (host _ (gdal_GetDriverByName "GTiff") s)))
                   | None => snd (host _ (gdal_GetDriverByName "GTiff") s)
                   end)
                  (ECall (gdal_GetDriverByName "GTiff") (Ret driver)
                   :: match driver with
                      | Some drv =>
                          [ECall (Driver_GetMetadataItem drv "DMD_CREATIONOPTIONLIST")
                             (Ret None)]
                      | None => []
                      end)).
  { unfold module_has_cuda.
    rewrite (bind_run_ret (call host (gdal_GetDriverByName "GTiff")) _ s driver)
      by (rewrite call_run; exact Hd).
    rewrite call_run, Hd. cbn [out st evs].
    destruct driver as [drv |].
    - specialize (Hmd drv eq_refl).
      rewrite (bind_run_ret (attr (Some drv) "GetMetadataItem") _ _ drv eq_refl).
      cbn [attr ret out st evs].
      rewrite (bind_run_ret (call host (Driver_GetMetadataItem drv _)) _ _ None)
        by (rewrite call_run; exact Hmd).
      rewrite call_run, Hmd. reflexivity.
    - reflexivity. }
  rewrite (bind_run_raise _ _ s (module_load_error driver)) by (rewrite H; reflexivity).
  rewrite H. split; reflexivity.
Qed.

Lemma module_load_failure_witness :
  let host := sim_host_without_metadata scenario in
  let r := script host "/home/u" "in" "out" [".tif"; ".tiff"] false true 0%float in
  fst (host _ (gdal_GetDriverByName "GTiff") 0%float) = Ret (Some (DriverRef 0)) /\
  out r = Raise (Exception "TypeError" "argument of type 'NoneType' is not iterable") /\
  evs r = [ECall (gdal_GetDriverByName "GTiff") (Ret (Some (DriverRef 0)));
           ECall (Driver_GetMetadataItem (DriverRef 0) "DMD_CREATIONOPTIONLIST") (Ret None)].
Proof.
  cbn zeta. split; [reflexivity |].
  exact (module_load_failure (sim_host_without_metadata scenario) "/home/u" "in" "out"
           [".tif"; ".tiff"] false true 0%float (Some (DriverRef 0)) eq_refl
           (fun drv _ => eq_refl)).
Defined.

(** ** Whole batches (lines 163 to 226) *)

Lemma mean_duration_zero d : mean_duration d 0 = Ret (d / 1)%float.
Proof. reflexivity. Qed.

Section Batches.

Context {S : Type} {tables : UnicodeLower}.
Variable host : Host S.
Variable has_cuda : bool.
Variable cwd input_dir output_dir : string.
Variable extensions : list string.
Variable use_gpu gpu_available : bool.

(** A directory without a qualifying file adds nothing. *)
Lemma collect_directory_nothing root files : forall vars s,
  forallb (fun f => negb (qualifies extensions f)) files = true ->
  for_fold files vars
    (collect_file host cwd input_dir output_dir extensions use_gpu gpu_available root) s
  = mkRes (Ret vars) s [].
Proof.
  induction files as [| f files IH]; intros [total acc] s H; [reflexivity |].
  cbn [forallb] in H. apply andb_true_iff in H as [Hf Hfs].
  apply negb_true_iff in Hf.
  rewrite (for_fold_cons_run f files (total, acc) (total, acc) _ s s []).
  - rewrite (IH _ _ Hfs). reflexivity.
  - unfold collect_file. rewrite Hf. reflexivity.
Qed.

Lemma collect_walk_nothing (walk : list (string * list string * list string)) :
  forall vars s,
  forallb (fun '(_, _, files) => forallb (fun f => negb (qualifies extensions f)) files)
          walk = true ->
  for_fold walk vars
    (fun vars '(root, _, files) =>
       for_fold files vars
         (collect_file host cwd input_dir output_dir extensions use_gpu gpu_available root)) s
  = mkRes (Ret vars) s [].
Proof.
  induction walk as [| [[root dirs] files] walk IH]; intros vars s H; [reflexivity |].
  cbn [forallb] in H. apply andb_true_iff in H as [Hf Hw].
  rewrite (for_fold_cons_run (root, dirs, files) walk vars vars
             (fun vars '(root, _, files) =>
                for_fold files vars
                  (collect_file host cwd input_dir output_dir extensions use_gpu
                     gpu_available root))
             s s []).
  - rewrite (IH _ _ Hw). reflexivity.
  - apply collect_directory_nothing. exact Hf.
Qed.

End Batches.

(** X9.  When the walk yields no qualifying file, the batch after the probe
    makes exactly three calls, the clock, the walk and the clock again, and
    prints the tally 0/0 and the duration with itself, divided by one, as
    the mean: no directory is created, no pool is set up even when
    [parallel] is true, and no conversion runs. *)
Theorem empty_batch {S} {tables : UnicodeLower} (host : Host S) (has_cuda : bool) (cwd : string)
    (input_dir output_dir : string) (extensions : list string)
    (use_gpu parallel gpu_available : bool)
    (s s1 s2 s3 : S) (t0 t1 : float) (walk : list (string * list string * list string)) :
  host _ time_time s = (Ret t0, s1) ->
  host _ (os_walk input_dir) s1 = (Ret walk, s2) ->
  forallb (fun '(_, _, files) => forallb (fun f => negb (qualifies extensions f)) files)
          walk = true ->
  host _ time_time s2 = (Ret t1, s3) ->
  after_probe host has_cuda cwd input_dir output_dir extensions use_gpu parallel
    gpu_available s
  = mkRes (Ret tt) s3
      [ECall time_time (Ret t0);
       ECall (os_walk input_dir) (Ret walk);
       ECall time_time (Ret t1);
       EPrint (MsgDone 0 0);
       EPrint (MsgTiming (t1 - t0) ((t1 - t0) / 1))%float].
Proof.
  intros Ht0 Hwalk Hnone Ht1. unfold after_probe.
  rewrite (bind_run_ret (call host time_time) _ s t0) by (rewrite call_run, Ht0; reflexivity).
  rewrite call_run, Ht0. cbn [fst snd out st evs].
  assert (Hc : collect_files host cwd input_dir output_dir extensions use_gpu
                 gpu_available s1
               = mkRes (Ret (0%Z, [])) s2 [ECall (os_walk input_dir) (Ret walk)]).
  { unfold collect_files.
    rewrite (bind_run_ret (call host (os_walk input_dir)) _ s1 walk)
      by (rewrite call_run, Hwalk; reflexivity).
    rewrite call_run, Hwalk. cbn [fst snd out st evs].
    rewrite collect_walk_nothing by exact Hnone. reflexivity. }
  rewrite (bind_run_ret _ _ s1 (0%Z, [])) by (rewrite Hc; reflexivity).
  rewrite Hc. cbn [out st evs].
  assert (Hd : dispatch host has_cuda parallel 0 [] s2 = mkRes (Ret 0%Z) s2 []).
  { unfold dispatch. rewrite andb_false_r. reflexivity. }
  rewrite (bind_run_ret _ _ s2 0%Z) by (rewrite Hd; reflexivity).
  rewrite Hd. cbn [out st evs]. unfold report.
  rewrite (bind_run_ret (call host time_time) _ s2 t1) by (rewrite call_run, Ht1; reflexivity).
  rewrite call_run, Ht1. cbn [fst snd out st evs].
  unfold bind, print, lift. rewrite mean_duration_zero. reflexivity.
Qed.

Lemma empty_batch_witness :
  let cfg := {| sim_cpus := 4; sim_drivers := ["GTiff"]; sim_gtiff_options := "";
                sim_walk := [("in", ["c"], []); ("in/c", [], ["notes.txt"; ".tif"])];
                sim_unreadable := []; sim_corrupt := []; sim_readonly := [];
                sim_bands := 3 |} in
  forallb (fun '(_, _, files) =>
             forallb (fun f => negb (qualifies [".tif"; ".tiff"] f)) files)
          (sim_walk cfg) = true /\
  after_probe (sim_host cfg) false "/home/u" "in" "out" [".tif"; ".tiff"] false true false
    0%float
  = mkRes (Ret tt) 2%float
      [ECall time_time (Ret 0%float);
       ECall (os_walk "in") (Ret (sim_walk cfg));
       ECall time_time (Ret 1%float);
       EPrint (MsgDone 0 0);
       EPrint (MsgTiming (1 - 0) ((1 - 0) / 1))%float].
Proof.
  cbn zeta. split; [reflexivity |].
  exact (empty_batch _ false "/home/u" "in" "out" [".tif"; ".tiff"] false true false
           0%float 1%float 1%float 2%float 0%float 1%float
           [("in", ["c"], []); ("in/c", [], ["notes.txt"; ".tif"])]
           eq_refl eq_refl eq_refl eq_refl).
Defined.

Section Runs.

Context {S : Type}.

Lemma runs_of_out {A} (m : M S A) s a :
  out (m s) = Ret a -> runs m s a (st (m s)) (evs (m s)).
Proof. unfold runs. destruct (m s) as [o s' es]. cbn. intros ->. reflexivity. Qed.

Lemma runs_bind {A B} (m : M S A) (k : A -> M S B) s a s1 e1 b s2 e2 :
  runs m s a s1 e1 -> runs (k a) s1 b s2 e2 -> runs (bind m k) s b s2 (e1 ++ e2)%list.
Proof. unfold runs, bind. intros -> . cbn. intros ->. reflexivity. Qed.

Lemma runs_call {A} (host : Host S) (c : ext A) s a :
  fst (host A c s) = Ret a -> runs (call host c) s a (snd (host A c s)) [ECall c (Ret a)].
Proof. unfold runs. rewrite call_run. intros ->. reflexivity. Qed.

Lemma runs_ret {A} (a : A) (s : S) : runs (ret a) s a s [].
Proof. reflexivity. Qed.

End Runs.

Lemma outcomes_silent es : Forall silent es -> outcomes es = [].
Proof. intros H. unfold outcomes. rewrite (marks_silent _ H). reflexivity. Qed.

Lemma mirrored_items_length {tables : UnicodeLower} input_dir output_dir extensions flag (listing : Listing) :
  List.length (mirrored_items input_dir output_dir extensions flag listing)
  = List.length (qualifying_files extensions listing).
Proof.
  unfold mirrored_items, qualifying_files.
  induction listing as [| [[ds dirs] files] listing IH]; [reflexivity |].
  cbn [flat_map]. rewrite !length_app, length_map, IH. reflexivity.
Qed.

Lemma dispatch_outcomes {S} (host : Host S) has_cuda parallel total_files items s :
  pool_available host ->
  exists results,
    List.length results = List.length items /\
    outcomes (evs (dispatch host has_cuda parallel total_files items s)) = results /\
    out (dispatch host has_cuda parallel total_files items s) = Ret (count_true results).
Proof.
  intros Hpool. unfold dispatch. destruct (parallel && (1 <? total_files)%Z).
  - destruct (run_parallel_spec host has_cuda items s Hpool) as (results & Hlen & Hout & Hoc).
    exists results. rewrite (bind_run_ret _ _ s results Hout). cbn [ret out st evs].
    rewrite app_nil_r. repeat split; assumption.
  - destruct (run_sequential_spec host has_cuda items s) as (results & Hlen & Hout & Hm & _).
    exists results. split; [exact Hlen |]. split; [| exact Hout].
    unfold outcomes. rewrite Hm. apply outcomes_sequential_marks. exact Hlen.
Qed.

Lemma report_runs {S} (host : Host S) start_time k n s end_time :
  fst (host _ time_time s) = Ret end_time ->
  is_infinity (float_of_int (Z.max 1 n)) = false ->
  runs (report host start_time k n) s tt (snd (host _ time_time s))
    [ECall time_time (Ret end_time);
     EPrint (MsgDone k n);
     EPrint (MsgTiming (end_time - start_time)
               ((end_time - start_time) / float_of_int (Z.max 1 n)))%float].
Proof.
  intros Ht Hfin. unfold runs, report.
  rewrite (bind_run_ret (call host time_time) _ s end_time) by (rewrite call_run; exact Ht).
  rewrite call_run, Ht. cbn [out st evs].
  unfold bind, print, lift, mean_duration, float_truediv_int. rewrite Hfin.
  replace (Z.max 1 n =? 0)%Z with false by (symmetry; apply Z.eqb_neq; lia).
  reflexivity.
Qed.

(** X10.  Let the system answer every call of the batch, let the walk yield
    plain names, the working directory be absolute, and the number [n] of
    qualifying files convert to a float.  Then [batch_compress] returns
    normally whatever the raster library answers or raises: it leaves one
    outcome per qualifying file, and its last two lines are the tally of the
    successes among these outcomes over [n], and the duration with its mean
    over [max(1, n)]. *)
Theorem batch_completes {S} {tables : UnicodeLower} (host : Host S) (has_cuda : bool) (cwd : string)
    (input_dir output_dir : string) (extensions : list string)
    (use_gpu parallel : bool) (listing : Listing) (s : S) :
  infrastructure_available host input_dir listing ->
  os_path.isabs cwd = true ->
  plain_listing listing = true ->
  let n := Z.of_nat (List.length (qualifying_files extensions listing)) in
  is_infinity (float_of_int (Z.max 1 n)) = false ->
  let r := batch_compress host has_cuda cwd input_dir output_dir extensions
             use_gpu parallel s in
  exists results duration pre,
    out r = Ret tt /\
    List.length results = List.length (qualifying_files extensions listing) /\
    outcomes (evs r) = results /\
    evs r = (pre ++ [EPrint (MsgDone (count_true results) n);
                     EPrint (MsgTiming duration
                               (duration / float_of_int (Z.max 1 n))%float)])%list.
Proof.
  intros (Hex & Hmk & Htime & Hwalk & Hpool) Hcwd Hplain n Hfin. cbn zeta.
  (* the output root *)
  destruct (Hex output_dir s) as [b Hb].
  pose proof (runs_call host _ s b Hb) as R1.
  set (s1 := snd (host _ (os_path_exists output_dir) s)) in *.
  assert (R2 : exists s2 e2,
             runs (if negb b then call host (os_makedirs output_dir false) else ret tt)
                  s1 tt s2 e2 /\ Forall silent e2).
  { destruct b; cbn [negb].
    - exists s1, []. split; [apply runs_ret | constructor].
    - eexists _, _. split; [apply runs_call, Hmk |]. repeat constructor. }
  destruct R2 as (s2 & e2 & R2 & Hs2).
  (* the probe *)
  assert (R3 : exists g s3 e3, runs (probe host has_cuda use_gpu) s2 g s3 e3 /\ Forall silent e3).
  { assert (Hsil : always silent (probe host has_cuda use_gpu)) by script_always.
    assert (Hret : exists g, out (probe host has_cuda use_gpu s2) = Ret g).
    { unfold probe. destruct use_gpu; [apply check_gpu_support_returns |].
      exists false. reflexivity. }
    destruct Hret as [g Hg]. exists g. eexists _, _.
    split; [apply runs_of_out, Hg | apply (always_events _ _ s2 Hsil)]. }
  destruct R3 as (g & s3 & e3 & R3 & Hs3).
  (* the clock and the enumeration *)
  destruct (Htime s3) as [t0 Ht0].
  pose proof (runs_call host _ s3 t0 Ht0) as R4.
  set (s4 := snd (host _ time_time s3)) in *.
  destruct (collect_files_run host cwd input_dir output_dir extensions use_gpu g
              Hcwd (fun p s' => Hmk p true s') listing s4 (Hwalk s4) Hplain)
    as [Hcout Hcevs].
  set (items := mirrored_items input_dir output_dir extensions (g && use_gpu) listing) in *.
  pose proof (runs_of_out _ s4 _ Hcout) as R5.
  assert (Hs5 : Forall silent
                  (evs (collect_files host cwd input_dir output_dir extensions use_gpu g s4))).
  { assert (Hsil : always silent
                     (collect_files host cwd input_dir output_dir extensions use_gpu g))
      by script_always.
    apply (always_events _ _ s4 Hsil). }
  set (e5 := evs (collect_files host cwd input_dir output_dir extensions use_gpu g s4)) in *.
  set (s5 := st (collect_files host cwd input_dir output_dir extensions use_gpu g s4)) in *.
  (* the dispatch *)
  destruct (dispatch_outcomes host has_cuda parallel (Z.of_nat (List.length items)) items s5
              Hpool) as (results & Hlen & Hoc & Hdout).
  pose proof (runs_of_out _ s5 _ Hdout) as R6.
  set (e6 := evs (dispatch host has_cuda parallel (Z.of_nat (List.length items)) items s5)) in *.
  set (s6 := st (dispatch host has_cuda parallel (Z.of_nat (List.length items)) items s5)) in *.
  (* the report *)
  assert (Hn : Z.of_nat (List.length items) = n).
  { unfold n, items. rewrite mirrored_items_length. reflexivity. }
  destruct (Htime s6) as [t1 Ht1].
  assert (Hfin' : is_infinity (float_of_int (Z.max 1 (Z.of_nat (List.length items)))) = false)
    by (rewrite Hn; exact Hfin).
  pose proof (report_runs host t0 (count_true results) (Z.of_nat (List.length items))
                s6 t1 Ht1 Hfin') as R7.
  (* together *)
  pose proof (runs_bind _ (fun sf => report host t0 sf (Z.of_nat (List.length items)))
                _ _ _ _ _ _ _ R6 R7) as R67.
  pose proof (runs_bind _
                (fun vars : Z * list WorkItem =>
                   let '(total_files, files_to_process) := vars in
                   (sf <- dispatch host has_cuda parallel total_files files_to_process ;;
                    report host t0 sf total_files)%py)
                _ _ _ _ _ _ _ R5 R67) as R567.
  pose proof (runs_bind _
                (fun st0 =>
                   (' (total_files, files_to_process) <-
                      collect_files host cwd input_dir output_dir extensions use_gpu g ;;
                    sf <- dispatch host has_cuda parallel total_files files_to_process ;;
                    report host st0 sf total_files)%py)
                _ _ _ _ _ _ _ R4 R567) as R4567.
  change (runs (after_probe host has_cuda cwd input_dir output_dir extensions use_gpu
                  parallel g) s3 tt
               (snd (host _ time_time s6))
               ([ECall time_time (Ret t0)] ++ e5 ++ e6 ++
                [ECall time_time (Ret t1);
                 EPrint (MsgDone (count_true results) (Z.of_nat (List.length items)));
                 EPrint (MsgTiming (t1 - t0)
                           ((t1 - t0) / float_of_int (Z.max 1 (Z.of_nat (List.length items)))))%float])%list)
    in R4567.
  pose proof (runs_bind _
                (fun g => after_probe host has_cuda cwd input_dir output_dir extensions
                            use_gpu parallel g)
                _ _ _ _ _ _ _ R3 R4567) as R3_7.
  pose proof (runs_bind _
                (fun _ : unit =>
                   (g <- probe host has_cuda use_gpu ;;
                    after_probe host has_cuda cwd input_dir output_dir extensions
                      use_gpu parallel g)%py)
                _ _ _ _ _ _ _ R2 R3_7) as R2_7.
  pose proof (runs_bind _
                (fun output_exists : bool =>
                   ((if negb output_exists
                     then call host (os_makedirs output_dir false) else ret tt) ;;
                    g <- probe host has_cuda use_gpu ;;
                    after_probe host has_cuda cwd input_dir output_dir extensions
                      use_gpu parallel g)%py)
                _ _ _ _ _ _ _ R1 R2_7) as Rall.
  unfold runs in Rall. unfold batch_compress. rewrite Rall. cbn [out evs].
  rewrite Hn in *.
  exists results, (t1 - t0)%float,
    ([ECall (os_path_exists output_dir) (Ret b)] ++ e2 ++ e3
     ++ [ECall time_time (Ret t0)] ++ e5 ++ e6 ++ [ECall time_time (Ret t1)])%list.
  split; [reflexivity |]. split.
  { rewrite Hlen. unfold items. apply mirrored_items_length. }
  split.
  - rewrite !outcomes_app.
    rewrite (outcomes_silent e2 Hs2), (outcomes_silent e3 Hs3), (outcomes_silent e5 Hs5).
    rewrite Hoc. cbn. rewrite app_nil_r. reflexivity.
  - repeat rewrite <- app_assoc. reflexivity.
Qed.

Lemma sim_infrastructure_available cfg input_dir (listing : Listing) :
  sim_walk cfg = map (walk_entry input_dir) listing ->
  infrastructure_available (sim_host cfg) input_dir listing.
Proof.
  intros Hw. repeat split.
  - intros p s. exists true. reflexivity.
  - intros s. exists s. reflexivity.
  - intros s. cbn. rewrite Hw. reflexivity.
  - intros s. exists (sim_cpus cfg). reflexivity.
Qed.

(** The theorem on the tree whose first image is corrupt: the batch returns,
    with the outcomes of a failure and a success. *)
Lemma batch_completes_witness :
  let r := batch_compress (sim_host scenario_corrupt) false "/home/u" "in" "out"
             [".tif"; ".tiff"] false true 0%float in
  infrastructure_available (sim_host scenario_corrupt) "in" scenario_listing /\
  os_path.isabs "/home/u" = true /\
  plain_listing scenario_listing = true /\
  is_infinity (float_of_int (Z.max 1 (Z.of_nat (List.length
                 (qualifying_files [".tif"; ".tiff"] scenario_listing))))) = false /\
  out r = Ret tt /\
  outcomes (evs r) = [false; true].
Proof.
  cbn zeta.
  pose proof (sim_infrastructure_available scenario_corrupt "in" scenario_listing eq_refl)
    as Hinfra.
  destruct (batch_completes (sim_host scenario_corrupt) false "/home/u" "in" "out"
              [".tif"; ".tiff"] false true scenario_listing 0%float
              Hinfra eq_refl eq_refl eq_refl)
    as (results & duration & pre & Hout & _).
  split; [exact Hinfra |]. split; [reflexivity |]. split; [reflexivity |].
  split; [reflexivity |]. split; [exact Hout |].
  vm_compute. reflexivity.
Defined.

(** ** Sources and destinations (lines 197 to 202) *)

Module MirrorFacts.

Import Py os_path PathFacts.

Lemma forallb_plain_clean l : forallb plain_name l = true -> Forall clean l.
Proof.
  intros H. rewrite forallb_forall in H. apply Forall_forall.
  intros x Hx. apply plain_clean, H, Hx.
Qed.

Lemma components_join_all l : forall a,
  forallb plain_name l = true -> components (join_all a l) = (components a ++ l)%list.
Proof.
  unfold join_all. induction l as [| d l IH]; intros a H; cbn [fold_left].
  - rewrite app_nil_r. reflexivity.
  - cbn [forallb] in H. apply andb_true_iff in H as [Hd Hl].
    rewrite (IH _ Hl).
    rewrite (components_join _ _ (plain_not_abs _ Hd)), (components_plain _ Hd).
    rewrite <- app_assoc. reflexivity.
Qed.

Lemma components_destination o l :
  l <> [] -> forallb plain_name l = true ->
  components (join o (str_join "/" l)) = (components o ++ l)%list.
Proof.
  intros Hne H.
  rewrite (components_join _ _ (str_join_plain_relative _ Hne H)).
  rewrite (components_str_join _ (forallb_plain_clean _ H)). reflexivity.
Qed.

Lemma join_app_relative o x z :
  x <> "" -> join o (x ++ z) = join o x ++ z.
Proof.
  intros Hx. unfold join. rewrite (startswith_app _ z Hx).
  destruct (startswith "/" x).
  - reflexivity.
  - destruct ((o =? "") || endswith_char sep o); rewrite ?append_assoc; reflexivity.
Qed.

Lemma str_join_plain_nonempty l :
  l <> [] -> forallb plain_name l = true -> str_join "/" l <> "".
Proof.
  destruct l as [| c l]; [congruence |]. intros _ H.
  cbn [forallb] in H. apply andb_true_iff in H as [Hc _].
  pose proof (plain_name_spec _ Hc) as (Hc1 & _).
  destruct l as [| d l]; cbn [str_join]; [exact Hc1 |].
  destruct c; [congruence | discriminate].
Qed.

Lemma str_join_plain_no_trailing_sep l :
  l <> [] -> forallb plain_name l = true -> endswith_char sep (str_join "/" l) = false.
Proof.
  induction l as [| c l IH]; [congruence |]. intros _ H.
  cbn [forallb] in H. apply andb_true_iff in H as [Hc Hl].
  pose proof (plain_name_spec _ Hc) as (_ & _ & _ & Hc4).
  destruct l as [| d l].
  - cbn [str_join]. apply sep_free_not_endswith. exact Hc4.
  - change (str_join "/" (c :: d :: l)) with (c ++ (String sep "" ++ str_join "/" (d :: l))).
    assert (Hne : str_join "/" (d :: l) <> "")
      by (apply str_join_plain_nonempty; [discriminate | exact Hl]).
    rewrite endswith_char_app by (cbn; discriminate).
    rewrite endswith_char_app by exact Hne.
    apply IH; [discriminate | exact Hl].
Qed.

(** Stripping the separator that was just appended. *)
Lemma rstrip_app_sep c q : rstrip c (q ++ String c "") = rstrip c q.
Proof.
  induction q as [| a q IH].
  - cbn. rewrite Ascii.eqb_refl. reflexivity.
  - cbn [append rstrip]. rewrite IH. reflexivity.
Qed.

Lemma rstrip_no_trailing c q : endswith_char c q = false -> rstrip c q = q.
Proof.
  induction q as [| a q IH]; [reflexivity |].
  cbn [endswith_char rstrip]. destruct q as [| b q].
  - intros H. cbn. rewrite H. reflexivity.
  - intros H. rewrite (IH H). reflexivity.
Qed.

Lemma all_sep_endswith c q : forall z n,
  q ++ z = repeat_char c n -> q <> "" -> endswith_char c q = true.
Proof.
  induction q as [| a q IH]; intros z n H Hq; [congruence |].
  destruct n as [| n]; [discriminate H |].
  cbn in H. injection H as -> H.
  destruct q as [| b q]; [apply Ascii.eqb_refl |].
  cbn [endswith_char]. apply (IH z n H). discriminate.
Qed.

(** The directory of a path made of a directory, a separator and a name. *)
Lemma dirname_app_sep q f :
  q <> "" -> endswith_char sep q = false -> sep_free f ->
  dirname (q ++ String sep f) = q.
Proof.
  intros Hq He Hf. unfold dirname. rewrite (head_tail_app_sep _ _ Hf). cbn [fst].
  assert (H1 : (q ++ String sep "" =? "") = false).
  { apply String.eqb_neq. destruct q; [congruence | discriminate]. }
  assert (H2 : (q ++ String sep "" =? repeat_char sep (String.length (q ++ String sep "")))
               = false).
  { apply String.eqb_neq. intros E.
    rewrite (all_sep_endswith _ _ _ _ E Hq) in He. discriminate He. }
  rewrite H1, H2. cbn [negb andb].
  rewrite rstrip_app_sep. apply rstrip_no_trailing. exact He.
Qed.

Lemma join_nonempty_l o x : x <> "" -> startswith "/" x = false ->
  endswith_char sep x = false ->
  join o x <> "" /\ endswith_char sep (join o x) = false.
Proof.
  intros Hx Hrel He. split; [apply join_nonempty, Hx |].
  unfold join. rewrite Hrel.
  destruct ((o =? "") || endswith_char sep o).
  - rewrite endswith_char_app by exact Hx. exact He.
  - rewrite endswith_char_app by (cbn; discriminate).
    change ("/" ++ x) with (String sep "" ++ x).
    rewrite endswith_char_app by exact Hx. exact He.
Qed.

End MirrorFacts.

(** X11.  Two files of the input tree get the same destination, or have the
    same source path, only if they are the same file of the same directory:
    different files never share a destination. *)
Theorem destinations_are_distinct (input_dir output_dir : string) (flag flag' : bool)
    (ds ds' : list string) (f f' : string) :
  forallb plain_name (ds ++ [f])%list = true ->
  forallb plain_name (ds' ++ [f'])%list = true ->
  item_output (mirror_item input_dir output_dir flag ds f)
  = item_output (mirror_item input_dir output_dir flag' ds' f')
  \/ item_input (mirror_item input_dir output_dir flag ds f)
     = item_input (mirror_item input_dir output_dir flag' ds' f') ->
  ds = ds' /\ f = f'.
Proof.
  intros H H' E.
  assert (Hl : (ds ++ [f] = ds' ++ [f'])%list).
  { destruct E as [E | E]; unfold item_output, item_input, mirror_item in E; cbn [fst snd] in E.
    - apply (f_equal os_path.components) in E.
      rewrite !MirrorFacts.components_destination in E
        by (assumption || (intros C; apply app_eq_nil in C as [_ C]; discriminate C)).
      apply app_inv_head in E. exact E.
    - rewrite <- !PathFacts.join_all_snoc in E.
      apply (f_equal os_path.components) in E.
      rewrite !MirrorFacts.components_join_all in E by assumption.
      apply app_inv_head in E. exact E. }
  apply app_inj_tail in Hl. exact Hl.
Qed.

Lemma destinations_are_distinct_witness :
  forallb plain_name (["a"; "b"] ++ ["img2.tiff"])%list = true /\
  item_output (mirror_item "in" "out" false ["a"; "b"] "img2.tiff") = "out/a/b/img2.tiff" /\
  (["a"; "b"] = ["a"; "b"] /\ "img2.tiff" = "img2.tiff").
Proof.
  split; [reflexivity |]. split; [reflexivity |].
  exact (destinations_are_distinct "in" "out" false true ["a"; "b"] ["a"; "b"]
           "img2.tiff" "img2.tiff" eq_refl eq_refl (or_introl eq_refl)).
Defined.

(** X12.  The directory that the enumeration creates for a file is the
    output root followed by the names of the directories that lead to the
    file in the input tree: for a file below the input root it is the output
    root joined with these names, and for an output root that is not empty
    and does not end with a slash it is the root and these names joined one
    by one, the root itself for a file at the top. *)
Theorem parent_directory_mirrors (input_dir output_dir : string) (flag : bool)
    (ds : list string) (f : string) :
  forallb plain_name ds = true -> plain_name f = true ->
  let parent := os_path.dirname (item_output (mirror_item input_dir output_dir flag ds f)) in
  (ds <> [] -> parent = os_path.join output_dir (str_join "/" ds)) /\
  (output_dir <> "" -> endswith_char os_path.sep output_dir = false ->
   parent = os_path.join_all output_dir ds).
Proof.
  intros Hds Hf. cbn zeta. unfold item_output, mirror_item. cbn [fst snd].
  pose proof (PathFacts.plain_name_spec _ Hf) as (Hf1 & _ & _ & Hf4).
  assert (Hbelow : ds <> [] ->
            os_path.dirname (os_path.join output_dir (str_join "/" (ds ++ [f])%list))
            = os_path.join output_dir (str_join "/" ds)).
  { intros Hne.
    rewrite (PathFacts.str_join_snoc _ _ Hne).
    rewrite MirrorFacts.join_app_relative
      by (apply MirrorFacts.str_join_plain_nonempty; assumption).
    destruct (MirrorFacts.join_nonempty_l output_dir (str_join "/" ds)) as [Hq He].
    - apply MirrorFacts.str_join_plain_nonempty; assumption.
    - apply PathFacts.str_join_plain_relative; assumption.
    - apply MirrorFacts.str_join_plain_no_trailing_sep; assumption.
    - apply MirrorFacts.dirname_app_sep; assumption. }
  split; [exact Hbelow |].
  intros Ho He. destruct ds as [| d ds].
  - cbn [app str_join os_path.join_all fold_left].
    rewrite (PathFacts.join_relative _ _ Ho He (PathFacts.plain_not_abs _ Hf)).
    apply MirrorFacts.dirname_app_sep; assumption.
  - rewrite Hbelow by discriminate.
    rewrite (PathFacts.join_all_plain _ _ Ho He Hds).
    rewrite (PathFacts.join_relative _ _ Ho He).
    + destruct ds; reflexivity.
    + apply PathFacts.str_join_plain_relative; [discriminate | exact Hds].
Qed.

Lemma parent_directory_mirrors_witness :
  forallb plain_name ["a"; "b"] = true /\ plain_name "img2.tiff" = true /\
  os_path.dirname (item_output (mirror_item "in" "out" false ["a"; "b"] "img2.tiff"))
  = os_path.join_all "out" ["a"; "b"] /\
  os_path.join_all "out" ["a"; "b"] = "out/a/b".
Proof.
  split; [reflexivity |]. split; [reflexivity |]. split; [| reflexivity].
  apply (proj2 (parent_directory_mirrors "in" "out" false ["a"; "b"] "img2.tiff"
                  eq_refl eq_refl)).
  - discriminate.
  - reflexivity.
Defined.

(** ** Names without an extension (lines 192 and 193) *)

Module ExtFacts.

Import Py os_path.

Lemma rfind_from_lower_bound c s : forall i, (0 <= i)%Z -> (-1 <= rfind_from c s i)%Z.
Proof.
  induction s as [| a s IH]; intros i Hi; cbn [rfind_from]; [lia |].
  specialize (IH (i + 1)%Z ltac:(lia)).
  destruct (0 <=? rfind_from c s (i + 1))%Z; [exact IH |].
  destruct (Ascii.eqb a c); lia.
Qed.

Lemma rfind_from_absent c s :
  str_contains (String c "") s = false -> forall i, rfind_from c s i = (-1)%Z.
Proof.
  induction s as [| a s IH]; intros H i; [reflexivity |].
  cbn [str_contains startswith] in H.
  apply orb_false_iff in H as [H1 H2]. rewrite andb_true_r in H1.
  cbn [rfind_from]. rewrite (IH H2). cbn.
  rewrite Ascii.eqb_sym, H1. reflexivity.
Qed.

Lemma rfind_from_leading c n x :
  str_contains (String c "") x = false ->
  forall i, (0 <= i)%Z ->
  rfind_from c (repeat_char c n ++ x) i
  = match n with O => (-1)%Z | S n' => (i + Z.of_nat n')%Z end.
Proof.
  intros Hx. induction n as [| n IH]; intros i Hi.
  - apply rfind_from_absent, Hx.
  - cbn [repeat_char append rfind_from].
    rewrite (IH (i + 1)%Z ltac:(lia)). destruct n as [| n'].
    + cbn. rewrite Ascii.eqb_refl. lia.
    + destruct (Z.leb_spec 0 (i + 1 + Z.of_nat n')); lia.
Qed.

Lemma substring_leading c x : forall n k,
  (k < n)%nat -> substring k 1 (repeat_char c n ++ x) = String c "".
Proof.
  induction n as [| n IH]; intros k Hk; [lia |].
  destruct k as [| k]; cbn [repeat_char append substring].
  - destruct (repeat_char c n ++ x); reflexivity.
  - apply IH. lia.
Qed.

Lemma in_range k lo hi : In k (range lo hi) -> (lo <= k < hi)%Z.
Proof.
  unfold range. intros H. apply in_map_iff in H as (j & <- & Hj).
  apply in_seq in Hj. lia.
Qed.

Lemma existsb_none {A} (f : A -> bool) l :
  (forall x, In x l -> f x = false) -> existsb f l = false.
Proof.
  induction l as [| a l IH]; intros H; [reflexivity |].
  cbn [existsb]. rewrite (H a (or_introl eq_refl)). apply IH.
  intros x Hx. apply H. right. exact Hx.
Qed.

Lemma splitext_leading_dots n x :
  str_contains "." x = false ->
  splitext (repeat_char "." n ++ x) = (repeat_char "." n ++ x, "").
Proof.
  intros Hx. unfold splitext.
  set (name := repeat_char "." n ++ x).
  assert (Hsep : (-1 <= rfind sep name)%Z) by (apply rfind_from_lower_bound; lia).
  assert (Hdot : rfind "." name = (Z.of_nat n - 1)%Z).
  { unfold rfind, name. rewrite (rfind_from_leading "." n x Hx 0%Z ltac:(lia)).
    destruct n; lia. }
  rewrite Hdot.
  rewrite existsb_none; [rewrite andb_false_r; reflexivity |].
  intros k Hk. apply in_range in Hk.
  unfold char_at, name. rewrite (substring_leading "." x n) by lia. reflexivity.
Qed.

End ExtFacts.

(** X13.  A name whose only dots are leading ones, such as [README],
    [.tif] or [..cache], has the empty extension, so the enumeration takes
    it only when the list of extensions holds the empty string: a file named
    [.tif] is not converted under the default extensions. *)
Theorem names_without_extension {tables : UnicodeLower} (extensions : list string) (n : nat) (x : string) :
  str_contains "." x = false ->
  let name := repeat_char "." n ++ x in
  os_path.splitext name = (name, "") /\
  qualifies extensions name = list_contains "" extensions.
Proof.
  intros Hx name. pose proof (ExtFacts.splitext_leading_dots n x Hx) as E.
  fold name in E. split; [exact E |].
  unfold qualifies. rewrite E. reflexivity.
Qed.

Lemma names_without_extension_witness :
  str_contains "." "tif" = false /\
  repeat_char "." 1 ++ "tif" = ".tif" /\
  qualifies [".tif"; ".tiff"] ".tif" = false.
Proof.
  split; [reflexivity |]. split; [reflexivity |].
  exact (proj2 (names_without_extension [".tif"; ".tiff"] 1 "tif" eq_refl)).
Defined.

(** ** The entry point (lines 228 to 264) *)

Section Main.

Context {S : Type} {tables : UnicodeLower} (host : Host S)
  (isdir : string -> S -> Outcome bool * S).
Context (has_cuda : bool) (cwd : string).

(** X14.  [main] first asks whether the input directory exists.  When it
    does not, [main] prints one error line and returns: nothing is created
    and the batch does not run.  When it does, [main] asks whether the
    output directory exists and creates it if not, announcing the creation;
    it stops there exactly when one of these two calls raises, with that
    exception.  Otherwise it prints its five banner lines and runs the
    batch, in parallel exactly when [--no-parallel] was not given, as the
    banner says; it returns what the batch returns. *)
Theorem main_validates_then_batches (args : Args) (s s1 : S) (valid : bool) :
  isdir (args_input_dir args) s = (Ret valid, s1) ->
  let input_dir := args_input_dir args in
  let output_dir := args_output_dir args in
  let extensions := args_extensions args in
  let use_gpu := args_gpu args in
  let parallel := negb (args_no_parallel args) in
  let r := main host isdir has_cuda cwd args s in
  let batch_from (s' : S) (before : list MainEvent) :=
    let rb := batch_compress host has_cuda cwd input_dir output_dir extensions
                use_gpu parallel s' in
    r = mkMainRes (out rb) (st rb)
          (MIsdir input_dir (Ret true) :: before
           ++ banner input_dir output_dir extensions use_gpu parallel
           ++ map MScript (evs rb))%list in
  if valid then
    match host _ (os_path_exists output_dir) s1 with
    | (Raise x, s2) =>
        r = mkMainRes (Raise x) s2
              [MIsdir input_dir (Ret true);
               MScript (ECall (os_path_exists output_dir) (Raise x))]
    | (Ret true, s2) =>
        batch_from s2 [MScript (ECall (os_path_exists output_dir) (Ret true))]
    | (Ret false, s2) =>
        match host _ (os_makedirs output_dir true) s2 with
        | (Raise x, s3) =>
            r = mkMainRes (Raise x) s3
                  [MIsdir input_dir (Ret true);
                   MScript (ECall (os_path_exists output_dir) (Ret false));
                   MScript (ECall (os_makedirs output_dir true) (Raise x))]
        | (Ret _, s3) =>
            batch_from s3
              [MScript (ECall (os_path_exists output_dir) (Ret false));
               MScript (ECall (os_makedirs output_dir true) (Ret tt));
               MPrint (MsgOutputCreated output_dir)]
        end
    end
  else
    r = mkMainRes (Ret tt) s1
          [MIsdir input_dir (Ret false); MPrint (MsgNotADirectory input_dir)].
Proof.
  intros Hv. cbn zeta. unfold main. rewrite Hv.
  destruct valid; [| reflexivity].
  unfold ensure_output_dir, bind. rewrite call_run. cbn [out st evs].
  destruct (host _ (os_path_exists (args_output_dir args)) s1) as [[[|] | x] s2];
    cbn [fst snd negb ret out st evs map app]; try reflexivity.
  rewrite call_run. cbn [out st evs].
  destruct (host _ (os_makedirs (args_output_dir args) true) s2) as [[[] | x] s3];
    cbn [fst snd negb ret out st evs map app]; reflexivity.
Qed.

End Main.

(** The theorem on the tree of the scenario, with [--no-parallel]: the
    output directory exists, [main] prints its banner and the batch
    converts the two images one after the other. *)
Lemma main_validates_then_batches_witness :
  let args := {| args_input_dir := "in"; args_output_dir := "out";
                 args_extensions := [".tif"; ".tiff"];
                 args_gpu := false; args_no_parallel := true |} in
  let r := main (sim_host scenario) (isdir_among ["in"]) false "/home/u" args 0%float in
  let rb := batch_compress (sim_host scenario) false "/home/u" "in" "out"
              [".tif"; ".tiff"] false false 0%float in
  isdir_among ["in"] "in" 0%float = (Ret true, 0%float) /\
  r = mkMainRes (out rb) (st rb)
        (MIsdir "in" (Ret true)
         :: [MScript (ECall (os_path_exists "out") (Ret true))]
         ++ banner "in" "out" [".tif"; ".tiff"] false false
         ++ map MScript (evs rb))%list /\
  out rb = Ret tt /\
  outcomes (evs rb) = [true; true] /\
  existsb is_pool_event (evs rb) = false.
Proof.
  cbn zeta. split; [reflexivity |]. split; [| vm_compute; repeat split].
  exact (main_validates_then_batches (sim_host scenario) (isdir_among ["in"]) false "/home/u"
           {| args_input_dir := "in"; args_output_dir := "out";
              args_extensions := [".tif"; ".tiff"];
              args_gpu := false; args_no_parallel := true |} 0%float 0%float true eq_refl).
Defined.

(** An input directory that does not exist: one error line, and nothing
    else happens. *)
Example main_invalid_input :
  let args := {| args_input_dir := "nowhere"; args_output_dir := "out";
                 args_extensions := [".tif"; ".tiff"];
                 args_gpu := true; args_no_parallel := false |} in
  main (sim_host scenario) (isdir_among ["in"]) false "/home/u" args 0%float
  = mkMainRes (Ret tt) 0%float
      [MIsdir "nowhere" (Ret false); MPrint (MsgNotADirectory "nowhere")].
Proof. reflexivity. Qed.

(** With [--no-parallel] on the tree of the scenario, [main] prints its
    banner and the batch converts the files one after the other. *)
Example main_no_parallel :
  let args := {| args_input_dir := "in"; args_output_dir := "out";
                 args_extensions := [".tif"; ".tiff"];
                 args_gpu := false; args_no_parallel := true |} in
  let r := main (sim_host scenario) (isdir_among ["in"]) false "/home/u" args 0%float in
  main_out r = Ret tt /\
  firstn 7 (main_evs r) =
    [ MIsdir "in" (Ret true);
      MScript (ECall (os_path_exists "out") (Ret true));
      MPrint (MsgInputBanner "in");
      MPrint (MsgOutputBanner "out");
      MPrint (MsgExtensionsBanner ".tif, .tiff");
      MPrint (MsgGpuBanner false);
      MPrint (MsgParallelBanner false) ] /\
  existsb is_pool_event (script_events (main_evs r)) = false.
Proof. vm_compute. repeat split. Qed.

(** * Failures of a conversion, and the acceleration flag through a batch *)

(** ** Why a conversion failed (C7) *)

Section Failure.

Context {S : Type}.
Variable host : Host S.
Variable has_cuda : bool.

(** A body that returns [False] stopped at one of its two early returns. *)
Lemma compress_geotiff_body_false input_file output_file use_gpu s :
  out (compress_geotiff_body host has_cuda input_file output_file use_gpu s) = Ret false ->
  (exists pre,
     evs (compress_geotiff_body host has_cuda input_file output_file use_gpu s)
     = (pre ++ [ECall (gdal_Open input_file) (Ret None);
                EPrint (MsgCannotOpen input_file)])%list) \/
  (exists pre drv width height bands data_type options,
     evs (compress_geotiff_body host has_cuda input_file output_file use_gpu s)
     = (pre ++ [ECall (Driver_Create drv output_file width height bands data_type options)
                  (Ret None);
                EPrint (MsgCannotCreate output_file)])%list).
Proof.
  intros H. unfold compress_geotiff_body in *.
  do 3 invert_step. destruct a1 as [src |].
  - right. repeat invert_step.
    match goal with
    | H : out (match ?x with _ => _ end _) = Ret false |- _ =>
        destruct x as [dst |]
    end.
    + repeat invert_step. cbn in *. discriminate.
    + cbn [bind print ret out st evs app].
      rewrite options_choice_run. cbn [evs].
      eexists (_ :: _ :: _ :: _ :: _ :: _ :: _ :: _ :: _ :: _ :: _ :: _ :: _ :: nil)%list.
      repeat eexists.
  - left. repeat invert_step. cbn [bind print ret out st evs app].
    eexists (_ :: _ :: nil)%list. reflexivity.
Qed.

Lemma compress_geotiff_failure_cause input_file output_file use_gpu s pre v :
  out (compress_geotiff host has_cuda input_file output_file use_gpu s) = Ret false ->
  evs (compress_geotiff host has_cuda input_file output_file use_gpu s)
  = (pre ++ [EPrint v])%list ->
  failure_cause host has_cuda input_file output_file use_gpu s pre v.
Proof.
  unfold failure_cause, compress_geotiff, try_except. cbn zeta.
  destruct (out (compress_geotiff_body host has_cuda input_file output_file use_gpu s))
    as [b | x] eqn:E.
  - intros Hb Hevs. rewrite E in Hb. injection Hb as ->.
    destruct (compress_geotiff_body_false _ _ _ _ E)
      as [(pre' & H) | (pre' & drv & w & h & n & t & o & H)];
      rewrite H in Hevs;
      change (pre' ++ [?c; ?l])%list with (pre' ++ [c] ++ [l])%list in Hevs;
      rewrite app_assoc in Hevs; apply app_inj_tail in Hevs as [<- Hv];
      injection Hv as <-.
    + left. split; [reflexivity |]. split; [reflexivity |]. exists pre'. reflexivity.
    + right. left. split; [reflexivity |]. split; [reflexivity |].
      exists pre', drv, w, h, n, t, o. reflexivity.
  - cbn [bind print ret out st evs]. rewrite app_nil_r. intros _ Hevs.
    apply app_inj_tail in Hevs as [<- Hv]. injection Hv as <-.
    right. right. exists x. repeat split.
Qed.

End Failure.

(** C7, as the code has it.  A conversion that fails returns [False] and its
    last printed line is an error line that goes with the cause: "Impossible
    d'ouvrir" with the input file when [gdal.Open] answered [None], its last
    call; "Impossible de créer" with the output file when [Create] answered
    [None], its last call; "Erreur lors de la compression" with the text of
    the exception when the body of the [try] raised one.  No line of a
    failed conversion carries an elapsed time; the duration is computed and
    printed only by a conversion that succeeds, as its last line. *)
Theorem failed_conversion_report {S} (host : Host S) (has_cuda : bool)
    (input_file output_file : string) (use_gpu : bool) (s : S) :
  let r := compress_geotiff host has_cuda input_file output_file use_gpu s in
  exists b pre v,
    out r = Ret b /\
    evs r = (pre ++ [EPrint v])%list /\
    Forall (fun e => reports_elapsed e = false) pre /\
    if b then exists duration, v = MsgSuccess output_file duration
    else failure_cause host has_cuda input_file output_file use_gpu s pre v /\
         error_detail input_file output_file v /\
         Forall (fun e => reports_elapsed e = false) (evs r).
Proof.
  cbn zeta.
  destruct (compress_geotiff_run host has_cuda input_file output_file use_gpu s)
    as (b & pre & v & Hout & Hevs & Hpre & Hv & Hb & HV).
  assert (Hq : Forall (fun e => reports_elapsed e = false) pre).
  { eapply Forall_impl; [| exact Hpre]. apply silent_no_elapsed. }
  exists b, pre, v. split; [exact Hout |]. split; [exact Hevs |]. split; [exact Hq |].
  destruct b; [exact HV |].
  split; [apply compress_geotiff_failure_cause; assumption |].
  split; [exact HV |].
  rewrite Hevs. apply Forall_app. split; [exact Hq |].
  constructor; [| constructor]. cbn. destruct v; try reflexivity; discriminate Hb.
Qed.

(** The three causes on the simulated host: a source that cannot be opened,
    a destination that cannot be created, and a source that the library
    fails to decode. *)
Example failure_causes :
  let cfg := {| sim_cpus := 4; sim_drivers := ["GTiff"]; sim_gtiff_options := "";
                sim_walk := [];
                sim_unreadable := ["in/a.tif"]; sim_corrupt := ["in/b.tif"];
                sim_readonly := ["out/c.tif"]; sim_bands := 3 |} in
  let last2 (i o : string) :=
    let es := evs (compress_geotiff (sim_host cfg) false i o false 0%float) in
    skipn (List.length es - 2) es in
  last2 "in/a.tif" "out/a.tif"
  = [ECall (gdal_Open "in/a.tif") (Ret None); EPrint (MsgCannotOpen "in/a.tif")] /\
  last2 "in/b.tif" "out/b.tif"
  = [ECall (gdal_Open "in/b.tif")
       (Raise (Exception "RuntimeError"
                 "in/b.tif: not recognized as a supported file format"));
     EPrint (MsgError "in/b.tif: not recognized as a supported file format")] /\
  last2 "in/c.tif" "out/c.tif"
  = [ECall (Driver_Create (DriverRef 0) "out/c.tif" 1024 768 3 1
              (creation_options 4 false false)) (Ret None);
     EPrint (MsgCannotCreate "out/c.tif")].
Proof. vm_compute. repeat split. Qed.

(** ** The stages of a batch (lines 174 to 226) *)

Section Stages.

Context {S : Type} {tables : UnicodeLower}.
Variable host : Host S.
Variable has_cuda : bool.
Variable cwd input_dir output_dir : string.
Variable extensions : list string.
Variable use_gpu parallel : bool.

(** Lines 174 to 181 and what follows: once the output directory is there,
    the probe runs if acceleration is requested, and the rest of the batch
    gets its answer, or [False] if it did not run. *)
Lemma batch_compress_run s output_exists s2 gpu_available :
  output_root_ready host output_dir s output_exists s2 ->
  (if use_gpu then out (check_gpu_support host has_cuda s2) = Ret gpu_available
   else gpu_available = false) ->
  let rp := check_gpu_support host has_cuda s2 in
  let ra := after_probe host has_cuda cwd input_dir output_dir extensions use_gpu parallel
              gpu_available (if use_gpu then st rp else s2) in
  batch_compress host has_cuda cwd input_dir output_dir extensions use_gpu parallel s
  = mkRes (out ra) (st ra)
      (root_events output_dir output_exists
       ++ (if use_gpu then evs rp else []) ++ evs ra)%list.
Proof.
  intros (s1 & Hex & Hmk) Hg. cbn zeta. unfold batch_compress, root_events.
  rewrite (bind_run_ret (call host (os_path_exists output_dir)) _ s output_exists)
    by (rewrite call_run, Hex; reflexivity).
  rewrite call_run, Hex. cbn [fst snd out st evs].
  assert (Hroot : (if negb output_exists
                   then call host (os_makedirs output_dir false) else ret tt) s1
                  = mkRes (Ret tt) s2
                      (if output_exists then []
                       else [ECall (os_makedirs output_dir false) (Ret tt)])).
  { destruct output_exists; cbn [negb].
    - subst s2. reflexivity.
    - rewrite call_run, Hmk. reflexivity. }
  rewrite (bind_run_ret _ _ s1 tt) by (rewrite Hroot; reflexivity).
  rewrite Hroot. cbn [out st evs]. unfold probe.
  destruct use_gpu.
  - rewrite (bind_run_ret _ _ s2 gpu_available Hg). cbn [out st evs].
    reflexivity.
  - subst gpu_available. rewrite (bind_run_ret (ret false) _ s2 false) by reflexivity.
    cbn [ret out st evs app]. reflexivity.
Qed.

(** Lines 186 to 220: the clock, the enumeration, and the dispatch of the
    work items that the enumeration returned. *)
Lemma after_probe_run gpu_available s3 start_time s4 total_files files :
  host _ time_time s3 = (Ret start_time, s4) ->
  let rc := collect_files host cwd input_dir output_dir extensions use_gpu
              gpu_available s4 in
  out rc = Ret (total_files, files) ->
  let rd := dispatch host has_cuda parallel total_files files (st rc) in
  exists rest,
    evs (after_probe host has_cuda cwd input_dir output_dir extensions use_gpu parallel
           gpu_available s3)
    = (ECall time_time (Ret start_time) :: evs rc ++ evs rd ++ rest)%list.
Proof.
  cbn zeta. intros Ht Hc. unfold after_probe.
  rewrite (bind_run_ret (call host time_time) _ s3 start_time)
    by (rewrite call_run, Ht; reflexivity).
  rewrite call_run, Ht. cbn [fst snd out st evs app].
  rewrite (bind_run_ret _ _ s4 (total_files, files) Hc). cbn [out st evs].
  match goal with
  | |- context [dispatch host has_cuda parallel total_files files ?s5] =>
      destruct (out (dispatch host has_cuda parallel total_files files s5))
        as [successful_files | x] eqn:E
  end.
  - rewrite (bind_run_ret _ _ _ _ E). cbn [out st evs].
    eexists. reflexivity.
  - rewrite (bind_run_raise _ _ _ _ E). cbn [out st evs].
    exists []. rewrite app_nil_r. reflexivity.
Qed.

(** Every [Create] call of the batch after the probe gets the options that
    go with the flag [gpu_available and use_gpu]. *)
Lemma after_probe_creates gpu_available :
  always (creates_with (gpu_available && use_gpu) has_cuda)
    (after_probe host has_cuda cwd input_dir output_dir extensions use_gpu parallel
       gpu_available).
Proof.
  assert (Hquiet : forall e, create_options e = None ->
                     creates_with (gpu_available && use_gpu) has_cuda e).
  { intros e He o Ho. congruence. }
  assert (Hconv : forall i o, always (creates_with (gpu_available && use_gpu) has_cuda)
                    (compress_geotiff host has_cuda i o (gpu_available && use_gpu)))
    by (intros; apply compress_geotiff_creates).
  unfold after_probe.
  apply always_bind; [apply always_call; intros; apply Hquiet; reflexivity |].
  intros start_time. eapply sat_bind.
  { apply collect_files_post; intros; apply Hquiet; reflexivity. }
  intros [total files] [_ Hflags]. cbn [snd] in Hflags.
  rewrite Forall_forall in Hflags.
  apply always_bind.
  - unfold dispatch. destruct (parallel && (1 <? total)%Z).
    + apply always_bind; [| intros; apply always_ret].
      unfold run_parallel.
      apply always_bind; [apply always_call; intros; apply Hquiet; reflexivity | intros].
      apply always_bind; [apply always_print; apply Hquiet; reflexivity | intros].
      apply always_bind; [apply always_call; intros; apply Hquiet; reflexivity | intros].
      unfold pool_map.
      eapply sat_weaken; [apply sat_map_each with (Q := fun _ => True) | trivial].
      intros [[i o] g] Hin. specialize (Hflags _ Hin). cbn in Hflags. subst g.
      apply Hconv.
    + unfold run_sequential. apply sat_for_fold; [trivial |].
      intros k [[i o] g] Hin _. specialize (Hflags _ Hin). cbn in Hflags. subst g.
      unfold sequential_step.
      apply always_bind; [apply always_print; apply Hquiet; reflexivity |]. intros _.
      apply always_bind; [apply Hconv | intros; apply always_ret].
  - intros k. unfold report.
    apply always_bind; [apply always_call; intros; apply Hquiet; reflexivity | intros].
    apply always_bind; [apply always_print; apply Hquiet; reflexivity | intros].
    apply always_bind; [apply always_lift | intros].
    apply always_print. apply Hquiet. reflexivity.
Qed.

End Stages.

(** ** The acceleration flag of the work items (C10) *)

(** C10.  In a batch that got past the output directory, the probe
    [check_gpu_support] runs once, before the clock is read and the tree is
    walked, if acceleration is requested, and it answers; if acceleration
    is not requested, no call and no line of the probe occurs in the batch.
    Every work item that the enumeration of this batch returns carries the
    same flag, the answer of the probe and the request, which is [False]
    for every item when acceleration is not requested; and these are the
    items that the batch dispatches, right after the enumeration. *)
Theorem uniform_acceleration_flag {S} {tables : UnicodeLower} (host : Host S)
    (has_cuda : bool) (cwd : string) (input_dir output_dir : string)
    (extensions : list string) (use_gpu parallel : bool)
    (s : S) (output_exists : bool) (s2 : S) :
  output_root_ready host output_dir s output_exists s2 ->
  let r := batch_compress host has_cuda cwd input_dir output_dir extensions
             use_gpu parallel s in
  let rp := check_gpu_support host has_cuda s2 in
  exists gpu_available : bool,
    (if use_gpu then out rp = Ret gpu_available else gpu_available = false) /\
    (use_gpu = false -> Forall (fun e => is_probe_event e = false) (evs r)) /\
    forall start_time s4,
      host _ time_time (if use_gpu then st rp else s2) = (Ret start_time, s4) ->
      forall total_files files,
        let rc := collect_files host cwd input_dir output_dir extensions use_gpu
                    gpu_available s4 in
        out rc = Ret (total_files, files) ->
        let rd := dispatch host has_cuda parallel total_files files (st rc) in
        Forall (fun item : WorkItem => snd item = gpu_available && use_gpu) files /\
        (use_gpu = false -> Forall (fun item : WorkItem => snd item = false) files) /\
        exists rest,
          evs r = (root_events output_dir output_exists
                   ++ (if use_gpu then evs rp else [])
                   ++ ECall time_time (Ret start_time) :: evs rc ++ evs rd ++ rest)%list.
Proof.
  intros Hroot. cbn zeta.
  assert (Hg : exists g, if use_gpu
                         then out (check_gpu_support host has_cuda s2) = Ret g
                         else g = false).
  { destruct use_gpu; [apply check_gpu_support_returns | exists false; reflexivity]. }
  destruct Hg as [g Hg]. exists g. split; [exact Hg |]. split.
  - intros ->.
    apply (always_events _ _ s
             (batch_without_gpu_no_probe host has_cuda cwd input_dir output_dir
                extensions parallel)).
  - intros start_time s4 Ht total_files files Hc.
    assert (Hflags : Forall (fun item : WorkItem => snd item = g && use_gpu) files).
    { pose proof (collect_files_post host cwd input_dir output_dir extensions
                    use_gpu g (fun _ => True)
                    (fun _ _ => I) (fun _ _ _ => I) s4) as [_ H].
      apply (H _ Hc). }
    split; [exact Hflags |]. split.
    + intros ->. rewrite andb_false_r in Hflags. exact Hflags.
    + rewrite (batch_compress_run host has_cuda cwd input_dir output_dir extensions
                 use_gpu parallel s output_exists s2 g Hroot Hg).
      cbn [evs].
      destruct (after_probe_run host has_cuda cwd input_dir output_dir extensions
                  use_gpu parallel g _ start_time s4 total_files files Ht Hc)
        as [rest ->].
      exists rest. reflexivity.
Qed.

(** The theorem on the library that registers a driver named after CUDA:
    acceleration is requested, the output directory exists, the probe
    answers [True], and the two work items carry [True]. *)
Lemma uniform_acceleration_flag_witness :
  let host := sim_host scenario_cuda_driver in
  let files := [("in/a/img1.tif", "out/a/img1.tif", true);
                ("in/a/b/img2.tiff", "out/a/b/img2.tiff", true)] in
  output_root_ready host "out" 0%float true 0%float /\
  out (check_gpu_support host false 0%float) = Ret true /\
  out (collect_files host "/home/u" "in" "out" [".tif"; ".tiff"] true true 1%float)
  = Ret (2%Z, files) /\
  Forall (fun item : WorkItem => snd item = true && true) files.
Proof.
  cbn zeta.
  assert (Hroot : output_root_ready (sim_host scenario_cuda_driver) "out"
                    0%float true 0%float)
    by (exists 0%float; split; reflexivity).
  assert (Hp : out (check_gpu_support (sim_host scenario_cuda_driver) false 0%float)
               = Ret true) by (vm_compute; reflexivity).
  assert (Hc : out (collect_files (sim_host scenario_cuda_driver) "/home/u" "in" "out"
                      [".tif"; ".tiff"] true true 1%float)
               = Ret (2%Z, [("in/a/img1.tif", "out/a/img1.tif", true);
                            ("in/a/b/img2.tiff", "out/a/b/img2.tiff", true)]))
    by (vm_compute; reflexivity).
  split; [exact Hroot |]. split; [exact Hp |]. split; [exact Hc |].
  destruct (uniform_acceleration_flag (sim_host scenario_cuda_driver) false "/home/u"
              "in" "out" [".tif"; ".tiff"] true true 0%float true 0%float Hroot)
    as (g & Hg & _ & Hrun).
  cbn iota in Hg. rewrite Hp in Hg. injection Hg as <-.
  exact (proj1 (Hrun 0%float 1%float eq_refl 2%Z _ Hc)).
Defined.

(** ** The acceleration options through a batch (C3) *)

Lemma root_events_create_nothing output_dir output_exists :
  Forall (fun e => create_options e = None) (root_events output_dir output_exists).
Proof. unfold root_events. destruct output_exists; repeat constructor. Qed.

Lemma check_gpu_support_creates_nothing {S} (host : Host S) has_cuda :
  always (fun e => create_options e = None) (check_gpu_support host has_cuda).
Proof. unfold check_gpu_support. always_tac. Qed.

(** C3, as the code has it.  A conversion appends the four acceleration
    options to the creation options if and only if its [use_gpu] flag is
    true and the module global [has_cuda] is true (the creation options of
    the GTiff driver mention CUDA); otherwise it passes the seven CPU
    options alone, with the same [JPEG_QUALITY=90].  In a batch, the flag
    of every conversion is the answer that the probe gave in this batch and
    the request: every [Create] call of the batch gets the options that go
    with that flag, so when the probe has answered [False], no conversion of
    the batch passes an acceleration option, whatever was requested and
    whatever [has_cuda] is. *)
Theorem acceleration_options {S} {tables : UnicodeLower} (host : Host S)
    (has_cuda : bool) (cwd : string)
    (input_file output_file : string) (use_gpu : bool) (s : S) :
  Forall (creates_with use_gpu has_cuda)
    (evs (compress_geotiff host has_cuda input_file output_file use_gpu s)) /\
  (forall n, accelerated (creation_options n use_gpu has_cuda) = true
             <-> use_gpu = true /\ has_cuda = true) /\
  (forall n, use_gpu && has_cuda = false ->
             creation_options n use_gpu has_cuda = base_options n) /\
  (forall input_dir output_dir extensions requested parallel s',
     Forall creates_on_cpu
       (evs (after_probe host has_cuda cwd input_dir output_dir extensions
               requested parallel false s'))) /\
  (forall input_dir output_dir extensions (requested parallel : bool) (s' : S)
          (output_exists : bool) (s2 : S) (gpu_available : bool),
     output_root_ready host output_dir s' output_exists s2 ->
     (if requested then out (check_gpu_support host has_cuda s2) = Ret gpu_available
      else gpu_available = false) ->
     let es := evs (batch_compress host has_cuda cwd input_dir output_dir extensions
                      requested parallel s') in
     Forall (creates_with (gpu_available && requested) has_cuda) es /\
     (gpu_available = false -> Forall creates_on_cpu es)).
Proof.
  split; [| split; [| split; [| split]]].
  - apply (always_events _ _ s (compress_geotiff_creates host has_cuda _ _ _)).
  - intros n. rewrite accelerated_creation_options. apply andb_true_iff.
  - intros n H. unfold creation_options. rewrite H. apply app_nil_r.
  - intros. eapply Forall_impl;
      [| apply (always_events _ _ s'
                  (after_probe_creates host has_cuda cwd input_dir output_dir extensions
                     requested parallel false))].
    intros e. apply creates_with_on_cpu. reflexivity.
  - intros input_dir output_dir extensions requested parallel s' output_exists s2 g
           Hroot Hg. cbn zeta.
    assert (Hall : Forall (creates_with (g && requested) has_cuda)
                     (evs (batch_compress host has_cuda cwd input_dir output_dir
                             extensions requested parallel s'))).
    { rewrite (batch_compress_run host has_cuda cwd input_dir output_dir extensions
                 requested parallel s' output_exists s2 g Hroot Hg).
      cbn [evs].
      assert (Hquiet : forall e, create_options e = None ->
                         creates_with (g && requested) has_cuda e)
        by (intros e He o Ho; congruence).
      apply Forall_app. split.
      - eapply Forall_impl; [exact Hquiet | apply root_events_create_nothing].
      - apply Forall_app. split.
        + destruct requested; [| apply Forall_nil].
          eapply Forall_impl; [exact Hquiet |].
          apply (always_events _ _ s2 (check_gpu_support_creates_nothing host has_cuda)).
        + apply (always_events _ _ _
                   (after_probe_creates host has_cuda cwd input_dir output_dir extensions
                      requested parallel g)). }
    split; [exact Hall |].
    intros ->. eapply Forall_impl; [| exact Hall].
    intros e. apply creates_with_on_cpu. reflexivity.
Qed.

(** The theorem on a library built with CUDA whose probe fails: [has_cuda]
    is [True] and acceleration is requested, the probe prints its error
    line and answers [False], and no conversion of the batch gets an
    acceleration option; a single conversion with the flag [True] would
    get them. *)
Lemma acceleration_options_witness :
  let host := sim_host_probe_error scenario in
  let r := batch_compress host true "/home/u" "in" "out" [".tif"; ".tiff"]
             true false 0%float in
  output_root_ready host "out" 0%float true 0%float /\
  out (check_gpu_support host true 0%float) = Ret false /\
  Forall creates_on_cpu (evs r) /\
  some_create (evs r) = true /\
  some_accelerated_create
    (evs (compress_geotiff host true "in/a/img1.tif" "out/a/img1.tif" true 0%float))
  = true.
Proof.
  cbn zeta.
  assert (Hroot : output_root_ready (sim_host_probe_error scenario) "out"
                    0%float true 0%float)
    by (exists 0%float; split; reflexivity).
  assert (Hp : out (check_gpu_support (sim_host_probe_error scenario) true 0%float)
               = Ret false) by (vm_compute; reflexivity).
  split; [exact Hroot |]. split; [exact Hp |].
  split; [| split; vm_compute; reflexivity].
  destruct (acceleration_options (sim_host_probe_error scenario) true "/home/u"
              "in/a/img1.tif" "out/a/img1.tif" true 0%float)
    as (_ & _ & _ & _ & Hbatch).
  exact (proj2 (Hbatch "in" "out" [".tif"; ".tiff"] true false 0%float true 0%float false
                  Hroot Hp) eq_refl).
Defined.
